(** * Web-Scraper: a shallow embedding of [Web_Scrapper.py]

    The development follows the Python source method by method.

    - A [str] is a list of Unicode code points ([N]); the same type is
      used for [bytes] (file contents, response bodies).
    - The file system, the log, the standard output and the list of
      HTTP requests issued so far form the [World] that every method
      threads through.
    - A Python exception is a value of [exn]; a call that may raise
      returns a [result], and the state reached is kept with it.
    - Everything the scraper imports (requests, BeautifulSoup, urllib,
      spaCy, chardet, the document decoders, tesseract, the Unicode
      tables behind [str.lower] and [str.isalnum], the faults of the
      operating system) is a field of the environment record [Env].
      The answer of a library depends on its arguments only, and on
      the file it is given the path of.
    - Paths are POSIX paths and a directory is known by its path.
    - [list(set)] is [elements] of a [gset]: some order without
      repetition, not Python's.
    - A file whose writing raised holds what the calls before the
      exception wrote. *)

From Stdlib Require Import NArith ZArith Ascii String Decimal DecimalString.
From stdpp Require Import gmap list fin_maps.

Local Open Scope N_scope.

(** ** Python strings *)

Module PyStr.

Abbreviation char := N (only parsing).
Abbreviation str := (list N) (only parsing).

Definition ch (a : ascii) : char := N_of_ascii a.

(** A literal of the source, as a list of code points. *)
Definition u (s : string) : str := ch <$> list_ascii_of_string s.
Arguments u : simpl never.

(** [hay.startswith(needle)] *)
Fixpoint startswith (needle hay : str) : bool :=
  match needle, hay with
  | [], _ => true
  | _ :: _, [] => false
  | a :: needle', b :: hay' => (a =? b) && startswith needle' hay'
  end.

(** [needle in hay] on strings: substring search. *)
Fixpoint contains (needle hay : str) : bool :=
  startswith needle hay ||
  match hay with
  | [] => false
  | _ :: hay' => contains needle hay'
  end.

(** [s.replace(old, new)]: the occurrences of [old] are replaced from
    left to right, without overlap.  [skip] counts the characters of
    the occurrence being replaced that are still to be dropped. *)
Fixpoint replace_from (old new : str) (skip : nat) (s : str) : str :=
  match s with
  | [] => []
  | c :: rest =>
      match skip with
      | S k => replace_from old new k rest
      | O =>
          if startswith old s
          then new ++ replace_from old new (length old - 1) rest
          else c :: replace_from old new 0 rest
      end
  end.

(** Only called with a non-empty [old] in the source; for an empty
    [old] and an empty [new] Python returns the string unchanged. *)
Definition replace (old new s : str) : str :=
  match old with
  | [] => match new with [] => s | _ => new ++ flat_map (fun c => c :: new) s end
  | _ :: _ => replace_from old new 0 s
  end.

(** [sep.join(parts)] *)
Fixpoint join (sep : str) (parts : list str) : str :=
  match parts with
  | [] => []
  | [p] => p
  | p :: ps => p ++ sep ++ join sep ps
  end.

(** [str(n)] for a non-negative integer. *)
Definition of_nat (n : nat) : str :=
  u (NilEmpty.string_of_uint (Nat.to_uint n)).

(** [str(b)] for a boolean. *)
Definition of_bool (b : bool) : str :=
  if b then u "True" else u "False".

(** ASCII part of [str.isalnum] on one character. *)
Definition ascii_isalnum (c : char) : bool :=
  ((48 <=? c) && (c <=? 57)) || ((65 <=? c) && (c <=? 90)) ||
  ((97 <=? c) && (c <=? 122)).

End PyStr.

Export PyStr.

(** ** [posixpath] *)

Module PosixPath.

Definition sep : char := ch "/".
Definition extsep : char := ch ".".

(** [os.path.join(a, b)] *)
Definition join (a b : str) : str :=
  if startswith [sep] b then b
  else match last a with
       | None => b
       | Some c => if c =? sep then a ++ b else a ++ sep :: b
       end.

(** [p.rfind(c)], which is -1 when [c] does not occur. *)
Fixpoint rfind_from (c : char) (i : Z) (found : Z) (p : str) : Z :=
  match p with
  | [] => found
  | d :: p' => rfind_from c (i + 1) (if d =? c then i else found) p'
  end.

Definition rfind (c : char) (p : str) : Z := rfind_from c 0 (-1) p.

(** [p[i:j]] for non-negative indices. *)
Definition slice (i j : Z) (p : str) : str :=
  take (Z.to_nat j - Z.to_nat i)%nat (drop (Z.to_nat i) p).

(** [os.path.basename(p)]: [p[p.rfind('/') + 1:]] *)
Definition basename (p : str) : str :=
  drop (Z.to_nat (rfind sep p + 1)) p.

(** [os.path.splitext(p)], that is [genericpath._splitext(p, '/', None, '.')]:
    the extension starts at the last dot of the last component, unless
    that component has only dots before it. *)
Definition splitext (p : str) : str * str :=
  let sepIndex := rfind sep p in
  let dotIndex := rfind extsep p in
  if (sepIndex <? dotIndex)%Z
  then
    if existsb (fun c => negb (c =? extsep)) (slice (sepIndex + 1) dotIndex p)
    then (take (Z.to_nat dotIndex) p, drop (Z.to_nat dotIndex) p)
    else (p, [])
  else (p, []).

(** The directories above [p], nearest last: every non-empty proper
    prefix of [p] that ends right before a separator. *)
Fixpoint parents_from (seen : str) (p : str) : list str :=
  match p with
  | [] => []
  | c :: p' =>
      (if (c =? sep) && negb (bool_decide (seen = [])) then [seen] else [])
      ++ parents_from (seen ++ [c]) p'
  end.

Definition parents (p : str) : list str := parents_from [] p.

End PosixPath.

(** ** [re.sub(r'<.*?>', '', text)] *)

Module Re.

Definition lt_sign : char := ch "<".
Definition gt_sign : char := ch ">".
Definition newline : char := 10.

(** Does a [>] occur in [s] before any newline?  (The dot of the
    pattern matches every character but the newline.) *)
Fixpoint closes (s : str) : bool :=
  match s with
  | [] => false
  | c :: s' =>
      if c =? gt_sign then true
      else if c =? newline then false
      else closes s'
  end.

(** Leftmost, non-overlapping, non-greedy matches of [<.*?>] are
    deleted.  [in_tag] holds while the scan is inside a match, that is
    between a [<] for which [closes] held and the first [>] after it. *)
Fixpoint sub_tags_from (in_tag : bool) (s : str) : str :=
  match s with
  | [] => []
  | c :: s' =>
      if in_tag
      then sub_tags_from (negb (c =? gt_sign)) s'
      else if (c =? lt_sign) && closes s'
           then sub_tags_from true s'
           else c :: sub_tags_from false s'
  end.

Definition sub_tags (text : str) : str := sub_tags_from false text.

(** [re.search(r'<.*?>', s) is not None] *)
Fixpoint has_tag (s : str) : bool :=
  match s with
  | [] => false
  | c :: s' => ((c =? lt_sign) && closes s') || has_tag s'
  end.

End Re.

(** ** Exceptions and results *)

(** The exception classes the source distinguishes: [fetch_page_content]
    catches [requests.RequestException] only, every other handler
    catches [Exception]. *)
Inductive exn :=
| RequestException (msg : str)
| ValueError (msg : str)
| OSError (msg : str)
| OtherError (msg : str).

(** [str(e)] *)
Definition exn_msg (e : exn) : str :=
  match e with
  | RequestException m | ValueError m | OSError m | OtherError m => m
  end.

Definition is_RequestException (e : exn) : bool :=
  match e with RequestException _ => true | _ => false end.

Inductive result (A : Type) :=
| Ok (a : A)
| Raise (e : exn).
Arguments Ok {A} a.
Arguments Raise {A} e.

(** ** The values exchanged with the libraries *)

(** [requests.Response] *)
Record Response := {
  status_code : Z;
  reason : str;
  content : str;   (* the body, as bytes *)
  text : str       (* the body, decoded *)
}.

(** The arguments of one [requests.get] call. *)
Record Request := {
  req_url : str;
  req_user_agent : option str;
  req_timeout : nat
}.

(** What the scraper asks of a parsed page. *)
Record Soup := {
  anchors : list str;    (* a_tag['href'] for a_tag in soup.find_all('a', href=True) *)
  images : list str;     (* img_tag['src'] for img_tag in soup.find_all('img', src=True) *)
  get_text : result str  (* soup.get_text(separator=' ', strip=True) *)
}.

(** A spaCy token. *)
Record Token := {
  tok_text : str;
  is_space : bool
}.

(** [datetime.now()] *)
Record datetime := {
  year : nat; month : nat; day : nat;
  hour : nat; minute : nat; second : nat
}.

(** Where the writing of one file goes wrong, if it does: [open] raises,
    the [k]-th call of [f.write] raises (counting from 0), or the flush
    on leaving the [with] block raises. *)
Inductive write_fault :=
| NoFault
| OpenFails (e : exn)
| WriteFails (k : nat) (e : exn)
| CloseFails (e : exn).

Inductive level := INFO | WARNING | ERROR.

(** ** The world *)

Record World := {
  dirs : gset (list N);            (* the directories that exist *)
  files : gmap (list N) (list N);  (* the regular files and their contents *)
  requests : list Request;         (* the HTTP requests issued, oldest first *)
  log : list (level * str);        (* the records given to the logger *)
  stdout : list str                (* the lines printed *)
}.

(** ** The environment *)

Record Env := {
  (* str methods that depend on the Unicode tables *)
  lower : str -> str;
  isalnum_unicode : char -> bool;
  repr : str -> str;
  (* urllib.parse: urlparse(url), its scheme and netloc; urljoin(base, url);
     both raise ValueError on some malformed inputs *)
  urlparse : str -> result (str * str);
  urljoin : str -> str -> result str;
  (* requests.get *)
  http_get : Request -> result Response;
  (* BeautifulSoup(html, 'html.parser') *)
  html_parser : str -> Soup;
  (* the spaCy pipeline, self.nlp; it raises ValueError on a text
     longer than nlp.max_length *)
  nlp : str -> result (list Token);
  (* faults of the operating system: making a directory, writing a
     file, opening for reading a path that holds no readable file (a
     directory, a file of another user) *)
  mkdir_fault : str -> option exn;
  write_plan : str -> write_fault;
  read_fault : str -> option exn;
  (* chardet.detect(...)['encoding'] and the codec of an encoding *)
  chardet_encoding : str -> option str;
  decode : str -> str -> result str;
  (* PyPDF2: page.extract_text() of every page *)
  pdf_pages : str -> result (list (option str));
  (* python-docx: paragraph.text of every paragraph of docx.Document(path);
     the library opens the file itself, the second argument is what the
     path holds, if anything *)
  docx_paragraphs : str -> option str -> result (list str);
  (* csv.reader over the decoded file *)
  csv_rows : str -> str -> result (list (list str));
  (* openpyxl: for every sheet of load_workbook(path), for every row,
     str(cell) or None; the library checks the name and opens the file
     itself *)
  excel_rows : str -> option str -> result (list (list (list (option str))));
  (* pytesseract.image_to_string(Image.open(...)) *)
  image_to_string : str -> result str
}.

(** ** A monad for state and exceptions *)

Definition M (A : Type) : Type := World -> result A * World.

Definition ret {A} (a : A) : M A := fun w => (Ok a, w).

Definition raise {A} (e : exn) : M A := fun w => (Raise e, w).

Definition bind {A B} (m : M A) (k : A -> M B) : M B :=
  fun w =>
    match m w with
    | (Ok a, w') => k a w'
    | (Raise e, w') => (Raise e, w')
    end.

Definition lift {A} (r : result A) : M A := fun w => (r, w).

(** [try: body  except Exception as e: handler e] *)
Definition try_except {A} (body : M A) (handler : exn -> M A) : M A :=
  fun w =>
    match body w with
    | (Ok a, w') => (Ok a, w')
    | (Raise e, w') => handler e w'
    end.

Declare Scope py_scope.
Delimit Scope py_scope with py.
Notation "x <- m ;; k" := (bind m (fun x => k))
  (at level 100, m at next level, right associativity) : py_scope.
Notation "m ;; k" := (bind m (fun _ => k))
  (at level 100, right associativity) : py_scope.
Local Open Scope py_scope.

(** ** Primitive effects *)

Definition set_dirs (d : gset (list N)) (w : World) : World :=
  {| dirs := d; files := files w; requests := requests w; log := log w; stdout := stdout w |}.

Definition set_files (f : gmap (list N) (list N)) (w : World) : World :=
  {| dirs := dirs w; files := f; requests := requests w; log := log w; stdout := stdout w |}.

Definition logger (l : level) (msg : str) : M unit :=
  fun w => (Ok tt, {| dirs := dirs w; files := files w; requests := requests w;
                      log := log w ++ [(l, msg)]; stdout := stdout w |}).

Definition print (msg : str) : M unit :=
  fun w => (Ok tt, {| dirs := dirs w; files := files w; requests := requests w;
                      log := log w; stdout := stdout w ++ [msg] |}).

Definition record_request (r : Request) : M unit :=
  fun w => (Ok tt, {| dirs := dirs w; files := files w; requests := requests w ++ [r];
                      log := log w; stdout := stdout w |}).

(** ** The scraper *)

Section Scraper.

Context (E : Env).

(** *** Files and directories *)

Definition append_file (path data : str) (w : World) : World :=
  set_files (<[path := default [] (files w !! path) ++ data]> (files w)) w.

(** [open(path, 'w')]: the file is created or truncated. *)
Definition fopen (path : str) : M unit :=
  fun w =>
    match write_plan E path with
    | OpenFails e => (Raise e, w)
    | _ => (Ok tt, set_files (<[path := []]> (files w)) w)
    end.

(** The [k]-th [f.write(data)] on the file opened at [path]. *)
Definition fwrite (path : str) (k : nat) (data : str) : M unit :=
  fun w =>
    match write_plan E path with
    | WriteFails j e =>
        if (j =? k)%nat then (Raise e, w) else (Ok tt, append_file path data w)
    | _ => (Ok tt, append_file path data w)
    end.

(** Leaving the [with] block normally. *)
Definition fclose (path : str) : M unit :=
  fun w =>
    match write_plan E path with
    | CloseFails e => (Raise e, w)
    | _ => (Ok tt, w)
    end.

(** [with open(path, mode) as f: f.write(data)] *)
Definition write_file (path data : str) : M unit :=
  fopen path ;; fwrite path 0 data ;; fclose path.

(** [str(e)] for the [FileNotFoundError] of [open(path, ...)] *)
Definition no_such_file (path : str) : str :=
  u "[Errno 2] No such file or directory: " ++ repr E path.

(** [with open(path, 'rb') as f: f.read()].  The files of the world
    are those that can be read; where there is none, [open] raises what
    the operating system reports, or else that there is no such file. *)
Definition read_file (path : str) : M str :=
  fun w =>
    match files w !! path with
    | Some data => (Ok data, w)
    | None =>
        match read_fault E path with
        | Some e => (Raise e, w)
        | None => (Raise (OSError (no_such_file path)), w)
        end
    end.

(** What a library that is given a path finds there. *)
Definition peek (path : str) : M (option str) :=
  fun w => (Ok (files w !! path), w).

(** [os.mkdir(d)] unless [d] is a directory already. *)
Definition ensure_dir (d : str) : M unit :=
  fun w =>
    if bool_decide (d ∈ dirs w) then (Ok tt, w)
    else if bool_decide (is_Some (files w !! d))
         then (Raise (OSError (u "File exists")), w)
         else match mkdir_fault E d with
              | Some e => (Raise e, w)
              | None => (Ok tt, set_dirs ({[d]} ∪ dirs w) w)
              end.

Fixpoint ensure_dirs (ds : list str) : M unit :=
  match ds with
  | [] => ret tt
  | d :: ds' => ensure_dir d ;; ensure_dirs ds'
  end.

(** [os.makedirs(name, exist_ok=True)]: the missing directories above
    [name] are made first, outermost first, then [name] itself. *)
Definition makedirs (name : str) : M unit :=
  ensure_dirs (PosixPath.parents name ++ [name]).

(** *** The object *)

Record WebScraper := {
  url : str;
  extract_text : bool;
  extract_link : bool;
  extract_documents : bool;
  extract_images : bool;
  safe_folder_name : str;
  output_dir : str;
  links_dir : str;
  docs_dir : str;
  images_dir : str
}.

(** [c.isalnum()] *)
Definition isalnum (c : char) : bool :=
  if c <? 128 then ascii_isalnum c else isalnum_unicode E c.

(** [s.zfill(width)] *)
Definition zfill (width : nat) (s : str) : str :=
  replicate (width - length s) (ch "0") ++ s.

(** [now.strftime("%Y%m%d_%H%M%S")]; the year is written with four
    digits, as the documentation of the format gives it. *)
Definition strftime (now : datetime) : str :=
  zfill 4 (of_nat (year now)) ++ zfill 2 (of_nat (month now)) ++
  zfill 2 (of_nat (day now)) ++ u "_" ++
  zfill 2 (of_nat (hour now)) ++ zfill 2 (of_nat (minute now)) ++
  zfill 2 (of_nat (second now)).

(** The characters [_create_safe_folder_name] keeps. *)
Definition safe_char (c : char) : bool :=
  isalnum c || bool_decide (c ∈ [ch "-"; ch "_"]).

(** [now] is the value of [datetime.now()]. *)
Definition _create_safe_folder_name (url : str) (now : datetime) : str :=
  let safe_name := replace (u "http://") [] (replace (u "https://") [] url) in
  let safe_name := List.filter safe_char safe_name in
  let timestamp := strftime now in
  take 20 safe_name ++ u "_" ++ timestamp.

Definition when (b : bool) (m : M unit) : M unit :=
  if b then m else ret tt.

(** [WebScraper(url, base_output_dir, extract_text, extract_links,
    extract_documents, extract_images)], at the time [now].  The
    logger and the spaCy model the constructor sets up are the log of
    the world and the field [nlp] of the environment. *)
Definition __init__ (url base_output_dir : str)
    (extract_text extract_links extract_documents extract_images : bool)
    (now : datetime) : M WebScraper :=
  let safe_folder_name := _create_safe_folder_name url now in
  let output_dir := PosixPath.join base_output_dir safe_folder_name in
  let links_dir := PosixPath.join output_dir (u "links") in
  let docs_dir := PosixPath.join output_dir (u "documents") in
  let images_dir := PosixPath.join output_dir (u "images") in
  when extract_links (makedirs links_dir) ;;
  when extract_documents (makedirs docs_dir) ;;
  when extract_images (makedirs images_dir) ;;
  when extract_text (makedirs output_dir) ;;
  ret {| url := url;
         extract_text := extract_text;
         extract_link := extract_links;
         extract_documents := extract_documents;
         extract_images := extract_images;
         safe_folder_name := safe_folder_name;
         output_dir := output_dir;
         links_dir := links_dir;
         docs_dir := docs_dir;
         images_dir := images_dir |}.

(** *** Fetching the page *)

Definition requests_get (r : Request) : M Response :=
  record_request r ;; lift (http_get E r).

(** [response.raise_for_status()] *)
Definition raise_for_status (self_url : str) (r : Response) : result unit :=
  if ((400 <=? status_code r) && (status_code r <? 500))%Z
  then Raise (RequestException
                (of_nat (Z.to_nat (status_code r)) ++ u " Client Error: " ++
                 reason r ++ u " for url: " ++ self_url))
  else if ((500 <=? status_code r) && (status_code r <? 600))%Z
  then Raise (RequestException
                (of_nat (Z.to_nat (status_code r)) ++ u " Server Error: " ++
                 reason r ++ u " for url: " ++ self_url))
  else Ok tt.

(** [response.ok], which is also the truth value of a response. *)
Definition response_ok (r : Response) : bool :=
  match raise_for_status [] r with
  | Ok _ => true
  | Raise _ => false
  end.

Definition user_agent : str :=
  u "Mozilla/5.0 (Windows NT 10.0; Win64; x64) AppleWebKit/537.36".

Definition fetch_page_content (self : WebScraper) : M (option Response) :=
  fun w =>
    match (response <- requests_get {| req_url := url self;
                                       req_user_agent := Some user_agent;
                                       req_timeout := 10 |} ;;
           lift (raise_for_status (url self) response) ;;
           ret (Some response)) w with
    | (Ok r, w') => (Ok r, w')
    | (Raise e, w') =>
        if is_RequestException e
        then (logger ERROR (u "Webpage fetch failed: " ++ exn_msg e) ;; ret None) w'
        else (Raise e, w')
    end.

Definition detect_encoding (filepath : str) : M str :=
  data <- read_file filepath ;;
  ret (default (u "utf-8") (chardet_encoding E data)).

(** *** Links *)

(** [urlparse(self.url).scheme + "://" + urlparse(self.url).netloc] *)
Definition base_url (self : WebScraper) : result str :=
  match urlparse E (url self) with
  | Ok (scheme, netloc) => Ok (scheme ++ u "://" ++ netloc)
  | Raise e => Raise e
  end.

Fixpoint extract_links_loop (base : str) (hrefs : list str)
    (links : gset (list N)) : result (gset (list N)) :=
  match hrefs with
  | [] => Ok links
  | href :: rest =>
      match urljoin E base href with
      | Ok full_url => extract_links_loop base rest ({[full_url]} ∪ links)
      | Raise e => Raise e
      end
  end.

Definition extract_links (self : WebScraper) (soup : Soup) : result (list str) :=
  if negb (extract_link self) then Ok []
  else
    match base_url self with
    | Raise e => Raise e
    | Ok base =>
        match extract_links_loop base (anchors soup) ∅ with
        | Ok links => Ok (elements links)
        | Raise e => Raise e
        end
    end.

(** The loop of [save_links]; [k] writes were made before, [saved_link]
    is the counter.  The counter is returned with the exception, if any,
    since the handler of [save_links] returns it. *)
Fixpoint save_links_loop (links_file : str) (links : list str) (saved_link : nat)
    : World -> (nat * option exn) * World :=
  match links with
  | [] => fun w => ((saved_link, None), w)
  | link :: rest =>
      fun w =>
        match fwrite links_file saved_link (link ++ [Re.newline]) w with
        | (Ok _, w') => save_links_loop links_file rest (S saved_link) w'
        | (Raise e, w') => ((saved_link, Some e), w')
        end
  end.

Definition save_links (self : WebScraper) (links : list str) : M nat :=
  if negb (extract_link self) then ret 0%nat
  else
    let links_file := PosixPath.join (links_dir self) (u "links.txt") in
    let failed (saved_link : nat) (e : exn) : M nat :=
      logger ERROR (u "Link saving failed: " ++ exn_msg e) ;; ret saved_link in
    fun w =>
      match fopen links_file w with
      | (Raise e, w1) => failed 0%nat e w1
      | (Ok _, w1) =>
          match save_links_loop links_file links 0 w1 with
          | ((saved_link, Some e), w2) => failed saved_link e w2
          | ((saved_link, None), w2) =>
              match fclose links_file w2 with
              | (Raise e, w3) => failed saved_link e w3
              | (Ok _, w3) =>
                  (logger INFO (u "Saved " ++ of_nat (length links) ++ u " links") ;;
                   ret saved_link) w3
              end
          end
      end.

(** *** Text *)

(** [[token.text for token in doc if not token.is_space]] *)
Definition token_texts (doc : list Token) : list str :=
  tok_text <$> List.filter (fun token => negb (is_space token)) doc.

Definition clean_text (text : str) : result str :=
  let text := Re.sub_tags text in
  match nlp E text with
  | Raise e => Raise e
  | Ok doc => Ok (PyStr.join (u " ") (token_texts doc))
  end.

(** *** Documents *)

Definition doc_extensions : list str :=
  [u ".pdf"; u ".docx"; u ".doc"; u ".txt"; u ".csv"; u ".xls"; u ".xlsx"].

(** [any(ext in href.lower() for ext in doc_extensions)] *)
Definition is_document_href (href : str) : bool :=
  existsb (fun ext => contains ext (lower E href)) doc_extensions.

Definition extract_pdf_text (filepath : str) : M str :=
  data <- read_file filepath ;;
  pages <- lift (pdf_pages E data) ;;
  ret (foldl (fun text page => text ++ default [] page) [] pages).

Definition extract_docx_text (filepath : str) : M str :=
  found <- peek filepath ;;
  paragraphs <- lift (docx_paragraphs E filepath found) ;;
  ret (PyStr.join [Re.newline] paragraphs).

Definition extract_csv_text (filepath : str) : M str :=
  encoding <- detect_encoding filepath ;;
  data <- read_file filepath ;;
  rows <- lift (csv_rows E encoding data) ;;
  ret (PyStr.join [Re.newline] (PyStr.join (u " ") <$> rows)).

Definition extract_excel_text (filepath : str) : M str :=
  found <- peek filepath ;;
  sheets <- lift (excel_rows E filepath found) ;;
  ret (PyStr.join [Re.newline]
         ((fun row => PyStr.join (u " ") (omap id row)) <$> concat sheets)).

Definition extract_plain_text (filepath : str) : M str :=
  encoding <- detect_encoding filepath ;;
  data <- read_file filepath ;;
  lift (decode E encoding data).

Definition str_eqb (a b : str) : bool := bool_decide (a = b).

(** The dispatch of [extract_text_from_document] on the lowercased
    extension; [None] is the branch that prints "Unsupported file type"
    and returns. *)
Definition document_reader (file_ext filepath : str) : option (M str) :=
  if str_eqb file_ext (u ".pdf") then Some (extract_pdf_text filepath)
  else if existsb (str_eqb file_ext) [u ".docx"; u ".doc"]
  then Some (extract_docx_text filepath)
  else if str_eqb file_ext (u ".csv") then Some (extract_csv_text filepath)
  else if existsb (str_eqb file_ext) [u ".xls"; u ".xlsx"]
  then Some (extract_excel_text filepath)
  else if str_eqb file_ext (u ".txt") then Some (extract_plain_text filepath)
  else None.

Definition extract_text_from_document (self : WebScraper) (filepath : str) : M unit :=
  if negb (extract_documents self) then ret tt
  else
    try_except
      (let file_ext := lower E (snd (PosixPath.splitext filepath)) in
       match document_reader file_ext filepath with
       | None => print (u "Unsupported file type: " ++ file_ext)
       | Some read =>
           text <- read ;;
           cleaned_text <- lift (clean_text text) ;;
           let text_filename :=
             PosixPath.join (docs_dir self)
               (fst (PosixPath.splitext (PosixPath.basename filepath)) ++ u ".txt") in
           write_file text_filename cleaned_text
       end)
      (fun e => print (u "Error extracting text from document " ++ filepath ++
                       u ": " ++ exn_msg e)).

(** One turn of the loop of [download_documents] for an anchor that
    passed the extension test: the [try] block and its handler.  The
    result is the counter [documents_downloaded] after the turn. *)
Definition download_document (self : WebScraper) (href full_url : str)
    (documents_downloaded : nat) : World -> nat * World :=
  let failed (n : nat) (e : exn) (w : World) : nat * World :=
    (n, snd (logger WARNING (u "Document download failed: " ++ exn_msg e) w)) in
  fun w =>
    match requests_get {| req_url := full_url; req_user_agent := None;
                          req_timeout := 5 |} w with
    | (Raise e, w1) => failed documents_downloaded e w1
    | (Ok doc_response, w1) =>
        let filename := PosixPath.join (docs_dir self) (PosixPath.basename href) in
        match write_file filename (content doc_response) w1 with
        | (Raise e, w2) => failed documents_downloaded e w2
        | (Ok _, w2) =>
            match extract_text_from_document self filename w2 with
            | (Raise e, w3) => failed (S documents_downloaded) e w3
            | (Ok _, w3) => (S documents_downloaded, w3)
            end
        end
    end.

Fixpoint download_documents_loop (self : WebScraper) (base : str)
    (hrefs : list str) (documents_downloaded : nat) : M nat :=
  match hrefs with
  | [] => ret documents_downloaded
  | href :: rest =>
      full_url <- lift (urljoin E base href) ;;
      if is_document_href href
      then fun w =>
             let '(n, w') := download_document self href full_url documents_downloaded w in
             download_documents_loop self base rest n w'
      else download_documents_loop self base rest documents_downloaded
  end.

Definition download_documents (self : WebScraper) (soup : Soup) : M nat :=
  if negb (extract_documents self) then ret 0%nat
  else
    base <- lift (base_url self) ;;
    documents_downloaded <- download_documents_loop self base (anchors soup) 0 ;;
    logger INFO (u "Downloaded " ++ of_nat documents_downloaded ++ u " documents") ;;
    ret documents_downloaded.

(** *** Images *)

Definition extract_text_from_image (self : WebScraper) (filepath : str) : M unit :=
  if negb (extract_images self) then ret tt
  else
    try_except
      (data <- read_file filepath ;;
       text <- lift (image_to_string E data) ;;
       cleaned_text <- lift (clean_text text) ;;
       let text_filename :=
         PosixPath.join (images_dir self)
           (fst (PosixPath.splitext (PosixPath.basename filepath)) ++ u ".txt") in
       write_file text_filename cleaned_text)
      (fun e => print (u "Error extracting text from image " ++ filepath ++
                       u ": " ++ exn_msg e)).

Definition download_image (self : WebScraper) (img_url full_img_url : str)
    (images_downloaded : nat) : World -> nat * World :=
  let failed (n : nat) (e : exn) (w : World) : nat * World :=
    (n, snd (logger WARNING (u "Image download failed: " ++ exn_msg e) w)) in
  fun w =>
    match requests_get {| req_url := full_img_url; req_user_agent := None;
                          req_timeout := 5 |} w with
    | (Raise e, w1) => failed images_downloaded e w1
    | (Ok img_response, w1) =>
        let filename := PosixPath.join (images_dir self) (PosixPath.basename img_url) in
        match write_file filename (content img_response) w1 with
        | (Raise e, w2) => failed images_downloaded e w2
        | (Ok _, w2) =>
            match extract_text_from_image self filename w2 with
            | (Raise e, w3) => failed (S images_downloaded) e w3
            | (Ok _, w3) => (S images_downloaded, w3)
            end
        end
    end.

Fixpoint download_images_loop (self : WebScraper) (base : str)
    (srcs : list str) (images_downloaded : nat) : M nat :=
  match srcs with
  | [] => ret images_downloaded
  | img_url :: rest =>
      full_img_url <- lift (urljoin E base img_url) ;;
      fun w =>
        let '(n, w') := download_image self img_url full_img_url images_downloaded w in
        download_images_loop self base rest n w'
  end.

Definition download_images (self : WebScraper) (soup : Soup) : M nat :=
  if negb (extract_images self) then ret 0%nat
  else
    base <- lift (base_url self) ;;
    images_downloaded <- download_images_loop self base (images soup) 0 ;;
    logger INFO (u "Downloaded " ++ of_nat images_downloaded ++ u " images") ;;
    ret images_downloaded.

(** *** The page text *)

(** The result is [None] where the Python method falls off its end. *)
Definition save_webpage_text (self : WebScraper) (soup : Soup) : M (option str) :=
  if negb (extract_text self) then ret (Some (u "Text not extracted."))
  else
    try_except
      (text <- lift (get_text soup) ;;
       doc <- lift (nlp E text) ;;
       let cleaned_text := PyStr.join (u " ") (token_texts doc) in
       let text_file := PosixPath.join (output_dir self) (u "webpage_text.txt") in
       write_file text_file cleaned_text ;;
       logger INFO (u "Webpage text extracted successfully") ;;
       ret (Some (u "Text extracted.")))
      (fun e => logger ERROR (u "Text extraction failed: " ++ exn_msg e) ;; ret None).

(** *** The run *)

(** [not response] for the value [fetch_page_content] returned. *)
Definition not_response (response : option Response) : bool :=
  match response with
  | None => true
  | Some r => negb (response_ok r)
  end.

(** The entries of the summary are strings, or [None] where
    [save_webpage_text] returned nothing. *)
Definition links_mode (self : WebScraper) (soup : Soup) : M (list (option str)) :=
  if extract_link self
  then links <- lift (extract_links self soup) ;;
       n <- save_links self links ;;
       ret [Some (u "Link Extracted: " ++ of_nat n)]
  else ret [].

Definition documents_mode (self : WebScraper) (soup : Soup) : M (list (option str)) :=
  if extract_documents self
  then n <- download_documents self soup ;;
       ret [Some (u "Document Downloaded: " ++ of_nat n)]
  else ret [].

Definition images_mode (self : WebScraper) (soup : Soup) : M (list (option str)) :=
  if extract_images self
  then n <- download_images self soup ;;
       ret [Some (u "Images Downloaded: " ++ of_nat n)]
  else ret [].

Definition text_mode (self : WebScraper) (soup : Soup) : M (list (option str)) :=
  if extract_text self
  then s <- save_webpage_text self soup ;; ret [s]
  else ret [].

(** The result is [None] where the method returns without a value. *)
Definition scrape (self : WebScraper) : M (option (list (option str))) :=
  logger INFO (u "Starting scrape for URL: " ++ url self) ;;
  logger INFO (u "Extraction Options - Text: " ++ of_bool (extract_text self) ++
               u ", Links: " ++ of_bool (extract_link self) ++
               u ", Documents: " ++ of_bool (extract_documents self) ++
               u ", Images: " ++ of_bool (extract_images self)) ;;
  response <- fetch_page_content self ;;
  if not_response response
  then logger ERROR (u "Scraping failed: Could not fetch webpage") ;; ret None
  else
    let soup := html_parser E (default [] (text <$> response)) in
    let Summary := [] in
    s1 <- links_mode self soup ;;
    let Summary := Summary ++ s1 in
    s2 <- documents_mode self soup ;;
    let Summary := Summary ++ s2 in
    s3 <- images_mode self soup ;;
    let Summary := Summary ++ s3 in
    s4 <- text_mode self soup ;;
    let Summary := Summary ++ s4 in
    logger INFO (u "Scraping completed successfully") ;;
    ret (Some Summary).

End Scraper.

(** ** A small environment to run the scraper in

    One site, [https://example.com]; every asset answers 404 with a
    short body, except that a URL containing [missing] times out.  The
    tokenizer splits at white space.  The page, the status of the root
    page and the faults of the file system are left open. *)

Module Demo.

Definition ascii_lower (s : str) : str :=
  (fun c => if (65 <=? c) && (c <=? 90) then c + 32 else c) <$> s.

Definition is_whitespace (c : char) : bool :=
  (c =? 32) || ((9 <=? c) && (c <=? 13)).

(** [s.split()]: the maximal runs without white space; [word] is the
    run being read. *)
Fixpoint split_from (word : str) (s : str) : list str :=
  match s with
  | [] => match word with [] => [] | _ => [word] end
  | c :: s' =>
      if is_whitespace c
      then match word with [] => split_from [] s' | _ => word :: split_from [] s' end
      else split_from (word ++ [c]) s'
  end.

Definition tokenize (s : str) : list Token :=
  (fun t => {| tok_text := t; is_space := false |}) <$> split_from [] s.

(** [urljoin] for the references of the examples: one with an opening
    bracket and no closing one is refused as urllib refuses it, one
    with a scheme is kept, the others are appended to the base. *)
Definition join_url (base href : str) : result str :=
  if contains (u "[") href && negb (contains (u "]") href)
  then Raise (ValueError (u "Invalid IPv6 URL"))
  else if contains (u "://") href then Ok href
  else if startswith (u "/") href then Ok (base ++ href)
  else Ok (base ++ u "/" ++ href).

Definition root : str := u "https://example.com/page".

Definition get (root_status : Z) (r : Request) : result Response :=
  if bool_decide (req_url r = root)
  then Ok {| status_code := root_status; reason := u "";
             content := u "<html>"; text := u "<html>" |}
  else if contains (u "missing") (req_url r)
  then Raise (RequestException (u "Read timed out."))
  else Ok {| status_code := 404; reason := u "Not Found";
             content := u "<h1>Not Found</h1>"; text := u "<h1>Not Found</h1>" |}.

(** [repr] of a string of printable ASCII characters without quotes
    or backslashes. *)
Definition quote (s : str) : str := u "'" ++ s ++ u "'".

Definition env (root_status : Z) (page : Soup) (plan : str -> write_fault) : Env :=
  {| lower := ascii_lower;
     isalnum_unicode := fun _ => false;
     repr := quote;
     urlparse := fun _ => Ok (u "https", u "example.com");
     urljoin := join_url;
     http_get := get root_status;
     html_parser := fun _ => page;
     nlp := fun s => Ok (tokenize s);
     mkdir_fault := fun _ => None;
     write_plan := plan;
     read_fault := fun _ => None;
     chardet_encoding := fun _ => Some (u "ascii");
     decode := fun _ data => Ok data;
     pdf_pages := fun data => Ok [Some data];
     docx_paragraphs := fun path found =>
       match found with
       | Some data => Ok [data]
       | None => Raise (OtherError (u "Package not found at '" ++ path ++ u "'"))
       end;
     csv_rows := fun _ data => Ok [[data]];
     excel_rows := fun path found =>
       match found with
       | Some data => Ok [[[Some data]]]
       | None => Raise (OSError (u "[Errno 2] No such file or directory: " ++ quote path))
       end;
     image_to_string := fun data => Ok data |}.

Definition no_fault : str -> write_fault := fun _ => NoFault.

Definition now : datetime :=
  {| year := 2024; month := 3; day := 9; hour := 14; minute := 5; second := 7 |}.

Definition world : World :=
  {| dirs := {[u "/tmp"]}; files := ∅; requests := []; log := []; stdout := [] |}.

Definition page : Soup :=
  {| anchors := [u "/files/report.pdf"; u "about.html"; u "data.csv.zip"];
     images := [u "/img/logo.png"];
     get_text := Ok (u "Hello   world") |}.

(** The scraper [WebScraper(root, "/tmp", ...)] made at [now]. *)
Definition scraper (text links documents images : bool) : WebScraper :=
  let name := u "examplecompage_20240309_140507" in
  {| url := root;
     extract_text := text; extract_link := links;
     extract_documents := documents; extract_images := images;
     safe_folder_name := name;
     output_dir := u "/tmp/" ++ name;
     links_dir := u "/tmp/" ++ name ++ u "/links";
     docs_dir := u "/tmp/" ++ name ++ u "/documents";
     images_dir := u "/tmp/" ++ name ++ u "/images" |}.

End Demo.


Module DemoPages.

(** A page whose second anchor has a reference [urljoin] refuses. *)
Definition bracket : Soup :=
  {| anchors := [u "/files/report.pdf"; u "//["];
     images := [];
     get_text := Ok (u "") |}.

(** A page whose second document has a reference [urljoin] refuses;
    a third document follows it. *)
Definition broken_candidate : Soup :=
  {| anchors := [u "/files/report.pdf"; u "http://[::1/doc.pdf"; u "/files/b.pdf"];
     images := [];
     get_text := Ok (u "") |}.

(** The disk is full: the lines of [links.txt] stay in the buffer of
    the file object and the flush on leaving the [with] block raises. *)
Definition full_disk (path : str) : write_fault :=
  if bool_decide (path = u "/tmp/examplecompage_20240309_140507/links/links.txt")
  then CloseFails (OSError (u "No space left on device"))
  else NoFault.

(** The second [f.write] on [links.txt] raises. *)
Definition second_write (path : str) : write_fault :=
  if bool_decide (path = u "/tmp/examplecompage_20240309_140507/links/links.txt")
  then WriteFails 1 (OSError (u "Input/output error"))
  else NoFault.

(** A page whose anchor points above the documents directory. *)
Definition climbing : Soup :=
  {| anchors := [u "../../../etc/passwd.txt"];
     images := [u "../../../etc/passwd.txt"];
     get_text := Ok (u "") |}.

(** A pipeline with a limit on the length of the text, as
    [nlp.max_length] is one: a longer text is refused. *)
Definition bounded_nlp (max_length : nat) (s : str) : result (list Token) :=
  if (max_length <? length s)%nat
  then Raise (ValueError (u "[E088] Text exceeds maximum"))
  else Ok (Demo.tokenize s).

(** The environment of the example with the pipeline of at most five
    characters. *)
Definition short_texts : Env :=
  let E := Demo.env 200 Demo.page Demo.no_fault in
  {| lower := lower E; isalnum_unicode := isalnum_unicode E; repr := repr E;
     urlparse := urlparse E; urljoin := urljoin E; http_get := http_get E;
     html_parser := html_parser E;
     nlp := bounded_nlp 5;
     mkdir_fault := mkdir_fault E; write_plan := write_plan E;
     read_fault := read_fault E;
     chardet_encoding := chardet_encoding E; decode := decode E;
     pdf_pages := pdf_pages E; docx_paragraphs := docx_paragraphs E;
     csv_rows := csv_rows E; excel_rows := excel_rows E;
     image_to_string := image_to_string E |}.

End DemoPages.

(** ** [app.py]: the archive of the workspace

    [shutil.make_archive] and [tempfile.gettempdir] are taken as they
    are documented: the archive of [root_dir] is written to
    [base_name + ".zip"]. *)

Section App.

Variable tempdir : list N.                                     (* tempfile.gettempdir() *)
Variable zip_bytes : gmap (list N) (list N) -> list N -> list N. (* the bytes of the archive *)
Variable archive_fault : list N -> option exn.                 (* the archive cannot be written *)

(** [s[:-k]] for a positive [k] *)
Definition drop_last (k : nat) (s : list N) : list N :=
  take (length s - k) s.

(** [shutil.make_archive(base_name, 'zip', root_dir)] *)
Definition make_archive (base_name root_dir : list N) : M (list N) :=
  fun w =>
    let name := base_name ++ u ".zip" in
    match archive_fault name with
    | Some e => (Raise e, w)
    | None => (Ok name, set_files (<[name := zip_bytes (files w) root_dir]> (files w)) w)
    end.

Definition create_zip_file (directory : list N) : M (list N) :=
  let zip_filename := PosixPath.basename directory ++ u "_scraped_data.zip" in
  let zip_filepath := PosixPath.join tempdir zip_filename in
  (_ <- make_archive (drop_last 4 zip_filepath) directory ;;
   ret zip_filepath)%py.

End App.

(** The file whose first thousand characters [main] shows as the
    preview of the extracted text, if it exists. *)
Definition preview_file (self : WebScraper) : list N :=
  PosixPath.join (output_dir self) (u "text.txt").

(** ** Vocabulary of the statements *)

Definition is_digit (c : char) : bool := (48 <=? c) && (c <=? 57).

(** The range of the fields of a [datetime] ([MINYEAR] is 1, [MAXYEAR]
    is 9999; [datetime.now()] has no leap second). *)
Definition valid_datetime (now : datetime) : Prop :=
  (1 <= year now < 100 * 100)%nat /\ (1 <= month now <= 12)%nat /\
  (1 <= day now <= 31)%nat /\ (hour now < 24)%nat /\
  (minute now < 60)%nat /\ (second now < 60)%nat.

(** The characters a folder name may hold. *)
Definition folder_char (E : Env) (c : char) : Prop :=
  isalnum E c = true \/ c = ch "-" \/ c = ch "_".

(** Does writing one file with a single [f.write] raise under this fault? *)
Definition write_fails (f : write_fault) : bool :=
  match f with
  | NoFault => false
  | OpenFails _ => true
  | WriteFails O _ => true
  | WriteFails (S _) _ => false
  | CloseFails _ => true
  end.

(** An action that leaves the directories and the list of requests as
    they are, and the files outside [P] too. *)
Definition keeps {A} (P : list N -> Prop) (m : M A) : Prop :=
  forall w,
    dirs (snd (m w)) = dirs w /\
    requests (snd (m w)) = requests w /\
    forall p, ~ P p -> files (snd (m w)) !! p = files w !! p.

(** The empty set of paths. *)
Definition nowhere : list N -> Prop := fun _ => False.

(** An action that never raises. *)
Definition total {A} (m : M A) : Prop :=
  forall w, exists a w', m w = (Ok a, w').

(** The request [download_documents] and [download_images] make for an asset. *)
Definition asset_request (full_url : list N) : Request :=
  {| req_url := full_url; req_user_agent := None; req_timeout := 5 |}.

(** Where [download_documents] saves the asset of an anchor, and where
    the text extracted from it goes. *)
Definition document_path (self : WebScraper) (href : list N) : list N :=
  PosixPath.join (docs_dir self) (PosixPath.basename href).

Definition document_text_path (self : WebScraper) (href : list N) : list N :=
  PosixPath.join (docs_dir self)
    (fst (PosixPath.splitext (PosixPath.basename (document_path self href))) ++ u ".txt").

Definition image_path (self : WebScraper) (src : list N) : list N :=
  PosixPath.join (images_dir self) (PosixPath.basename src).

Definition image_text_path (self : WebScraper) (src : list N) : list N :=
  PosixPath.join (images_dir self)
    (fst (PosixPath.splitext (PosixPath.basename (image_path self src))) ++ u ".txt").

(** The fetch of the asset raises, or the write of its bytes does. *)
Definition fetch_or_save_fails (E : Env) (path full_url : list N) : bool :=
  match http_get E (asset_request full_url) with
  | Raise _ => true
  | Ok _ => write_fails (write_plan E path)
  end.

(** The same for an anchor of the page, resolved against [base]. *)
Definition document_fails (E : Env) (self : WebScraper) (base href : list N) : bool :=
  match urljoin E base href with
  | Raise _ => true
  | Ok full_url => fetch_or_save_fails E (document_path self href) full_url
  end.

(** The requests [download_documents] makes for the anchors [hrefs], in
    order: one for each anchor that passes the extension test. *)
Definition document_requests (E : Env) (base : list N) (hrefs : list (list N)) : list Request :=
  omap (fun href =>
          if is_document_href E href
          then match urljoin E base href with
               | Ok full_url => Some (asset_request full_url)
               | Raise _ => None
               end
          else None) hrefs.

(** N, the anchors that pass the extension test, and M, those of them
    whose fetch or save fails. *)
Definition candidates (E : Env) (hrefs : list (list N)) : nat :=
  length (List.filter (is_document_href E) hrefs).

Definition failures (E : Env) (self : WebScraper) (base : list N) (hrefs : list (list N)) : nat :=
  length (List.filter (fun href => is_document_href E href && document_fails E self base href) hrefs).

(** The extensions [extract_text_from_document] has a reader for. *)
Definition supported_extensions : list (list N) :=
  [u ".pdf"; u ".docx"; u ".doc"; u ".csv"; u ".xls"; u ".xlsx"; u ".txt"].

(** The directory of a mode, if the mode is on. *)
Definition mode_dir (on : bool) (d : list N) : gset (list N) :=
  if on then {[d]} else ∅.

(** C5 as it is worded: the directories made are exactly the locations
    of the enabled modes, the workspace root being that of Text mode. *)
Definition creates_exactly_the_enabled_locations : Prop :=
  forall E url base t l d i now w self w',
    __init__ E url base t l d i now w = (Ok self, w') ->
    (forall p, p ∈ PosixPath.parents (output_dir self) -> p ∈ dirs w) ->
    dirs w' = dirs w ∪ mode_dir l (links_dir self) ∪ mode_dir d (docs_dir self) ∪
              mode_dir i (images_dir self) ∪ mode_dir t (output_dir self).

(** The request [fetch_page_content] makes. *)
Definition root_request (self : WebScraper) : Request :=
  {| req_url := url self; req_user_agent := Some user_agent; req_timeout := 10 |}.

(** C2 as it is worded: the fetch of the root page fails when requests
    raises (host unreachable, timeout) or the status is not a 2xx one;
    then the run stops after the one request, without a summary. *)
Definition root_fetch_fails_as_worded (E : Env) (self : WebScraper) : Prop :=
  (exists msg, http_get E (root_request self) = Raise (RequestException msg)) \/
  (exists r, http_get E (root_request self) = Ok r /\
             ~ (200 <= status_code r < 300)%Z).

Definition aborts_on_every_root_failure : Prop :=
  forall E self w,
    root_fetch_fails_as_worded E self ->
    fst (scrape E self w) = Ok None /\
    requests (snd (scrape E self w)) = requests w ++ [root_request self].

(** The failures [fetch_page_content] does turn into [None]. *)
Definition root_fetch_fails (E : Env) (self : WebScraper) : Prop :=
  (exists msg, http_get E (root_request self) = Raise (RequestException msg)) \/
  (exists r, http_get E (root_request self) = Ok r /\
             (400 <= status_code r < 600)%Z).

(** The texts of the tokens [clean_text] keeps, when the tokenizer
    returns. *)
Definition words (E : Env) (text : list N) : result (list (list N)) :=
  match nlp E text with
  | Raise e => Raise e
  | Ok doc => Ok (token_texts doc)
  end.

(** [clean_text(clean_text(x))] *)
Definition clean_text_twice (E : Env) (x : list N) : result (list N) :=
  match clean_text E x with
  | Raise e => Raise e
  | Ok y => clean_text E y
  end.

(** C3 as it is worded: idempotent on every text that has no tag left
    after the tag-stripping pass. *)
Definition idempotent_after_tag_stripping (E : Env) : Prop :=
  forall x : list N,
    Re.has_tag (Re.sub_tags x) = false -> clean_text_twice E x = clean_text E x.

(** The characters of a text outside white space, [isspace] telling
    which characters are white space. *)
Definition outside_space (isspace : N -> bool) (text : list N) : list N :=
  List.filter (fun c => negb (isspace c)) text.

(** A tokenizer that loses nothing: the tokens that are not space
    tokens are not empty and, one after the other, they are the text
    without its white space.  (spaCy keeps the text of every token and
    the white space after it, so that the text can be put together
    again from the tokens.) *)
Definition non_destructive (E : Env) (isspace : N -> bool) : Prop :=
  forall text doc,
    nlp E text = Ok doc ->
    concat (token_texts doc) = outside_space isspace text /\
    Forall (fun t => t <> []) (token_texts doc).

(** The white-space tokenizer returns words: not empty, no white space. *)
Definition is_word (t : list N) : Prop :=
  t <> [] /\ Forall (fun c => Demo.is_whitespace c = false) t.

(** Where [save_links] writes. *)
Definition links_file (self : WebScraper) : list N :=
  PosixPath.join (links_dir self) (u "links.txt").

(** The exception the writing of [n] lines meets under a fault, if any. *)
Definition links_write_fault (f : write_fault) (n : nat) : option exn :=
  match f with
  | NoFault => None
  | OpenFails e => Some e
  | WriteFails j e => if (j <? n)%nat then Some e else None
  | CloseFails e => Some e
  end.

(** The value of the counter [saved_link] when [save_links] returns. *)
Definition links_saved_count (f : write_fault) (n : nat) : nat :=
  match f with
  | OpenFails _ => 0
  | WriteFails j _ => Nat.min j n
  | NoFault | CloseFails _ => n
  end.

(** C7 as it is worded: a failed write of [links.txt] gives the count zero. *)
Definition failed_links_write_counts_zero : Prop :=
  forall E self links w e,
    extract_link self = true ->
    links_write_fault (write_plan E (links_file self)) (length links) = Some e ->
    fst (save_links E self links w) = Ok 0%nat.

(** The entry of a mode in the summary, if the mode is on. *)
Definition mode_entry (on : bool) (label : list N) (n : nat) : list (option (list N)) :=
  if on then [Some (label ++ of_nat n)] else [].

(** An action that only adds records to the log. *)
Definition appends_log {A} (m : M A) : Prop :=
  forall w, exists l, log (snd (m w)) = log w ++ l.

(** ** Further vocabulary *)

(** Beside which file the text extracted from [filepath] is written,
    in the directory [dir] of the mode. *)
Definition text_path_of (dir filepath : list N) : list N :=
  PosixPath.join dir
    (fst (PosixPath.splitext (PosixPath.basename filepath)) ++ u ".txt").

(** The world after one more line is printed. *)
Definition printed (line : list N) (w : World) : World :=
  {| dirs := dirs w; files := files w; requests := requests w; log := log w;
     stdout := stdout w ++ [line] |}.

(** An action that leaves the directories as they are, and the files
    outside [P] too. *)
Definition touches {A} (P : list N -> Prop) (m : M A) : Prop :=
  forall w,
    dirs (snd (m w)) = dirs w /\
    forall p, ~ P p -> files (snd (m w)) !! p = files w !! p.

(** What [save_links] writes for the links, in order. *)
Definition links_text (links : list (list N)) : list N :=
  concat ((fun link => link ++ [Re.newline]) <$> links).

(** The fetch or the save of the image of [src], resolved against
    [base], fails. *)
Definition image_fails (E : Env) (self : WebScraper) (base src : list N) : bool :=
  match urljoin E base src with
  | Raise _ => true
  | Ok full_url => fetch_or_save_fails E (image_path self src) full_url
  end.

(** The requests [download_images] makes for the sources [srcs]: one for
    each, in order. *)
Definition image_requests (E : Env) (base : list N) (srcs : list (list N)) : list Request :=
  omap (fun src =>
          match urljoin E base src with
          | Ok full_url => Some (asset_request full_url)
          | Raise _ => None
          end) srcs.

(** Where [save_webpage_text] writes. *)
Definition webpage_text_file (self : WebScraper) : list N :=
  PosixPath.join (output_dir self) (u "webpage_text.txt").

(** The number of modes that are on. *)
Definition enabled_modes (self : WebScraper) : nat :=
  (if extract_link self then 1 else 0) + (if extract_documents self then 1 else 0) +
  (if extract_images self then 1 else 0) + (if extract_text self then 1 else 0).

(** The number a string of decimal digits writes. *)
Definition digits_to_nat (s : list N) : nat :=
  foldl (fun acc c => (10 * acc + N.to_nat (c - 48))%nat) 0%nat s.

(** The paths a run can write to: the two files with fixed names, and
    for any name the asset of that name and the text beside it. *)
Definition written (self : WebScraper) (p : list N) : Prop :=
  p = links_file self \/ p = webpage_text_file self \/
  exists name, p = document_path self name \/ p = document_text_path self name \/
               p = image_path self name \/ p = image_text_path self name.

(** * Properties *)

(** ** The library functions on the values Python gives *)

Example basename_query : PosixPath.basename (u "/files/a.pdf?x=1") = u "a.pdf?x=1".
Proof. reflexivity. Qed.

Example splitext_upper :
  PosixPath.splitext (u "/tmp/d/doc.PDF") = (u "/tmp/d/doc", u ".PDF").
Proof. reflexivity. Qed.

Example splitext_leading_dots : PosixPath.splitext (u "dir.x/...a") = (u "dir.x/...a", []).
Proof. reflexivity. Qed.

Example splitext_trailing_dot : PosixPath.splitext (u "a.") = (u "a", u ".").
Proof. reflexivity. Qed.

Example splitext_query : PosixPath.splitext (u "a.pdf?x=1") = (u "a", u ".pdf?x=1").
Proof. reflexivity. Qed.

Example join_relative_ex : PosixPath.join (u "/tmp/x") (u "links") = u "/tmp/x/links".
Proof. reflexivity. Qed.

Example join_absolute_ex : PosixPath.join (u "a") (u "/b") = u "/b".
Proof. reflexivity. Qed.

Example replace_twice :
  replace (u "http://") [] (replace (u "https://") [] (u "hhttp://ttps://x")) = u "https://x".
Proof. reflexivity. Qed.

Example sub_tags_nested : Re.sub_tags (u "<<b>>c") = u ">c".
Proof. reflexivity. Qed.

Example sub_tags_lines :
  Re.sub_tags (u "a<b" ++ [Re.newline] ++ u "<c>d>e") = u "a<b" ++ [Re.newline] ++ u "d>e".
Proof. reflexivity. Qed.

Example parents_of_links : PosixPath.parents (u "/tmp/x/links") = [u "/tmp"; u "/tmp/x"].
Proof. reflexivity. Qed.

Example folder_name_of_root :
  _create_safe_folder_name (Demo.env 200 Demo.page Demo.no_fault) Demo.root Demo.now =
  u "examplecompage_20240309_140507".
Proof. reflexivity. Qed.

(** A whole run on the page of the example. *)
Example scrape_example :
  let E := Demo.env 200 Demo.page Demo.no_fault in
  fst (scrape E (Demo.scraper true true true true) Demo.world) =
  Ok (Some [Some (u "Link Extracted: 3"); Some (u "Document Downloaded: 2");
            Some (u "Images Downloaded: 1"); Some (u "Text extracted.")]).
Proof. vm_compute. reflexivity. Qed.



(** ** Strings *)

Section StringFacts.

Implicit Types (s t old needle hay : list N) (c : N).

Lemma startswith_app needle hay : startswith needle (needle ++ hay) = true.
Proof.
  induction needle as [|a needle IH]; simpl; [done|].
  by rewrite N.eqb_refl, IH.
Qed.

Lemma startswith_spec needle hay :
  startswith needle hay = true <-> exists post, hay = needle ++ post.
Proof.
  revert hay. induction needle as [|a needle IH]; intros hay; simpl.
  - split; [intros _; by exists hay | done].
  - destruct hay as [|b hay]; simpl.
    + split; [done | intros [post Hp]; discriminate].
    + rewrite andb_true_iff, N.eqb_eq, IH. split.
      * intros [-> [post ->]]. by exists post.
      * intros [post Hp]. injection Hp as -> ->. split; [done | by exists post].
Qed.

(** [needle in hay] holds exactly when [needle] occurs in [hay]. *)
Lemma contains_spec needle hay :
  contains needle hay = true <-> exists pre post, hay = pre ++ needle ++ post.
Proof.
  induction hay as [|b hay IH]; simpl.
  - rewrite orb_false_r, startswith_spec. split.
    + intros [post Hp]. by exists [], post.
    + intros (pre & post & Hp). destruct pre; simpl in Hp; [by exists post | done].
  - rewrite orb_true_iff, startswith_spec, IH. split.
    + intros [[post Hp] | (pre & post & ->)].
      * by exists [], post.
      * by exists (b :: pre), post.
    + intros (pre & post & Hp). destruct pre as [|x pre]; simpl in Hp.
      * left. by exists post.
      * right. injection Hp as -> ->. by exists pre, post.
Qed.

Lemma replace_from_skip old new s t :
  replace_from old new (length s) (s ++ t) = replace_from old new 0 t.
Proof.
  induction s as [|c s IH]; simpl; [|done].
  by destruct t.
Qed.

(** An occurrence at the very start is replaced and the scan goes on
    behind it. *)
Lemma replace_prefix old new s :
  old <> [] -> replace old new (old ++ s) = new ++ replace old new s.
Proof.
  destruct old as [|a old]; [done | intros _].
  unfold replace. change ((a :: old) ++ s) with (a :: (old ++ s)).
  cbn [replace_from].
  change (a :: old ++ s) with ((a :: old) ++ s).
  rewrite startswith_app.
  replace (length (a :: old) - 1)%nat with (length old) by (simpl; lia).
  by rewrite replace_from_skip.
Qed.

Lemma of_uint_digits (d : Decimal.uint) :
  Forall (fun c => is_digit c = true) (u (NilEmpty.string_of_uint d)).
Proof.
  induction d; simpl; try (constructor; [done | assumption]). constructor.
Qed.

Lemma of_nat_digits (n : nat) : Forall (fun c => is_digit c = true) (of_nat n).
Proof. apply of_uint_digits. Qed.

End StringFacts.

(** ** Paths *)

Section PathFacts.

Import PosixPath.
Local Coercion Z.of_nat : nat >-> Z.
Implicit Types (p d b seen : list N) (c : N).

Lemma rfind_from_app c i found d b :
  rfind_from c i found (d ++ b) =
  rfind_from c (i + length d) (rfind_from c i found d) b.
Proof.
  revert i found. induction d as [|x d IH]; intros i found; simpl.
  - by rewrite Z.add_0_r.
  - rewrite IH. f_equal. lia.
Qed.

Lemma rfind_from_notin c i found b : c ∉ b -> rfind_from c i found b = found.
Proof.
  revert i found. induction b as [|x b IH]; intros i found Hc; simpl; [done|].
  apply not_elem_of_cons in Hc as [Hx Hb]. rewrite IH by done.
  destruct (N.eqb_spec x c); congruence.
Qed.

Lemma rfind_from_in c i found b :
  c ∈ b -> rfind_from c i found b = (i + rfind c b)%Z.
Proof.
  unfold rfind. revert i found. induction b as [|x b IH]; intros i found Hc.
  - by apply elem_of_nil in Hc.
  - simpl. destruct (decide (c ∈ b)) as [Hb|Hb].
    + rewrite (IH (i + 1)%Z), (IH 1%Z) by done. lia.
    + rewrite !rfind_from_notin by done.
      apply elem_of_cons in Hc as [-> | Hc]; [|done].
      rewrite N.eqb_refl. lia.
Qed.

Lemma rfind_notin c b : c ∉ b -> rfind c b = (-1)%Z.
Proof. apply rfind_from_notin. Qed.

Lemma rfind_app c d b :
  rfind c (d ++ b) = if decide (c ∈ b) then (length d + rfind c b)%Z else rfind c d.
Proof.
  unfold rfind at 1. rewrite rfind_from_app. destruct (decide (c ∈ b)) as [Hb|Hb].
  - rewrite rfind_from_in by done. lia.
  - by rewrite rfind_from_notin.
Qed.

(** The index [rfind] returns is that of an occurrence with none behind it. *)
Lemma rfind_in c b :
  c ∈ b ->
  exists pre post, b = pre ++ c :: post /\ (c ∉ post) /\ rfind c b = Z.of_nat (length pre).
Proof.
  induction b as [|x b IH]; intros Hc; [by apply elem_of_nil in Hc|].
  destruct (decide (c ∈ b)) as [Hb|Hb].
  - destruct (IH Hb) as (pre & post & -> & Hpost & Hr).
    exists (x :: pre), post. split; [done|]. split; [done|].
    change (x :: pre ++ c :: post) with ([x] ++ (pre ++ c :: post)).
    rewrite rfind_app, decide_True by done. rewrite Hr. simpl. lia.
  - apply elem_of_cons in Hc as [-> | Hc]; [|done].
    exists [], b. split; [done|]. split; [done|].
    unfold rfind. simpl. rewrite N.eqb_refl. by rewrite rfind_from_notin.
Qed.

Lemma startswith_sep_notin b : sep ∉ b -> startswith [sep] b = false.
Proof.
  destruct b as [|x b]; [done|]. intros Hb. cbn [startswith].
  apply not_elem_of_cons in Hb as [Hx _].
  destruct (N.eqb_spec sep x); [congruence | done].
Qed.

Lemma basename_no_sep p : sep ∉ basename p.
Proof.
  unfold basename. destruct (decide (sep ∈ p)) as [Hp|Hp].
  - destruct (rfind_in sep p Hp) as (pre & post & -> & Hpost & ->).
    replace (Z.to_nat (length pre + 1)) with (length (pre ++ [sep])).
    + by rewrite (app_assoc pre [sep] post : pre ++ sep :: post = (pre ++ [sep]) ++ post),
        drop_app_length.
    + rewrite length_app. simpl. lia.
  - by rewrite rfind_notin.
Qed.

(** [join d b] puts [b], when it has no separator, behind a prefix
    that is empty or ends with one. *)
Lemma join_relative d b :
  sep ∉ b ->
  exists d', join d b = d' ++ b /\ (d' = [] \/ exists d'', d' = d'' ++ [sep]).
Proof.
  intros Hb. unfold join.
  rewrite startswith_sep_notin by done.
  destruct (last d) as [c|] eqn:Hlast.
  - destruct (N.eqb_spec c sep) as [->|Hc].
    + exists d. split; [done|]. right.
      apply last_Some in Hlast as [d'' ->]. by exists d''.
    + exists (d ++ [sep]). split; [by rewrite <- app_assoc|]. right. by exists d.
  - exists []. split; [done | by left].
Qed.

Lemma splitext_relative d' b :
  sep ∉ b -> d' = [] \/ (exists d'', d' = d'' ++ [sep]) ->
  splitext (d' ++ b) = (d' ++ fst (splitext b), snd (splitext b)).
Proof.
  intros Hb Hd. unfold splitext.
  assert (rfind sep (d' ++ b) = length d' - 1)%Z as ->.
  { rewrite rfind_app, decide_False by done.
    destruct Hd as [-> | [d'' ->]]; [done|].
    rewrite rfind_app, decide_True by (by left). rewrite length_app. simpl.
    unfold rfind at 1. simpl. lia. }
  rewrite (rfind_notin sep b) by done. rewrite (rfind_app extsep).
  destruct (decide (extsep ∈ b)) as [Hdot|Hdot].
  - destruct (rfind_in extsep b Hdot) as (pre & post & Hb' & Hpost & Hr).
    rewrite Hr.
    replace (length d' - 1 <? length d' + length pre)%Z with true
      by (symmetry; apply Z.ltb_lt; lia).
    replace (-1 <? length pre)%Z with true by (symmetry; apply Z.ltb_lt; lia).
    assert (slice (length d' - 1 + 1) (length d' + length pre) (d' ++ b) =
            slice (-1 + 1) (length pre) b) as ->.
    { unfold slice.
      replace (Z.to_nat (length d' - 1 + 1)) with (length d') by lia.
      replace (Z.to_nat (length d' + length pre) - length d')%nat
        with (length pre) by lia.
      rewrite drop_app_length. simpl. f_equal. lia. }
    replace (Z.to_nat (length d' + length pre)) with (length d' + length pre)%nat by lia.
    rewrite take_app_add', drop_app_add' by done.
    rewrite Nat2Z.id. by destruct (existsb _ _).
  - rewrite (rfind_notin extsep b) by done. simpl.
    assert ((length d' - 1 <? rfind extsep d')%Z = false) as ->; [|done].
    apply Z.ltb_ge. destruct Hd as [-> | [d'' ->]]; [done|].
    rewrite rfind_app, decide_False.
    + rewrite length_app. simpl.
      destruct (decide (extsep ∈ d'')) as [Hin|Hin].
      * destruct (rfind_in extsep d'' Hin) as (pre & post & -> & _ & ->).
        rewrite length_app. simpl. lia.
      * rewrite rfind_notin by done. lia.
    + intros Hin. apply list_elem_of_singleton in Hin. discriminate.
Qed.

(** The extension [extract_text_from_document] looks at is that of the
    base name of the reference. *)
Lemma splitext_join_basename d href :
  snd (splitext (join d (basename href))) = snd (splitext (basename href)).
Proof.
  destruct (join_relative d (basename href) (basename_no_sep href)) as (d' & -> & Hd').
  by rewrite splitext_relative by (done || apply basename_no_sep).
Qed.

Lemma parents_from_app seen p q :
  parents_from seen (p ++ q) = parents_from seen p ++ parents_from (seen ++ p) q.
Proof.
  revert seen. induction p as [|c p IH]; intros seen; simpl.
  - by rewrite app_nil_r.
  - by rewrite IH, <- !app_assoc.
Qed.

Lemma parents_from_no_sep seen q : sep ∉ q -> parents_from seen q = [].
Proof.
  revert seen. induction q as [|c q IH]; intros seen Hq; simpl; [done|].
  apply not_elem_of_cons in Hq as [Hc Hq]. rewrite IH by done.
  destruct (N.eqb_spec c sep); [congruence | done].
Qed.

(** The directories above [o/name] are those above [o], and [o]. *)
Lemma parents_join o name c :
  last o = Some c -> c <> sep -> sep ∉ name ->
  join o name = o ++ sep :: name /\
  parents (join o name) = parents o ++ [o].
Proof.
  intros Hlast Hc Hname.
  assert (join o name = o ++ sep :: name) as Hjoin.
  { unfold join. rewrite Hlast.
    rewrite startswith_sep_notin by done.
    destruct (N.eqb_spec c sep); [congruence | done]. }
  split; [done|]. rewrite Hjoin. unfold parents.
  rewrite parents_from_app. f_equal. cbn [parents_from app].
  rewrite N.eqb_refl, parents_from_no_sep by done.
  destruct o; [discriminate |]. rewrite bool_decide_eq_false_2 by done. done.
Qed.

End PathFacts.

(** ** The folder name *)

Section FolderName.

Context (E : Env).

Lemma digit_isalnum c : is_digit c = true -> isalnum E c = true.
Proof.
  unfold is_digit, isalnum, ascii_isalnum. intros H.
  apply andb_true_iff in H as [H1 H2]. apply N.leb_le in H1, H2.
  replace (c <? 128) with true by (symmetry; apply N.ltb_lt; lia).
  by rewrite (proj2 (N.leb_le 48 c) H1), (proj2 (N.leb_le c 57) H2).
Qed.

Lemma safe_char_folder_char c : safe_char E c = true -> folder_char E c.
Proof.
  unfold safe_char, folder_char. intros H.
  apply orb_true_iff in H as [H | H]; [by left | right].
  apply bool_decide_eq_true in H.
  apply elem_of_cons in H as [-> | H]; [by left | right].
  by apply list_elem_of_singleton in H.
Qed.

Lemma zfill_digits width n :
  Forall (fun c => is_digit c = true) (zfill width (of_nat n)).
Proof.
  unfold zfill. apply Forall_app. split; [|apply of_nat_digits].
  by apply Forall_replicate.
Qed.

Lemma zfill2_length n : (n < 100)%nat -> length (zfill 2 (of_nat n)) = 2%nat.
Proof.
  intros Hn.
  assert (forallb (fun n => length (zfill 2 (of_nat n)) =? 2)%nat (seq 0 100) = true)
    as Hall by (vm_compute; reflexivity).
  rewrite forallb_forall in Hall.
  apply Nat.eqb_eq, Hall, in_seq. lia.
Qed.

Lemma zfill4_length n : (n < 100 * 100)%nat -> length (zfill 4 (of_nat n)) = 4%nat.
Proof.
  intros Hn.
  assert (forallb (fun n => length (zfill 4 (of_nat n)) =? 4)%nat (seq 0 (100 * 100)) = true)
    as Hall by (vm_compute; reflexivity).
  rewrite forallb_forall in Hall.
  apply Nat.eqb_eq, Hall, in_seq. lia.
Qed.

(** No occurrence of [https://] starts inside a leading [http://]. *)
Lemma replace_https_behind_http rest :
  replace (u "https://") [] (u "http://" ++ rest) =
  u "http://" ++ replace (u "https://") [] rest.
Proof. reflexivity. Qed.

Lemma strip_https rest :
  replace (u "http://") [] (replace (u "https://") [] (u "https://" ++ rest)) =
  replace (u "http://") [] (replace (u "https://") [] rest).
Proof. by rewrite (replace_prefix (u "https://")). Qed.

Lemma strip_http rest :
  replace (u "http://") [] (replace (u "https://") [] (u "http://" ++ rest)) =
  replace (u "http://") [] (replace (u "https://") [] rest).
Proof.
  rewrite replace_https_behind_http. by rewrite (replace_prefix (u "http://")).
Qed.

Lemma create_safe_folder_name_chars (url : list N) (now : datetime) :
  Forall (folder_char E) (_create_safe_folder_name E url now).
Proof.
  assert (forall l : list N, Forall (fun c => is_digit c = true) l ->
                             Forall (folder_char E) l) as Hdigits.
  { intros l Hl. eapply Forall_impl; [exact Hl|].
    intros c Hc. left. by apply digit_isalnum. }
  assert (Forall (folder_char E) (u "_")) as Hsep
    by (repeat constructor; right; right; reflexivity).
  unfold _create_safe_folder_name, strftime.
  rewrite !Forall_app.
  repeat split; try (apply Hdigits, zfill_digits); try assumption.
  apply Forall_take, Forall_forall. intros c Hc.
  apply list_elem_of_In, filter_In in Hc as [_ Hc].
  by apply safe_char_folder_char.
Qed.

Lemma zfill2_read n : (n < 100)%nat -> digits_to_nat (zfill 2 (of_nat n)) = n.
Proof.
  intros Hn.
  assert (forallb (fun n => digits_to_nat (zfill 2 (of_nat n)) =? n)%nat (seq 0 100) = true)
    as Hall by (vm_compute; reflexivity).
  rewrite forallb_forall in Hall. apply Nat.eqb_eq, Hall, in_seq. lia.
Qed.

Lemma zfill4_read n : (n < 100 * 100)%nat -> digits_to_nat (zfill 4 (of_nat n)) = n.
Proof.
  intros Hn.
  assert (forallb (fun n => digits_to_nat (zfill 4 (of_nat n)) =? n)%nat
            (seq 0 (100 * 100)) = true)
    as Hall by (vm_compute; reflexivity).
  rewrite forallb_forall in Hall. apply Nat.eqb_eq, Hall, in_seq. lia.
Qed.

Lemma digits_to_nat_from (acc : nat) (s : list N) :
  foldl (fun acc c => (10 * acc + N.to_nat (c - 48))%nat) acc s =
  (acc * 10 ^ length s + digits_to_nat s)%nat.
Proof.
  unfold digits_to_nat. revert acc. induction s as [|c s IH]; intros acc.
  - simpl. lia.
  - cbn [foldl length]. rewrite IH, (IH (10 * 0 + N.to_nat (c - 48))%nat).
    rewrite Nat.pow_succ_r'. lia.
Qed.

(** Reading two strings of digits written one after the other. *)
Lemma digits_to_nat_app (a b : list N) :
  digits_to_nat (a ++ b) = (digits_to_nat a * 10 ^ length b + digits_to_nat b)%nat.
Proof. unfold digits_to_nat at 1. rewrite foldl_app. apply digits_to_nat_from. Qed.


End FolderName.


(** ** Effects of the primitives *)

Section Frames.

Context (E : Env).

Lemma keeps_ret {A} P (a : A) : keeps P (ret a).
Proof. intros w. by simpl. Qed.

Lemma keeps_lift {A} P (r : result A) : keeps P (lift r).
Proof. intros w. by simpl. Qed.

Lemma keeps_bind {A B} P (m : M A) (k : A -> M B) :
  keeps P m -> (forall a, keeps P (k a)) -> keeps P (bind m k).
Proof.
  intros Hm Hk w. unfold bind.
  specialize (Hm w). destruct (m w) as [[a|e] w1]; simpl in *; [|done].
  destruct (Hk a w1) as (Hd & Hr & Hf). destruct Hm as (Hd' & Hr' & Hf').
  split; [congruence|]. split; [congruence|].
  intros p Hp. by rewrite Hf, Hf'.
Qed.

Lemma keeps_try_except {A} P (body : M A) (handler : exn -> M A) :
  keeps P body -> (forall e, keeps P (handler e)) -> keeps P (try_except body handler).
Proof.
  intros Hm Hk w. unfold try_except.
  specialize (Hm w). destruct (body w) as [[a|e] w1]; simpl in *; [done|].
  destruct (Hk e w1) as (Hd & Hr & Hf). destruct Hm as (Hd' & Hr' & Hf').
  split; [congruence|]. split; [congruence|].
  intros p Hp. by rewrite Hf, Hf'.
Qed.

Lemma keeps_weaken {A} (P Q : list N -> Prop) (m : M A) :
  (forall p, P p -> Q p) -> keeps P m -> keeps Q m.
Proof.
  intros HPQ Hm w. destruct (Hm w) as (Hd & Hr & Hf).
  repeat split; [done..|]. intros p Hp. apply Hf. auto.
Qed.

Lemma keeps_logger P l msg : keeps P (logger l msg).
Proof. intros w. by simpl. Qed.

Lemma keeps_print P msg : keeps P (print msg).
Proof. intros w. by simpl. Qed.

Lemma keeps_read_file P path : keeps P (read_file E path).
Proof.
  intros w. unfold read_file.
  destruct (files w !! path); [done|]. by destruct (read_fault E path).
Qed.

Lemma keeps_peek P path : keeps P (peek path).
Proof. intros w. by simpl. Qed.

Lemma keeps_fopen path : keeps (eq path) (fopen E path).
Proof.
  intros w. unfold fopen.
  destruct (write_plan E path); simpl; repeat split; try done;
    intros p Hp; by rewrite lookup_insert_ne.
Qed.

Lemma keeps_fwrite path k data : keeps (eq path) (fwrite E path k data).
Proof.
  intros w. unfold fwrite.
  destruct (write_plan E path) as [| |j e|]; try destruct (j =? k)%nat;
    simpl; repeat split; try done; intros p Hp; by rewrite lookup_insert_ne.
Qed.

Lemma keeps_fclose P path : keeps P (fclose E path).
Proof. intros w. unfold fclose. by destruct (write_plan E path). Qed.

Lemma keeps_write_file path data : keeps (eq path) (write_file E path data).
Proof.
  unfold write_file.
  apply keeps_bind; [apply keeps_fopen | intros _].
  apply keeps_bind; [apply keeps_fwrite | intros _]. apply keeps_fclose.
Qed.

(** Writing a file in one piece either raises or leaves the file with
    exactly the data. *)
Lemma write_file_ok path data w :
  write_fails (write_plan E path) = false ->
  write_file E path data w = (Ok tt, set_files (<[path := data]> (files w)) w).
Proof.
  intros Hplan. unfold write_file, bind, fopen, fwrite, fclose, append_file.
  destruct (write_plan E path) as [| |[|j] e|]; try discriminate; simpl;
    by rewrite lookup_insert_eq, insert_insert_eq.
Qed.

Lemma write_file_fails path data w :
  write_fails (write_plan E path) = true ->
  exists e w', write_file E path data w = (Raise e, w').
Proof.
  intros Hplan. unfold write_file, bind, fopen, fwrite, fclose.
  destruct (write_plan E path) as [| |[|j] e|]; try discriminate; simpl; eauto.
Qed.

Lemma total_ret {A} (a : A) : total (ret a).
Proof. intros w. by eexists _, _. Qed.

Lemma total_bind {A B} (m : M A) (k : A -> M B) :
  total m -> (forall a, total (k a)) -> total (bind m k).
Proof.
  intros Hm Hk w. unfold bind. destruct (Hm w) as (a & w1 & ->). apply Hk.
Qed.

Lemma total_try_except {A} (body : M A) (handler : exn -> M A) :
  (forall e, total (handler e)) -> total (try_except body handler).
Proof.
  intros Hk w. unfold try_except.
  destruct (body w) as [[a|e] w1]; [by eexists _, _ | apply Hk].
Qed.

Lemma total_logger l msg : total (logger l msg).
Proof. intros w. by eexists _, _. Qed.

Lemma total_print msg : total (print msg).
Proof. intros w. by eexists _, _. Qed.

End Frames.

Create HintDb py.
#[local] Hint Resolve keeps_ret keeps_lift keeps_logger keeps_print keeps_read_file keeps_peek
  keeps_fclose total_ret total_logger total_print : py.

(** ** The log only grows *)

Section Log.

Context (E : Env).

Lemma appends_ret {A} (a : A) : appends_log (ret a).
Proof. intros w. exists []. by rewrite app_nil_r. Qed.

Lemma appends_lift {A} (r : result A) : appends_log (lift r).
Proof. intros w. exists []. by rewrite app_nil_r. Qed.

Lemma appends_logger l msg : appends_log (logger l msg).
Proof. intros w. by exists [(l, msg)]. Qed.

Lemma appends_print msg : appends_log (print msg).
Proof. intros w. exists []. by rewrite app_nil_r. Qed.

Lemma appends_record_request r : appends_log (record_request r).
Proof. intros w. exists []. by rewrite app_nil_r. Qed.

Lemma appends_read_file path : appends_log (read_file E path).
Proof.
  intros w. exists []. unfold read_file.
  destruct (files w !! path); [by rewrite app_nil_r|].
  destruct (read_fault E path); by rewrite app_nil_r.
Qed.

Lemma appends_peek path : appends_log (peek path).
Proof. intros w. exists []. by rewrite app_nil_r. Qed.

Lemma appends_bind {A B} (m : M A) (k : A -> M B) :
  appends_log m -> (forall a, appends_log (k a)) -> appends_log (bind m k).
Proof.
  intros Hm Hk w. unfold bind. destruct (Hm w) as [l Hl].
  destruct (m w) as [[a|e] w1]; simpl in *; [|by exists l].
  destruct (Hk a w1) as [l' Hl']. exists (l ++ l'). by rewrite Hl', Hl, app_assoc.
Qed.

Lemma appends_try_except {A} (body : M A) (handler : exn -> M A) :
  appends_log body -> (forall e, appends_log (handler e)) ->
  appends_log (try_except body handler).
Proof.
  intros Hm Hk w. unfold try_except. destruct (Hm w) as [l Hl].
  destruct (body w) as [[a|e] w1]; simpl in *; [by exists l|].
  destruct (Hk e w1) as [l' Hl']. exists (l ++ l'). by rewrite Hl', Hl, app_assoc.
Qed.

Lemma appends_write_file path data : appends_log (write_file E path data).
Proof.
  intros w. exists []. rewrite app_nil_r.
  unfold write_file, bind, fopen, fwrite, fclose.
  by destruct (write_plan E path) as [| |[|j] e|].
Qed.

End Log.

#[local] Hint Resolve appends_ret appends_lift appends_logger appends_print
  appends_record_request appends_read_file appends_peek appends_write_file : py.

(** Goes through a method made of the primitives. *)
Ltac appends :=
  repeat first
    [ match goal with |- forall _, _ => intro end
    | solve [auto with py]
    | apply appends_bind
    | apply appends_try_except
    | match goal with
      | |- appends_log (if ?b then _ else _) => destruct b
      | |- appends_log (match ?x with _ => _ end) => destruct x
      end ].

Section LogMethods.

Context (E : Env).

Lemma appends_document_reader file_ext filepath read :
  document_reader E file_ext filepath = Some read -> appends_log read.
Proof.
  unfold document_reader. intros H.
  repeat match type of H with
         | (if ?b then _ else _) = _ => destruct b
         end; try discriminate; injection H as <-;
    unfold extract_pdf_text, extract_docx_text, extract_csv_text,
      extract_excel_text, extract_plain_text, detect_encoding; appends.
Qed.

Lemma appends_extract_text_from_document self filepath :
  appends_log (extract_text_from_document E self filepath).
Proof.
  unfold extract_text_from_document.
  destruct (extract_documents self); simpl; [|appends].
  apply appends_try_except; [|appends].
  destruct (document_reader _ _ _) as [read|] eqn:Hread; [|appends].
  apply appends_bind; [by eapply appends_document_reader | appends].
Qed.

Lemma appends_extract_text_from_image self filepath :
  appends_log (extract_text_from_image E self filepath).
Proof. unfold extract_text_from_image. appends. Qed.

Lemma appends_download_document self href full_url n w :
  exists l, log (snd (download_document E self href full_url n w)) = log w ++ l.
Proof.
  unfold download_document, requests_get, bind, record_request, lift.
  destruct (http_get E _) as [r|e]; [|by eexists].
  match goal with |- context [write_file E ?p ?d ?w1] =>
    destruct (appends_write_file E p d w1) as [l1 Hl1];
    destruct (write_file E p d w1) as [[[]|e] w2] end; simpl in *.
  - destruct (appends_extract_text_from_document self
                (PosixPath.join (docs_dir self) (PosixPath.basename href)) w2) as [l2 Hl2].
    destruct (extract_text_from_document E self _ w2) as [[[]|e] w3]; simpl in *;
      rewrite ?Hl2, Hl1, <- ?app_assoc; by eexists.
  - rewrite Hl1, <- app_assoc. by eexists.
Qed.

Lemma appends_download_image self src full_url n w :
  exists l, log (snd (download_image E self src full_url n w)) = log w ++ l.
Proof.
  unfold download_image, requests_get, bind, record_request, lift.
  destruct (http_get E _) as [r|e]; [|by eexists].
  match goal with |- context [write_file E ?p ?d ?w1] =>
    destruct (appends_write_file E p d w1) as [l1 Hl1];
    destruct (write_file E p d w1) as [[[]|e] w2] end; simpl in *.
  - destruct (appends_extract_text_from_image self
                (PosixPath.join (images_dir self) (PosixPath.basename src)) w2) as [l2 Hl2].
    destruct (extract_text_from_image E self _ w2) as [[[]|e] w3]; simpl in *;
      rewrite ?Hl2, Hl1, <- ?app_assoc; by eexists.
  - rewrite Hl1, <- app_assoc. by eexists.
Qed.

Lemma appends_download_documents_loop self base hrefs n :
  appends_log (download_documents_loop E self base hrefs n).
Proof.
  revert n. induction hrefs as [|href rest IH]; intros n; [apply appends_ret|].
  cbn [download_documents_loop]. apply appends_bind; [appends|]. intros full_url.
  destruct (is_document_href E href); [|apply IH].
  intros w. destruct (appends_download_document self href full_url n w) as [l Hl].
  destruct (download_document E self href full_url n w) as [n1 w1]. simpl in Hl.
  destruct (IH n1 w1) as [l' Hl']. exists (l ++ l'). by rewrite Hl', Hl, app_assoc.
Qed.

Lemma appends_download_images_loop self base srcs n :
  appends_log (download_images_loop E self base srcs n).
Proof.
  revert n. induction srcs as [|src rest IH]; intros n; [apply appends_ret|].
  cbn [download_images_loop]. apply appends_bind; [appends|]. intros full_url.
  intros w. destruct (appends_download_image self src full_url n w) as [l Hl].
  destruct (download_image E self src full_url n w) as [n1 w1]. simpl in Hl.
  destruct (IH n1 w1) as [l' Hl']. exists (l ++ l'). by rewrite Hl', Hl, app_assoc.
Qed.

Lemma appends_documents_mode self soup : appends_log (documents_mode E self soup).
Proof.
  unfold documents_mode, download_documents.
  pose proof (appends_download_documents_loop self). appends.
Qed.

Lemma appends_images_mode self soup : appends_log (images_mode E self soup).
Proof.
  unfold images_mode, download_images.
  pose proof (appends_download_images_loop self). appends.
Qed.

Lemma appends_text_mode self soup : appends_log (text_mode E self soup).
Proof. unfold text_mode, save_webpage_text. appends. Qed.

End LogMethods.

(** ** Text extraction from a saved asset *)

Section Extraction.

Context (E : Env).

Lemma keeps_detect_encoding filepath : keeps nowhere (detect_encoding E filepath).
Proof. unfold detect_encoding. apply keeps_bind; auto with py. Qed.

Lemma keeps_document_reader file_ext filepath read :
  document_reader E file_ext filepath = Some read -> keeps nowhere read.
Proof.
  unfold document_reader. intros H.
  repeat match type of H with
         | (if ?b then _ else _) = _ => destruct b
         end; try discriminate; injection H as <-;
    unfold extract_pdf_text, extract_docx_text, extract_csv_text,
      extract_excel_text, extract_plain_text;
    repeat (apply keeps_bind; [|intros ?]);
    auto using keeps_detect_encoding with py.
Qed.

Lemma keeps_extract_text_from_document self href :
  keeps (eq (document_text_path self href))
    (extract_text_from_document E self (document_path self href)).
Proof.
  unfold extract_text_from_document.
  destruct (extract_documents self); simpl; [|auto with py].
  apply keeps_try_except; [|auto with py].
  destruct (document_reader _ _ _) as [read|] eqn:Hread; [|auto with py].
  apply keeps_bind.
  - eapply keeps_weaken; [|by eapply keeps_document_reader]. by intros p [].
  - intros text. apply keeps_bind; [auto with py | intros cleaned_text].
    apply keeps_write_file.
Qed.

Lemma total_extract_text_from_document self filepath :
  total (extract_text_from_document E self filepath).
Proof.
  unfold extract_text_from_document.
  destruct (extract_documents self); simpl; [|auto with py].
  apply total_try_except. auto with py.
Qed.

Lemma keeps_extract_text_from_image self src :
  keeps (eq (image_text_path self src))
    (extract_text_from_image E self (image_path self src)).
Proof.
  unfold extract_text_from_image.
  destruct (extract_images self); simpl; [|auto with py].
  apply keeps_try_except; [|auto with py].
  apply keeps_bind; [auto with py | intros data].
  apply keeps_bind; [auto with py | intros text].
  apply keeps_bind; [auto with py | intros cleaned_text].
  apply keeps_write_file.
Qed.

Lemma total_extract_text_from_image self filepath :
  total (extract_text_from_image E self filepath).
Proof.
  unfold extract_text_from_image.
  destruct (extract_images self); simpl; [|auto with py].
  apply total_try_except. auto with py.
Qed.

End Extraction.

(** ** Downloading documents *)

Section Download.

Context (E : Env).

Lemma download_document_count self href full_url n w :
  fst (download_document E self href full_url n w) =
  if fetch_or_save_fails E (document_path self href) full_url then n else S n.
Proof.
  unfold download_document, fetch_or_save_fails, requests_get, bind,
    record_request, lift, asset_request.
  destruct (http_get E _) as [r|e]; [|done].
  fold (document_path self href).
  destruct (write_fails _) eqn:Hplan.
  - edestruct write_file_fails as (e & w' & ->); done.
  - rewrite write_file_ok by done.
    by destruct (extract_text_from_document E self _ _) as [[[]|e] w3].
Qed.

Lemma download_document_world self href full_url n w :
  let w' := snd (download_document E self href full_url n w) in
  requests w' = requests w ++ [asset_request full_url] /\
  dirs w' = dirs w /\
  forall p, p <> document_path self href -> p <> document_text_path self href ->
            files w' !! p = files w !! p.
Proof.
  unfold download_document, requests_get, bind, record_request, lift.
  fold (asset_request full_url). fold (document_path self href).
  destruct (http_get E _) as [r|e]; [|by simpl].
  match goal with |- context [write_file E ?p ?d ?w1] =>
    pose proof (keeps_write_file E p d w1) as (Hd & Hr & Hf);
    destruct (write_file E p d w1) as [[[]|e] w2] end; simpl in *.
  - pose proof (keeps_extract_text_from_document E self href w2) as (Hd' & Hr' & Hf').
    destruct (extract_text_from_document E self _ w2) as [[[]|e] w3]; simpl in *;
      (split; [congruence|]; split; [congruence|]);
      intros p Hp1 Hp2; rewrite Hf', Hf; auto.
  - split; [done|]. split; [done|]. intros p Hp1 Hp2. rewrite Hf; auto.
Qed.

(** A fetched and saved document: the counter goes up and the text
    extraction starts with the body on disk. *)
Lemma download_document_saved self href full_url n w r :
  http_get E (asset_request full_url) = Ok r ->
  write_fails (write_plan E (document_path self href)) = false ->
  exists w2 w3,
    files w2 = <[document_path self href := content r]> (files w) /\
    stdout w2 = stdout w /\
    extract_text_from_document E self (document_path self href) w2 = (Ok tt, w3) /\
    download_document E self href full_url n w = (S n, w3).
Proof.
  intros Hget Hplan.
  unfold download_document, requests_get, bind, record_request, lift.
  fold (asset_request full_url). fold (document_path self href).
  rewrite Hget, write_file_ok by done.
  match goal with |- context [extract_text_from_document E self ?p ?w2] =>
    destruct (total_extract_text_from_document E self p w2) as ([] & w3 & Hx);
    exists w2, w3; rewrite Hx end.
  done.
Qed.

Lemma download_documents_loop_spec self base hrefs :
  (forall href, href ∈ hrefs -> exists full_url, urljoin E base href = Ok full_url) ->
  forall n w, exists w',
    download_documents_loop E self base hrefs n w =
      (Ok (n + length (List.filter
                         (fun href => is_document_href E href &&
                                      negb (document_fails E self base href)) hrefs))%nat, w') /\
    requests w' = requests w ++ document_requests E base hrefs /\
    dirs w' = dirs w.
Proof.
  induction hrefs as [|href rest IH]; intros Hjoin n w.
  - exists w. simpl. by rewrite Nat.add_0_r, app_nil_r.
  - destruct (Hjoin href) as [full_url Hfull]; [left|].
    assert (forall h, h ∈ rest -> exists f, urljoin E base h = Ok f) as Hrest
      by (intros h Hh; apply Hjoin; by right).
    assert (document_requests E base (href :: rest) =
            (if is_document_href E href then [asset_request full_url] else []) ++
            document_requests E base rest) as ->.
    { unfold document_requests. cbn [omap list_omap]. rewrite Hfull.
      by destruct (is_document_href E href). }
    assert (document_fails E self base href =
            fetch_or_save_fails E (document_path self href) full_url) as Hfails
      by (unfold document_fails; by rewrite Hfull).
    cbn [download_documents_loop List.filter]. unfold bind at 1, lift at 1.
    rewrite Hfull, Hfails.
    destruct (is_document_href E href); simpl.
    + pose proof (download_document_count self href full_url n w) as Hn.
      pose proof (download_document_world self href full_url n w) as (Hr & Hd & _).
      destruct (download_document E self href full_url n w) as [n1 w1]. simpl in *.
      destruct (IH Hrest n1 w1) as (w' & -> & Hr' & Hd').
      exists w'. rewrite Hr', Hr, Hd', Hd, <- app_assoc. subst n1.
      destruct (fetch_or_save_fails E _ _); simpl; repeat split; f_equal; f_equal; lia.
    + destruct (IH Hrest n w) as (w' & -> & Hr' & Hd'). by exists w'.
Qed.

Lemma candidates_failures self base hrefs :
  length (List.filter (fun href => is_document_href E href &&
                                   negb (document_fails E self base href)) hrefs) =
  (candidates E hrefs - failures E self base hrefs)%nat /\
  (failures E self base hrefs <= candidates E hrefs)%nat.
Proof.
  unfold candidates, failures.
  induction hrefs as [|href rest [IH1 IH2]]; simpl; [done|].
  destruct (is_document_href E href), (document_fails E self base href); simpl; lia.
Qed.

(** A reference that [urljoin] refuses ends the loop with its exception. *)
Lemma download_documents_loop_raises self base hrefs href e :
  href ∈ hrefs -> urljoin E base href = Raise e ->
  forall n w, exists e' w', download_documents_loop E self base hrefs n w = (Raise e', w').
Proof.
  intros Hin Hraise. induction hrefs as [|h rest IH]; [by apply elem_of_nil in Hin|].
  intros n w. cbn [download_documents_loop]. unfold bind at 1, lift at 1.
  destruct (urljoin E base h) as [full_url|e0] eqn:Hh; [|by eexists _, _].
  assert (href ∈ rest) as Hrest.
  { apply elem_of_cons in Hin as [-> | Hin]; [congruence | done]. }
  destruct (is_document_href E h).
  - destruct (download_document E self h full_url n w) as [n1 w1]. by apply IH.
  - by apply IH.
Qed.

(** The loop ends at the first reference [urljoin] refuses, with the
    exception of [urljoin]; the requests made are those for the
    candidates before it. *)
Lemma download_documents_loop_first_refused self base before href after e :
  (forall h, h ∈ before -> exists full_url, urljoin E base h = Ok full_url) ->
  urljoin E base href = Raise e ->
  forall n w, exists w',
    download_documents_loop E self base (before ++ href :: after) n w = (Raise e, w') /\
    requests w' = requests w ++ document_requests E base before /\
    dirs w' = dirs w.
Proof.
  intros Hjoin Hraise. induction before as [|h rest IH]; intros n w.
  - exists w. cbn [app download_documents_loop]. unfold bind, lift. rewrite Hraise.
    by rewrite app_nil_r.
  - destruct (Hjoin h) as [full_url Hfull]; [left|].
    assert (forall h', h' ∈ rest -> exists f, urljoin E base h' = Ok f) as Hrest
      by (intros h' Hh; apply Hjoin; by right).
    assert (document_requests E base (h :: rest) =
            (if is_document_href E h then [asset_request full_url] else []) ++
            document_requests E base rest) as ->.
    { unfold document_requests. cbn [omap list_omap]. rewrite Hfull.
      by destruct (is_document_href E h). }
    cbn [app download_documents_loop]. unfold bind at 1, lift at 1. rewrite Hfull.
    destruct (is_document_href E h); simpl.
    + pose proof (download_document_world self h full_url n w) as (Hr & Hd & _).
      destruct (download_document E self h full_url n w) as [n1 w1]. simpl in *.
      destruct (IH Hrest n1 w1) as (w' & -> & Hr' & Hd').
      exists w'. by rewrite Hr', Hr, Hd', Hd, <- app_assoc.
    + destruct (IH Hrest n w) as (w' & -> & Hr' & Hd'). by exists w'.
Qed.

End Download.

(** ** [download_documents] *)

Section DownloadDocuments.

Context (E : Env).

(** When every reference of the page resolves, [download_documents]
    returns N - M and has made one request for each candidate. *)
Lemma download_documents_count self soup base w :
  extract_documents self = true ->
  base_url E self = Ok base ->
  (forall href, href ∈ anchors soup -> exists full_url, urljoin E base href = Ok full_url) ->
  exists w',
    download_documents E self soup w =
      (Ok (candidates E (anchors soup) - failures E self base (anchors soup))%nat, w') /\
    requests w' = requests w ++ document_requests E base (anchors soup) /\
    dirs w' = dirs w.
Proof.
  intros Hon Hbase Hjoin. unfold download_documents. rewrite Hon. simpl.
  unfold bind at 1, lift at 1. rewrite Hbase.
  unfold bind at 1.
  destruct (download_documents_loop_spec E self base (anchors soup) Hjoin 0%nat w)
    as (w1 & -> & Hr & Hd).
  rewrite (proj1 (candidates_failures E self base (anchors soup))). simpl.
  eexists. split; [reflexivity|]. by simpl.
Qed.

(** C1.  [download_documents] can raise: the reference of every anchor
    is resolved with [urljoin] before the [try] block of the loop, so a
    reference that [urljoin] refuses ends the method with the
    exception, whatever was downloaded before. *)
Theorem download_documents_raises_on_unresolved_href self soup base href e w :
  extract_documents self = true ->
  base_url E self = Ok base ->
  href ∈ anchors soup ->
  urljoin E base href = Raise e ->
  exists e' w', download_documents E self soup w = (Raise e', w').
Proof.
  intros Hon Hbase Hin Hraise. unfold download_documents. rewrite Hon. simpl.
  unfold bind at 1, lift at 1. rewrite Hbase. unfold bind at 1.
  destruct (download_documents_loop_raises E self base _ href e Hin Hraise 0%nat w)
    as (e' & w' & ->).
  by eexists _, _.
Qed.

(** The extension test of [download_documents]: a substring test on
    the lowercased reference. *)
Lemma is_document_href_spec (href : list N) :
  is_document_href E href = true <->
  exists ext pre post : list N,
    ext ∈ [u ".pdf"; u ".docx"; u ".doc"; u ".txt"; u ".csv"; u ".xls"; u ".xlsx"] /\
    lower E href = pre ++ ext ++ post.
Proof.
  unfold is_document_href, doc_extensions.
  rewrite existsb_exists. split.
  - intros (ext & Hin & Hc). apply contains_spec in Hc as (pre & post & Hc).
    exists ext, pre, post. split; [by apply list_elem_of_In | done].
  - intros (ext & pre & post & Hin & Hc). exists ext.
    split; [by apply list_elem_of_In|]. apply contains_spec. eauto.
Qed.

(** C8.  An anchor is a document candidate exactly when its lowercased
    reference contains one of the seven extensions, anywhere.  But not
    every candidate is resolved and fetched: the references are
    resolved one anchor after the other, outside the [try] block, and
    at the first one [urljoin] refuses [download_documents] raises the
    exception of [urljoin].  The requests made are those for the
    candidates before that anchor; the candidates after it are neither
    resolved nor fetched. *)
Theorem document_candidates_after_unresolved_href self soup base before href after e w :
  (forall href : list N,
      is_document_href E href = true <->
      exists ext pre post : list N,
        ext ∈ [u ".pdf"; u ".docx"; u ".doc"; u ".txt"; u ".csv"; u ".xls"; u ".xlsx"] /\
        lower E href = pre ++ ext ++ post) /\
  (extract_documents self = true ->
   base_url E self = Ok base ->
   anchors soup = before ++ href :: after ->
   (forall h, h ∈ before -> exists full_url, urljoin E base h = Ok full_url) ->
   urljoin E base href = Raise e ->
   exists w',
     download_documents E self soup w = (Raise e, w') /\
     requests w' = requests w ++ document_requests E base before).
Proof.
  split; [apply is_document_href_spec|].
  intros Hon Hbase Hanchors Hjoin Hraise. unfold download_documents.
  rewrite Hon, Hanchors. simpl.
  unfold bind at 1, lift at 1. rewrite Hbase. unfold bind at 1.
  destruct (download_documents_loop_first_refused E self base before href after e
              Hjoin Hraise 0%nat w) as (w' & -> & Hr & _).
  by exists w'.
Qed.

End DownloadDocuments.

(** The extension need not end the reference. *)
Example is_document_href_inside :
  is_document_href (Demo.env 200 Demo.page Demo.no_fault) (u "/get/Report.PDF?download=1") = true.
Proof. reflexivity. Qed.

(** On the page with [//[] the first document is fetched, then the
    method raises. *)
Lemma download_documents_raises_on_unresolved_href_witness :
  let E := Demo.env 200 DemoPages.bracket Demo.no_fault in
  (exists e' w',
      download_documents E (Demo.scraper false false true false) DemoPages.bracket Demo.world
      = (Raise e', w')) /\
  fst (download_documents E (Demo.scraper false false true false) DemoPages.bracket Demo.world)
  = Raise (ValueError (u "Invalid IPv6 URL")).
Proof.
  split; [|vm_compute; reflexivity].
  apply (download_documents_raises_on_unresolved_href
           (Demo.env 200 DemoPages.bracket Demo.no_fault)
           (Demo.scraper false false true false) DemoPages.bracket
           (u "https://example.com") (u "//[") (ValueError (u "Invalid IPv6 URL"))).
  - reflexivity.
  - reflexivity.
  - apply list_elem_of_In. simpl. auto.
  - reflexivity.
Defined.

(** On the page whose second document has the reference
    [http://[::1/doc.pdf], the first document is fetched and the third
    is not. *)
Lemma document_candidates_after_unresolved_href_witness :
  let E := Demo.env 200 DemoPages.broken_candidate Demo.no_fault in
  is_document_href E (u "/files/b.pdf") = true /\
  exists w',
    download_documents E (Demo.scraper false false true false) DemoPages.broken_candidate
      Demo.world = (Raise (ValueError (u "Invalid IPv6 URL")), w') /\
    req_url <$> requests w' = [u "https://example.com/files/report.pdf"].
Proof.
  intros E. split; [reflexivity|].
  destruct (proj2 (document_candidates_after_unresolved_href E
                     (Demo.scraper false false true false) DemoPages.broken_candidate
                     (u "https://example.com") [u "/files/report.pdf"]
                     (u "http://[::1/doc.pdf") [u "/files/b.pdf"]
                     (ValueError (u "Invalid IPv6 URL")) Demo.world))
    as (w' & Hrun & Hreq).
  - reflexivity.
  - reflexivity.
  - reflexivity.
  - intros h Hin. apply list_elem_of_In in Hin. simpl in Hin.
    destruct Hin as [<- | []]. eexists; reflexivity.
  - reflexivity.
  - exists w'. split; [exact Hrun|]. rewrite Hreq. reflexivity.
Defined.

(** ** [extract_links] *)

Section ExtractLinks.

Context (E : Env).

Lemma extract_links_loop_spec base hrefs :
  (forall href, href ∈ hrefs -> exists full_url, urljoin E base href = Ok full_url) ->
  forall acc : gset (list N), exists links : gset (list N),
    extract_links_loop E base hrefs acc = Ok links /\
    forall x, x ∈ links <->
              x ∈ acc \/ exists href, href ∈ hrefs /\ urljoin E base href = Ok x.
Proof.
  induction hrefs as [|href rest IH]; intros Hjoin acc.
  - exists acc. split; [done|]. intros x. split; [by left|].
    intros [H | (href & Hin & _)]; [done | by apply elem_of_nil in Hin].
  - destruct (Hjoin href) as [full_url Hfull]; [left|].
    destruct (IH (fun h Hh => Hjoin h (list_elem_of_further _ _ _ Hh))
                ({[full_url]} ∪ acc)) as (links & Hrun & Hmem).
    exists links. simpl. rewrite Hfull. split; [done|].
    intros x. rewrite Hmem, elem_of_union, elem_of_singleton. split.
    + intros [[-> | H] | (h & Hin & Hx)]; [right | by left | right].
      * exists href. split; [left | done].
      * exists h. split; [by right | done].
    + intros [H | (h & Hin & Hx)]; [left; by right|].
      apply elem_of_cons in Hin as [-> | Hin].
      * left; left. congruence.
      * right. by exists h.
Qed.

Lemma extract_links_spec self soup base :
  extract_link self = true ->
  base_url E self = Ok base ->
  (forall href, href ∈ anchors soup -> exists full_url, urljoin E base href = Ok full_url) ->
  exists links : list (list N),
    extract_links E self soup = Ok links /\
    NoDup links /\
    forall x, x ∈ links <->
              exists href, href ∈ anchors soup /\ urljoin E base href = Ok x.
Proof.
  intros Hon Hbase Hjoin. unfold extract_links.
  rewrite Hon, Hbase. cbn [negb].
  destruct (extract_links_loop_spec _ _ Hjoin ∅) as (links & -> & Hmem).
  exists (elements links). split; [done|]. split; [apply NoDup_elements|].
  intros x. rewrite elem_of_elements, Hmem. split; [|by right].
  intros [H | H]; [by apply not_elem_of_empty in H | done].
Qed.

(** The loop ends at the first reference [urljoin] refuses, with the
    exception of [urljoin], whatever was resolved before. *)
Lemma extract_links_loop_first_refused base before href after e :
  (forall h, h ∈ before -> exists full_url, urljoin E base h = Ok full_url) ->
  urljoin E base href = Raise e ->
  forall acc, extract_links_loop E base (before ++ href :: after) acc = Raise e.
Proof.
  intros Hjoin Hraise. induction before as [|h rest IH]; intros acc.
  - cbn [app extract_links_loop]. by rewrite Hraise.
  - destruct (Hjoin h) as [full_url Hfull]; [left|].
    cbn [app extract_links_loop]. rewrite Hfull. apply IH.
    intros h' Hh. apply Hjoin. by right.
Qed.

(** C6.  [extract_links] does not return the resolved reference of
    every anchor on every page: the references are resolved with
    [urljoin] one after the other, unguarded, and at the first one
    [urljoin] refuses the method raises the exception of [urljoin].
    No link is returned then, not even those resolved before. *)
Theorem extract_links_raises_on_unresolved_href self soup base before href after e :
  extract_link self = true ->
  base_url E self = Ok base ->
  anchors soup = before ++ href :: after ->
  (forall h, h ∈ before -> exists full_url, urljoin E base h = Ok full_url) ->
  urljoin E base href = Raise e ->
  extract_links E self soup = Raise e.
Proof.
  intros Hon Hbase Hanchors Hjoin Hraise. unfold extract_links.
  rewrite Hon, Hbase, Hanchors. cbn [negb].
  by rewrite (extract_links_loop_first_refused base before href after e Hjoin Hraise).
Qed.

End ExtractLinks.

(** Two anchors with the same target give one link. *)
Example extract_links_once :
  let E := Demo.env 200 Demo.page Demo.no_fault in
  let soup := {| anchors := [u "/a"; u "https://example.com/a"; u "b"];
                 images := []; get_text := Ok [] |} in
  exists links : list (list N),
    extract_links E (Demo.scraper false true false false) soup = Ok links /\
    length links = 2%nat.
Proof. intros E soup. eexists. split; vm_compute; reflexivity. Qed.

(** On the page with [//[] the first anchor resolves, and no link is
    returned. *)
Lemma extract_links_raises_on_unresolved_href_witness :
  extract_links (Demo.env 200 DemoPages.bracket Demo.no_fault)
    (Demo.scraper false true false false) DemoPages.bracket =
  Raise (ValueError (u "Invalid IPv6 URL")).
Proof.
  apply (extract_links_raises_on_unresolved_href
           (Demo.env 200 DemoPages.bracket Demo.no_fault)
           (Demo.scraper false true false false) DemoPages.bracket
           (u "https://example.com") [u "/files/report.pdf"] (u "//[") []).
  - reflexivity.
  - reflexivity.
  - reflexivity.
  - intros h Hin. apply list_elem_of_In in Hin. simpl in Hin.
    destruct Hin as [<- | []]. eexists; reflexivity.
  - reflexivity.
Defined.

(** ** One asset *)

Section Assets.

Context (E : Env).

Lemma document_reader_unsupported file_ext filepath :
  file_ext ∉ supported_extensions -> document_reader E file_ext filepath = None.
Proof.
  intros Hext. unfold document_reader, str_eqb. cbn [existsb].
  repeat match goal with
         | |- context [bool_decide (file_ext = ?x)] =>
             rewrite (bool_decide_eq_false_2 (file_ext = x))
         end; try done;
    intros ->; apply Hext; unfold supported_extensions;
    repeat (first [left | right; left | right]).
Qed.

(** C4.  A document that was fetched and saved, and whose base name has
    an extension outside the seven supported ones: the counter goes up,
    the only file written is the raw one, so no text file beside it. *)
Theorem unsupported_document_saved_without_text self href full_url n w r :
  http_get E (asset_request full_url) = Ok r ->
  write_fails (write_plan E (document_path self href)) = false ->
  lower E (snd (PosixPath.splitext (PosixPath.basename href)))
    ∉ [u ".pdf"; u ".docx"; u ".doc"; u ".csv"; u ".xls"; u ".xlsx"; u ".txt"] ->
  exists w',
    download_document E self href full_url n w = (S n, w') /\
    files w' = <[document_path self href := content r]> (files w) /\
    dirs w' = dirs w /\
    (document_text_path self href <> document_path self href ->
     files w' !! document_text_path self href = files w !! document_text_path self href).
Proof.
  intros Hget Hplan Hext.
  destruct (download_document_saved E self href full_url n w r Hget Hplan)
    as (w2 & w3 & Hfiles & _ & Hextract & Hrun).
  pose proof (download_document_world E self href full_url n w) as (_ & Hdirs & _).
  rewrite Hrun in Hdirs. simpl in Hdirs.
  assert (files w3 = files w2) as Hsame.
  { revert Hextract. unfold extract_text_from_document, try_except, document_path.
    rewrite splitext_join_basename.
    rewrite document_reader_unsupported by exact Hext.
    destruct (extract_documents self); simpl; by intros [= <-]. }
  exists w3. split; [done|]. split; [congruence|]. split; [done|].
  intros Hne. by rewrite Hsame, Hfiles, lookup_insert_ne.
Qed.

Lemma download_image_saved self src full_url n w r :
  http_get E (asset_request full_url) = Ok r ->
  write_fails (write_plan E (image_path self src)) = false ->
  exists w2 w3,
    files w2 = <[image_path self src := content r]> (files w) /\
    extract_text_from_image E self (image_path self src) w2 = (Ok tt, w3) /\
    download_image E self src full_url n w = (S n, w3).
Proof.
  intros Hget Hplan.
  unfold download_image, requests_get, bind, record_request, lift.
  fold (asset_request full_url). fold (image_path self src).
  rewrite Hget, write_file_ok by done.
  match goal with |- context [extract_text_from_image E self ?p ?w2] =>
    destruct (total_extract_text_from_image E self p w2) as ([] & w3 & Hx);
    exists w2, w3; rewrite Hx end.
  done.
Qed.

(** C9.  The status of the response plays no part in the download of a
    document or of an image: whenever the fetch returns a response,
    whatever its status, and the write goes through, the body is on
    disk when the text extraction starts and the counter goes up.  The
    body is still there afterwards unless the extracted text goes to
    the very same path. *)
Theorem asset_status_not_checked self name full_url n w r :
  http_get E (asset_request full_url) = Ok r ->
  (write_fails (write_plan E (document_path self name)) = false ->
   exists w2 w3,
     files w2 !! document_path self name = Some (content r) /\
     extract_text_from_document E self (document_path self name) w2 = (Ok tt, w3) /\
     download_document E self name full_url n w = (S n, w3) /\
     (document_text_path self name <> document_path self name ->
      files w3 !! document_path self name = Some (content r))) /\
  (write_fails (write_plan E (image_path self name)) = false ->
   exists w2 w3,
     files w2 !! image_path self name = Some (content r) /\
     extract_text_from_image E self (image_path self name) w2 = (Ok tt, w3) /\
     download_image E self name full_url n w = (S n, w3) /\
     (image_text_path self name <> image_path self name ->
      files w3 !! image_path self name = Some (content r))).
Proof.
  intros Hget. split; intros Hplan.
  - destruct (download_document_saved E self name full_url n w r Hget Hplan)
      as (w2 & w3 & Hfiles & _ & Hextract & Hrun).
    exists w2, w3. split; [by rewrite Hfiles, lookup_insert_eq|].
    split; [done|]. split; [done|]. intros Hne.
    pose proof (keeps_extract_text_from_document E self name w2) as (_ & _ & Hkeep).
    rewrite Hextract in Hkeep. simpl in Hkeep.
    rewrite Hkeep by done. by rewrite Hfiles, lookup_insert_eq.
  - destruct (download_image_saved self name full_url n w r Hget Hplan)
      as (w2 & w3 & Hfiles & Hextract & Hrun).
    exists w2, w3. split; [by rewrite Hfiles, lookup_insert_eq|].
    split; [done|]. split; [done|]. intros Hne.
    pose proof (keeps_extract_text_from_image E self name w2) as (_ & _ & Hkeep).
    rewrite Hextract in Hkeep. simpl in Hkeep.
    rewrite Hkeep by done. by rewrite Hfiles, lookup_insert_eq.
Qed.

End Assets.

(** [data.csv.zip] passes the extension test and has extension [.zip]. *)
Lemma unsupported_document_saved_without_text_witness :
  let E := Demo.env 200 Demo.page Demo.no_fault in
  let self := Demo.scraper false false true false in
  exists w',
    download_document E self (u "data.csv.zip") (u "https://example.com/data.csv.zip")
      0 Demo.world = (1%nat, w') /\
    files w' = {[ u "/tmp/examplecompage_20240309_140507/documents/data.csv.zip" :=
                  u "<h1>Not Found</h1>" ]}.
Proof.
  intros E self.
  destruct (unsupported_document_saved_without_text E self (u "data.csv.zip")
              (u "https://example.com/data.csv.zip") 0 Demo.world
              {| status_code := 404; reason := u "Not Found";
                 content := u "<h1>Not Found</h1>"; text := u "<h1>Not Found</h1>" |})
    as (w' & Hrun & Hfiles & _).
  - reflexivity.
  - reflexivity.
  - apply (bool_decide_unpack _). vm_compute. exact I.
  - exists w'. split; [exact Hrun|]. rewrite Hfiles. reflexivity.
Defined.

(** The asset server of the example answers 404; the body is saved and
    counted all the same. *)
Lemma asset_status_not_checked_witness :
  let E := Demo.env 200 Demo.page Demo.no_fault in
  let self := Demo.scraper false false true true in
  (exists w2 w3,
      files w2 !! document_path self (u "/files/report.pdf") = Some (u "<h1>Not Found</h1>") /\
      download_document E self (u "/files/report.pdf")
        (u "https://example.com/files/report.pdf") 0 Demo.world = (1%nat, w3)) /\
  (exists w2 w3,
      files w2 !! image_path self (u "/img/logo.png") = Some (u "<h1>Not Found</h1>") /\
      download_image E self (u "/img/logo.png")
        (u "https://example.com/img/logo.png") 0 Demo.world = (1%nat, w3)).
Proof.
  intros E self.
  assert (http_get E (asset_request (u "https://example.com/files/report.pdf")) =
          Ok {| status_code := 404; reason := u "Not Found";
                content := u "<h1>Not Found</h1>"; text := u "<h1>Not Found</h1>" |})
    as Hdoc by reflexivity.
  assert (http_get E (asset_request (u "https://example.com/img/logo.png")) =
          Ok {| status_code := 404; reason := u "Not Found";
                content := u "<h1>Not Found</h1>"; text := u "<h1>Not Found</h1>" |})
    as Himg by reflexivity.
  split.
  - destruct (proj1 (asset_status_not_checked E self (u "/files/report.pdf") _ 0
                       Demo.world _ Hdoc)) as (w2 & w3 & H2 & _ & Hrun & _);
      [reflexivity|].
    exists w2, w3. split; [exact H2 | exact Hrun].
  - destruct (proj2 (asset_status_not_checked E self (u "/img/logo.png") _ 0
                       Demo.world _ Himg)) as (w2 & w3 & H2 & _ & Hrun & _);
      [reflexivity|].
    exists w2, w3. split; [exact H2 | exact Hrun].
Defined.

(** ** The constructor *)

Section Init.

Context (E : Env).

Lemma set_dirs_same w : set_dirs (dirs w) w = w.
Proof. by destruct w. Qed.

Lemma set_dirs_twice d d' w : set_dirs d (set_dirs d' w) = set_dirs d w.
Proof. done. Qed.

Lemma bind_ok {A B} (m : M A) (k : A -> M B) w b w' :
  bind m k w = (Ok b, w') -> exists a w1, m w = (Ok a, w1) /\ k a w1 = (Ok b, w').
Proof.
  unfold bind. destruct (m w) as [[a|e] w1]; [|done]. by exists a, w1.
Qed.

Lemma ensure_dir_ok d w w' :
  ensure_dir E d w = (Ok tt, w') -> w' = set_dirs ({[d]} ∪ dirs w) w.
Proof.
  unfold ensure_dir. case_bool_decide as Hd.
  - intros [= <-]. replace ({[d]} ∪ dirs w) with (dirs w) by set_solver.
    by rewrite set_dirs_same.
  - case_bool_decide; [done|]. destruct (mkdir_fault E d); [done|]. by intros [= <-].
Qed.

Lemma ensure_dirs_ok ds w w' :
  ensure_dirs E ds w = (Ok tt, w') -> w' = set_dirs (list_to_set ds ∪ dirs w) w.
Proof.
  revert w. induction ds as [|d ds IH]; intros w; simpl.
  - intros [= <-]. replace (∅ ∪ dirs w) with (dirs w) by set_solver.
    by rewrite set_dirs_same.
  - intros H. apply bind_ok in H as ([] & w1 & H1 & H2).
    apply ensure_dir_ok in H1 as ->. apply IH in H2 as ->.
    rewrite set_dirs_twice. f_equal. simpl. set_solver.
Qed.

Lemma when_makedirs_ok b name w w' :
  when b (makedirs E name) w = (Ok tt, w') ->
  w' = set_dirs ((if b then list_to_set (PosixPath.parents name ++ [name]) else ∅)
                   ∪ dirs w) w.
Proof.
  destruct b; simpl.
  - apply ensure_dirs_ok.
  - intros [= <-]. replace (∅ ∪ dirs w) with (dirs w) by set_solver.
    by rewrite set_dirs_same.
Qed.

(** The workspace root is not empty and does not end with a separator. *)
Lemma output_dir_last base url now :
  exists c, last (PosixPath.join base (_create_safe_folder_name E url now)) = Some c /\
            c <> PosixPath.sep.
Proof.
  pose proof (create_safe_folder_name_chars E url now) as Hchars.
  set (name := _create_safe_folder_name E url now) in *.
  assert (forall c, c ∈ name -> c <> PosixPath.sep) as Hsep.
  { intros c Hc. rewrite Forall_forall in Hchars.
    destruct (Hchars c Hc) as [H | [-> | ->]]; [|done..].
    intros ->. vm_compute in H. discriminate. }
  assert (PosixPath.sep ∉ name) as Hnotin by (intros H; by apply (Hsep _ H)).
  destruct (join_relative base name Hnotin) as (d' & -> & _).
  destruct (last name) as [c|] eqn:Hlast.
  - exists c. split; [by rewrite last_app, Hlast|].
    apply Hsep. apply last_Some in Hlast as [l' ->]. set_solver.
  - apply last_None in Hlast. unfold name, _create_safe_folder_name in Hlast.
    apply app_eq_nil in Hlast as [_ Hlast]. discriminate.
Qed.

(** C5, amended.  Provided the directories above the workspace root
    exist, the constructor makes the [links], [documents] and [images]
    subdirectory of each enabled mode and of no other, and makes the
    workspace root when any mode is enabled (it is Text mode's location
    and the parent of the three others); no file is touched; with no
    mode enabled nothing is made. *)
Theorem init_creates_directories url base t l d i now w self w' :
  __init__ E url base t l d i now w = (Ok self, w') ->
  (forall p, p ∈ PosixPath.parents (output_dir self) -> p ∈ dirs w) ->
  dirs w' = dirs w ∪ mode_dir l (links_dir self) ∪ mode_dir d (docs_dir self) ∪
            mode_dir i (images_dir self) ∪ mode_dir (t || l || d || i) (output_dir self) /\
  files w' = files w /\
  (t || l || d || i = false -> w' = w) /\
  links_dir self = output_dir self ++ u "/links" /\
  docs_dir self = output_dir self ++ u "/documents" /\
  images_dir self = output_dir self ++ u "/images".
Proof.
  intros Hinit Hparents. unfold __init__ in Hinit.
  apply bind_ok in Hinit as ([] & w1 & H1 & Hinit).
  apply bind_ok in Hinit as ([] & w2 & H2 & Hinit).
  apply bind_ok in Hinit as ([] & w3 & H3 & Hinit).
  apply bind_ok in Hinit as ([] & w4 & H4 & Hinit).
  injection Hinit as <- <-.
  apply when_makedirs_ok in H1 as ->. apply when_makedirs_ok in H2 as ->.
  apply when_makedirs_ok in H3 as ->. apply when_makedirs_ok in H4 as ->.
  cbn [output_dir links_dir docs_dir images_dir] in *.
  destruct (output_dir_last base url now) as (c & Hlast & Hc).
  set (o := PosixPath.join base (_create_safe_folder_name E url now)) in *.
  destruct (parents_join o (u "links") c Hlast Hc) as [Hlinks Hpl];
    [apply (bool_decide_unpack _); vm_compute; exact I|].
  destruct (parents_join o (u "documents") c Hlast Hc) as [Hdocs Hpd];
    [apply (bool_decide_unpack _); vm_compute; exact I|].
  destruct (parents_join o (u "images") c Hlast Hc) as [Himgs Hpi];
    [apply (bool_decide_unpack _); vm_compute; exact I|].
  rewrite !set_dirs_twice. cbn [dirs files set_dirs].
  rewrite Hpl, Hpd, Hpi.
  assert (list_to_set (PosixPath.parents o) ⊆ dirs w) as Habove.
  { intros p Hp. apply Hparents. by apply elem_of_list_to_set in Hp. }
  split; [|split; [done|split; [|done]]].
  - rewrite !list_to_set_app_L. unfold mode_dir.
    destruct t, l, d, i; simpl; set_solver.
  - intros Hoff. apply orb_false_iff in Hoff as [Hoff ->].
    apply orb_false_iff in Hoff as [Hoff ->].
    apply orb_false_iff in Hoff as [-> ->].
    replace (∅ ∪ (∅ ∪ (∅ ∪ (∅ ∪ dirs w)))) with (dirs w) by set_solver.
    apply set_dirs_same.
Qed.

End Init.

(** C5 as worded fails: with Links mode alone the workspace root is made
    too, though Text mode is off. *)
Lemma links_only_creates_the_root : ~ creates_exactly_the_enabled_locations.
Proof.
  intros Hclaim.
  pose (E := Demo.env 200 Demo.page Demo.no_fault).
  destruct (__init__ E Demo.root (u "/tmp") false true false false Demo.now Demo.world)
    as [r w'] eqn:Hinit.
  assert (r = Ok (Demo.scraper false true false false)) as ->
    by (apply (f_equal fst) in Hinit; cbn [fst] in Hinit; subst r; vm_compute; reflexivity).
  specialize (Hclaim _ _ _ _ _ _ _ _ _ _ _ Hinit).
  apply (f_equal snd) in Hinit. cbn [snd] in Hinit. subst w'.
  assert (forall p, p ∈ PosixPath.parents (output_dir (Demo.scraper false true false false)) ->
                    p ∈ dirs Demo.world) as Hparents.
  { intros p Hp. vm_compute in Hp. apply list_elem_of_singleton in Hp as ->.
    apply (bool_decide_unpack _). vm_compute. exact I. }
  specialize (Hclaim Hparents).
  apply (f_equal (fun s => bool_decide (u "/tmp/examplecompage_20240309_140507" ∈ s)))
    in Hclaim.
  vm_compute in Hclaim. discriminate.
Qed.

Lemma init_creates_directories_witness :
  let E := Demo.env 200 Demo.page Demo.no_fault in
  exists w',
    __init__ E Demo.root (u "/tmp") false true false false Demo.now Demo.world
    = (Ok (Demo.scraper false true false false), w') /\
    dirs w' = {[ u "/tmp"; u "/tmp/examplecompage_20240309_140507/links";
                 u "/tmp/examplecompage_20240309_140507" ]}.
Proof.
  intros E.
  destruct (__init__ E Demo.root (u "/tmp") false true false false Demo.now Demo.world)
    as [r w'] eqn:Hinit.
  assert (r = Ok (Demo.scraper false true false false)) as ->
    by (apply (f_equal fst) in Hinit; cbn [fst] in Hinit; subst r; vm_compute; reflexivity).
  exists w'. split; [reflexivity|].
  destruct (init_creates_directories E _ _ _ _ _ _ _ _ _ _ Hinit) as (Hdirs & _).
  - intros p Hp. vm_compute in Hp. apply list_elem_of_singleton in Hp as ->.
    apply (bool_decide_unpack _). vm_compute. exact I.
  - rewrite Hdirs. unfold mode_dir. simpl. set_solver.
Defined.

(** ** The root page *)

Section RootPage.

Context (E : Env).

Lemma raise_for_status_error self_url r :
  (400 <= status_code r < 600)%Z ->
  exists msg, raise_for_status self_url r = Raise (RequestException msg).
Proof.
  intros Hs. unfold raise_for_status.
  destruct ((400 <=? status_code r) && (status_code r <? 500))%Z eqn:H4; [by eexists|].
  destruct ((500 <=? status_code r) && (status_code r <? 600))%Z eqn:H5; [by eexists|].
  apply andb_false_iff in H4, H5. lia.
Qed.

Lemma raise_for_status_pass self_url r :
  ~ (400 <= status_code r < 600)%Z -> raise_for_status self_url r = Ok tt.
Proof.
  intros Hs. unfold raise_for_status.
  destruct ((400 <=? status_code r) && (status_code r <? 500))%Z eqn:H4;
    [apply andb_true_iff in H4; lia|].
  destruct ((500 <=? status_code r) && (status_code r <? 600))%Z eqn:H5;
    [apply andb_true_iff in H5; lia|].
  done.
Qed.

Lemma fetch_page_content_fails self w :
  root_fetch_fails E self ->
  exists msg,
    fetch_page_content E self w =
      (Ok None,
       {| dirs := dirs w; files := files w;
          requests := requests w ++ [root_request self];
          log := log w ++ [(ERROR, u "Webpage fetch failed: " ++ msg)];
          stdout := stdout w |}).
Proof.
  unfold fetch_page_content, requests_get, bind, record_request, lift.
  fold (root_request self).
  intros [[msg Hget] | (r & Hget & Hs)]; rewrite Hget; simpl.
  - by exists msg.
  - destruct (raise_for_status_error (url self) r Hs) as [msg ->]. by exists msg.
Qed.

(** C2, amended.  When the fetch of the root page fails, that is when
    requests raises a [RequestException] (host unreachable, timeout) or
    the status is in 400..599, [scrape] returns without a summary after
    that one request: nothing is resolved or fetched, no file or
    directory is touched, two errors are logged. *)
Theorem scrape_aborts_on_root_failure self w :
  root_fetch_fails E self ->
  exists msg w',
    scrape E self w = (Ok None, w') /\
    requests w' = requests w ++ [root_request self] /\
    dirs w' = dirs w /\ files w' = files w /\ stdout w' = stdout w /\
    drop 2 (drop (length (log w)) (log w')) =
      [(ERROR, u "Webpage fetch failed: " ++ msg);
       (ERROR, u "Scraping failed: Could not fetch webpage")].
Proof.
  intros Hfail. unfold scrape.
  unfold bind at 1, logger at 1. unfold bind at 1, logger at 1.
  unfold bind at 1.
  match goal with |- context [fetch_page_content E self ?w0] =>
    destruct (fetch_page_content_fails self w0 Hfail) as [msg ->] end.
  exists msg. eexists. cbn [not_response]. unfold bind, logger, ret. cbn.
  split; [reflexivity|]. repeat split.
  cbn [log]. rewrite <- !app_assoc, drop_app_length. reflexivity.
Qed.

End RootPage.

(** C2 as worded fails: a root page answered with status 304 is not a
    2xx answer, yet the run goes on, fetches the documents and returns a
    summary. *)
Lemma status_304_is_scraped : ~ aborts_on_every_root_failure.
Proof.
  intros Hclaim.
  destruct (Hclaim (Demo.env 304 Demo.page Demo.no_fault)
              (Demo.scraper false true true false) Demo.world) as [Hnone _].
  - right. eexists. split; [reflexivity|]. simpl. lia.
  - vm_compute in Hnone. discriminate.
Qed.

Example status_304_summary :
  fst (scrape (Demo.env 304 Demo.page Demo.no_fault)
         (Demo.scraper false true true false) Demo.world) =
  Ok (Some [Some (u "Link Extracted: 3"); Some (u "Document Downloaded: 2")]).
Proof. vm_compute. reflexivity. Qed.

Lemma scrape_aborts_on_root_failure_witness :
  exists msg w',
    scrape (Demo.env 404 Demo.page Demo.no_fault)
      (Demo.scraper true true true true) Demo.world = (Ok None, w') /\
    requests w' = [root_request (Demo.scraper true true true true)] /\
    drop 2 (log w') = [(ERROR, u "Webpage fetch failed: " ++ msg);
                       (ERROR, u "Scraping failed: Could not fetch webpage")].
Proof.
  destruct (scrape_aborts_on_root_failure (Demo.env 404 Demo.page Demo.no_fault)
              (Demo.scraper true true true true) Demo.world)
    as (msg & w' & Hrun & Hreq & _ & _ & _ & Hlog).
  - right. eexists. split; [reflexivity|]. simpl. lia.
  - exists msg, w'. split; [exact Hrun|]. split; [exact Hreq | exact Hlog].
Defined.

(** ** [clean_text] *)

Section CleanText.

Import Re.

Lemma closes_sub_tags s : closes (sub_tags_from false s) = true -> closes s = true.
Proof.
  induction s as [|c s IH]; [done|]. cbn [sub_tags_from].
  destruct ((c =? lt_sign) && closes s) eqn:Hopen.
  - intros _. apply andb_true_iff in Hopen as [Hc Hs]. apply N.eqb_eq in Hc as ->.
    exact Hs.
  - cbn [closes]. destruct (c =? gt_sign); [done|]. destruct (c =? newline); [done|].
    exact IH.
Qed.

(** The tag-stripping pass leaves no tag behind, whatever the text. *)
Lemma has_tag_sub_tags_from in_tag s : has_tag (sub_tags_from in_tag s) = false.
Proof.
  revert in_tag. induction s as [|c s IH]; intros in_tag; [done|].
  cbn [sub_tags_from]. destruct in_tag; [apply IH|].
  destruct ((c =? lt_sign) && closes s) eqn:Hopen; [apply IH|].
  cbn [has_tag]. rewrite IH, orb_false_r.
  destruct (c =? lt_sign); [|done]. simpl in *.
  destruct (closes (sub_tags_from false s)) eqn:Hc; [|done].
  apply closes_sub_tags in Hc. congruence.
Qed.

Lemma has_tag_sub_tags s : has_tag (sub_tags s) = false.
Proof. apply has_tag_sub_tags_from. Qed.

Lemma sub_tags_id s : has_tag s = false -> sub_tags s = s.
Proof.
  unfold sub_tags. induction s as [|c s IH]; [done|]. cbn [has_tag sub_tags_from].
  intros H. apply orb_false_iff in H as [-> H]. by rewrite IH.
Qed.

(** The tag-stripping pass only deletes, and where the text has a tag it
    deletes its [<]: fewer characters outside white space are left. *)
Lemma outside_sub_tags_from_le isspace in_tag s :
  (length (outside_space isspace (sub_tags_from in_tag s)) <=
   length (outside_space isspace s))%nat.
Proof.
  revert in_tag. induction s as [|c s IH]; intros in_tag; [done|].
  cbn [sub_tags_from]. unfold outside_space in *. cbn [List.filter].
  destruct in_tag.
  - specialize (IH (negb (c =? gt_sign))). destruct (negb (isspace c)); simpl; lia.
  - destruct ((c =? lt_sign) && closes s).
    + specialize (IH true). destruct (negb (isspace c)); simpl; lia.
    + specialize (IH false). cbn [List.filter].
      destruct (negb (isspace c)); simpl; lia.
Qed.

Lemma outside_sub_tags_lt isspace s :
  isspace lt_sign = false -> has_tag s = true ->
  (length (outside_space isspace (sub_tags s)) < length (outside_space isspace s))%nat.
Proof.
  intros Hlt. unfold sub_tags. induction s as [|c s IH]; [done|].
  cbn [has_tag sub_tags_from]. intros Htag.
  destruct ((c =? lt_sign) && closes s) eqn:Hopen.
  - apply andb_true_iff in Hopen as [Hc _]. apply N.eqb_eq in Hc as ->.
    pose proof (outside_sub_tags_from_le isspace true s) as Hle.
    unfold outside_space in *. cbn [List.filter]. rewrite Hlt. simpl. lia.
  - simpl in Htag. specialize (IH Htag).
    unfold outside_space in *. cbn [List.filter].
    destruct (negb (isspace c)); simpl; lia.
Qed.

(** Tokens joined with single spaces. *)
Lemma outside_space_app isspace (a b : list N) :
  outside_space isspace (a ++ b) = outside_space isspace a ++ outside_space isspace b.
Proof. unfold outside_space. apply List.filter_app. Qed.

Lemma outside_space_id isspace (t : list N) :
  Forall (fun c => isspace c = false) t -> outside_space isspace t = t.
Proof.
  unfold outside_space. induction t as [|c t IH]; intros Ht; [done|].
  apply Forall_cons in Ht as [Hc Ht]. cbn [List.filter]. rewrite Hc. simpl.
  by rewrite IH.
Qed.

Lemma outside_space_join isspace (ts : list (list N)) :
  isspace (ch " ") = true ->
  Forall (Forall (fun c => isspace c = false)) ts ->
  outside_space isspace (PyStr.join (u " ") ts) = concat ts.
Proof.
  intros Hsp. induction ts as [|t ts IH]; intros Hts; [done|].
  apply Forall_cons in Hts as [Ht Hts]. destruct ts as [|t2 ts].
  - simpl. rewrite app_nil_r. by apply outside_space_id.
  - change (PyStr.join (u " ") (t :: t2 :: ts))
      with (t ++ ch " " :: PyStr.join (u " ") (t2 :: ts)).
    rewrite outside_space_app, outside_space_id by done.
    change (concat (t :: t2 :: ts)) with (t ++ concat (t2 :: ts)). f_equal.
    unfold outside_space at 1. cbn [List.filter]. rewrite Hsp. simpl.
    by apply IH.
Qed.

Lemma outside_space_clean isspace (t : list N) :
  Forall (fun c => isspace c = false) (outside_space isspace t).
Proof.
  unfold outside_space. induction t as [|c t IH]; [constructor|].
  cbn [List.filter]. destruct (isspace c) eqn:Hc; simpl; [done|]. by constructor.
Qed.

Lemma Forall_of_concat {A} (P : A -> Prop) (ts : list (list A)) :
  Forall P (concat ts) -> Forall (Forall P) ts.
Proof.
  induction ts as [|t ts IH]; [constructor|]. simpl.
  intros H. apply Forall_app in H as [Ht Hts]. constructor; auto.
Qed.

(** A text is joined from one list of tokens only, when the tokens are
    not empty and hold no space. *)
Lemma join_head_inj (a b r1 r2 : list N) :
  ch " " ∉ a -> ch " " ∉ b ->
  a ++ ch " " :: r1 = b ++ ch " " :: r2 -> a = b /\ r1 = r2.
Proof.
  revert b. induction a as [|c a IH]; intros [|d b] Ha Hb H; simpl in H.
  - by injection H as ->.
  - injection H as <- _. exfalso. apply Hb. by left.
  - injection H as -> _. exfalso. apply Ha. by left.
  - injection H as -> H. destruct (IH b) as [-> ->]; [| |done|done].
    + intros Hin. apply Ha. by right.
    + intros Hin. apply Hb. by right.
Qed.

Lemma join_head_end (a b r : list N) :
  ch " " ∉ a -> a = b ++ ch " " :: r -> False.
Proof.
  intros Ha ->. apply Ha. apply elem_of_app. right. by left.
Qed.

Lemma join_no_space (ts : list (list N)) :
  Forall (fun t => t <> [] /\ ch " " ∉ t) ts ->
  ts <> [] -> PyStr.join (u " ") ts <> [].
Proof.
  intros Hts Hne. destruct ts as [|t ts]; [done|].
  apply Forall_cons in Hts as [[Ht _] _].
  destruct ts; simpl; [done|]. by destruct t.
Qed.

Lemma join_inj (ts1 ts2 : list (list N)) :
  Forall (fun t => t <> [] /\ ch " " ∉ t) ts1 ->
  Forall (fun t => t <> [] /\ ch " " ∉ t) ts2 ->
  PyStr.join (u " ") ts1 = PyStr.join (u " ") ts2 -> ts1 = ts2.
Proof.
  revert ts2. induction ts1 as [|t1 ts1 IH]; intros ts2 H1 H2 Hjoin.
  - destruct ts2 as [|t2 ts2]; [done|]. exfalso.
    by apply (join_no_space (t2 :: ts2)).
  - destruct ts2 as [|t2 ts2].
    + exfalso. by apply (join_no_space (t1 :: ts1)).
    + apply Forall_cons in H1 as [[Hne1 Hsp1] H1].
      apply Forall_cons in H2 as [[Hne2 Hsp2] H2].
      destruct ts1 as [|t1' ts1], ts2 as [|t2' ts2].
      * simpl in Hjoin. by subst.
      * exfalso. simpl in Hjoin. by eapply (join_head_end t1).
      * exfalso. simpl in Hjoin. symmetry in Hjoin. by eapply (join_head_end t2).
      * change (t1 ++ ch " " :: PyStr.join (u " ") (t1' :: ts1) =
                t2 ++ ch " " :: PyStr.join (u " ") (t2' :: ts2)) in Hjoin.
        apply join_head_inj in Hjoin as [-> Hjoin]; [|done..].
        f_equal. by apply IH.
Qed.

Context (E : Env).

Lemma clean_text_words x :
  clean_text E x =
  match words E (sub_tags x) with
  | Raise e => Raise e
  | Ok ts => Ok (PyStr.join (u " ") ts)
  end.
Proof. unfold clean_text, words. by destruct (nlp E (sub_tags x)). Qed.

Section LosesNothing.

Context (isspace : N -> bool).
Hypothesis lossless : non_destructive E isspace.
Hypothesis space_is_space : isspace (ch " ") = true.

Lemma words_tokens text ts :
  words E text = Ok ts ->
  concat ts = outside_space isspace text /\
  Forall (Forall (fun c => isspace c = false)) ts /\
  Forall (fun t => t <> [] /\ ch " " ∉ t) ts.
Proof.
  unfold words. destruct (nlp E text) as [doc|e] eqn:Hdoc; [|done].
  intros [= <-]. destruct (lossless text doc Hdoc) as [Hconcat Hne].
  assert (Forall (Forall (fun c => isspace c = false)) (token_texts doc)) as Hclean.
  { apply Forall_of_concat. rewrite Hconcat. apply outside_space_clean. }
  split; [done|]. split; [done|].
  rewrite Forall_forall in Hne, Hclean. apply Forall_forall. intros t Ht.
  split; [by apply Hne|]. intros Hin.
  pose proof (Hclean t Ht) as Hc. rewrite Forall_forall in Hc.
  specialize (Hc _ Hin). congruence.
Qed.

(** What [clean_text] returns has the characters its tag-stripped text
    has outside white space. *)
Lemma clean_text_outside x y :
  clean_text E x = Ok y ->
  outside_space isspace y = outside_space isspace (sub_tags x).
Proof.
  rewrite clean_text_words. destruct (words E (sub_tags x)) as [ts|e] eqn:Hts; [|done].
  intros [= <-]. destruct (words_tokens _ _ Hts) as (Hconcat & Hclean & _).
  by rewrite outside_space_join.
Qed.

End LosesNothing.


(** A [<] and a [>] on two lines are no tag; joined with a space they
    are one.  This holds for every tokenizer that returns the two
    characters as tokens and nothing for the empty text. *)
Lemma clean_text_joins_lines :
  words E (lt_sign :: newline :: [gt_sign]) = Ok [[lt_sign]; [gt_sign]] ->
  words E [] = Ok [] ->
  clean_text E (lt_sign :: newline :: [gt_sign]) = Ok (u "< >") /\
  clean_text_twice E (lt_sign :: newline :: [gt_sign]) = Ok [].
Proof.
  intros Hwords Hempty.
  assert (clean_text E (lt_sign :: newline :: [gt_sign]) = Ok (u "< >")) as Hone
    by (rewrite clean_text_words; change (sub_tags _) with (lt_sign :: newline :: [gt_sign]);
        by rewrite Hwords).
  split; [done|]. unfold clean_text_twice. rewrite Hone, clean_text_words.
  change (sub_tags (u "< >")) with (@nil N). by rewrite Hempty.
Qed.

End CleanText.

(** *** The white-space tokenizer *)

Section Whitespace.

Import Demo.

Lemma split_from_words word s :
  Forall (fun c => is_whitespace c = false) word ->
  Forall is_word (split_from word s).
Proof.
  revert word. induction s as [|c s IH]; intros word Hword; simpl.
  - destruct word; [constructor|]. constructor; [by split | constructor].
  - destruct (is_whitespace c) eqn:Hc.
    + destruct word; [by apply IH|]. constructor; [by split | by apply IH].
    + apply IH. apply Forall_app. split; [done|]. by constructor.
Qed.

Lemma split_from_word word t s :
  Forall (fun c => is_whitespace c = false) t ->
  split_from word (t ++ s) = split_from (word ++ t) s.
Proof.
  revert word. induction t as [|c t IH]; intros word Ht; simpl.
  - by rewrite app_nil_r.
  - apply Forall_cons in Ht as [-> Ht]. rewrite IH by done. by rewrite <- app_assoc.
Qed.

Lemma split_from_space word s :
  word <> [] -> split_from word (u " " ++ s) = word :: split_from [] s.
Proof.
  intros Hword. change (u " " ++ s) with (32 :: s). cbn [split_from].
  change (is_whitespace 32) with true. by destruct word.
Qed.

(** Splitting what was joined with single spaces gives the words back. *)
Lemma split_join ts : Forall is_word ts -> split_from [] (PyStr.join (u " ") ts) = ts.
Proof.
  induction ts as [|t ts IH]; intros Hts; [done|].
  apply Forall_cons in Hts as [[Hne Ht] Hts]. destruct ts as [|t2 ts].
  - simpl. rewrite <- (app_nil_r t) at 1. rewrite split_from_word by done.
    simpl. by destruct t.
  - change (PyStr.join (u " ") (t :: t2 :: ts))
      with (t ++ u " " ++ PyStr.join (u " ") (t2 :: ts)).
    rewrite split_from_word by done. rewrite split_from_space by done.
    by rewrite IH.
Qed.

(** The white-space tokenizer loses nothing. *)
Lemma split_from_concat word s :
  concat (split_from word s) =
  word ++ outside_space is_whitespace s.
Proof.
  unfold outside_space. revert word. induction s as [|c s IH]; intros word.
  - simpl. destruct word; [done|]. simpl. by rewrite app_nil_r.
  - cbn [split_from List.filter]. destruct (is_whitespace c); simpl.
    + destruct word; [apply (IH [])|]. simpl. by rewrite (IH []).
    + by rewrite IH, <- app_assoc.
Qed.

Lemma token_texts_tokenize s : token_texts (tokenize s) = split_from [] s.
Proof.
  unfold token_texts, tokenize. generalize (split_from [] s). intros ts.
  induction ts as [|t ts IH]; [done|].
  cbn [fmap list_fmap List.filter is_space negb tok_text] in *. by f_equal.
Qed.

Lemma tokenize_non_destructive status page plan :
  non_destructive (env status page plan) is_whitespace.
Proof.
  intros text doc [= <-]. rewrite token_texts_tokenize. split.
  - apply (split_from_concat []).
  - eapply Forall_impl; [by apply split_from_words|]. by intros t [Ht _].
Qed.

End Whitespace.



(** ** [save_links] and the rest of the run *)

Section SaveLinks.

Context (E : Env).

Lemma save_links_loop_spec path links :
  forall saved w, exists w',
    save_links_loop E path links saved w =
      (match write_plan E path with
       | WriteFails j e =>
           if (saved <=? j)%nat && (j <? saved + length links)%nat
           then (j, Some e) else ((saved + length links)%nat, None)
       | _ => ((saved + length links)%nat, None)
       end, w') /\
    dirs w' = dirs w /\ requests w' = requests w /\ log w' = log w.
Proof.
  induction links as [|link rest IH]; intros saved w.
  - exists w. cbn [save_links_loop length]. rewrite Nat.add_0_r. split; [|done].
    destruct (write_plan E path) as [| |j e|]; try done.
    replace ((saved <=? j)%nat && (j <? saved)%nat) with false; [done|].
    symmetry. apply andb_false_iff.
    destruct (Nat.leb_spec saved j); [right; apply Nat.ltb_ge; lia | by left].
  - cbn [save_links_loop length].
    destruct (IH (S saved) (append_file path (link ++ [Re.newline]) w))
      as (w' & Hrun & Hd & Hr & Hl).
    replace (S saved + length rest)%nat with (saved + S (length rest))%nat in Hrun by lia.
    unfold fwrite.
    destruct (write_plan E path) as [|e|j e|e] eqn:Hplan;
      try (exists w'; by rewrite Hrun).
    destruct (Nat.eqb_spec j saved) as [-> | Hne].
    + exists w. split; [|done].
      replace ((saved <=? saved)%nat && (saved <? saved + S (length rest))%nat)
        with true; [done|].
      symmetry. apply andb_true_iff. split; [apply Nat.leb_le | apply Nat.ltb_lt]; lia.
    + exists w'. rewrite Hrun. split; [|done]. f_equal.
      replace ((S saved <=? j)%nat && (j <? saved + S (length rest))%nat)
        with ((saved <=? j)%nat && (j <? saved + S (length rest))%nat); [done|].
      f_equal. destruct (Nat.leb_spec saved j), (Nat.leb_spec (S saved) j); try done; lia.
Qed.

(** [save_links] never raises.  It returns the number of lines written
    before the fault, and its last word to the logger tells which of
    the two ways it went. *)
Lemma save_links_spec self links w :
  extract_link self = true ->
  exists w',
    save_links E self links w =
      (Ok (links_saved_count (write_plan E (links_file self)) (length links)), w') /\
    last (log w') =
      Some (match links_write_fault (write_plan E (links_file self)) (length links) with
            | Some e => (ERROR, u "Link saving failed: " ++ exn_msg e)
            | None => (INFO, u "Saved " ++ of_nat (length links) ++ u " links")
            end) /\
    dirs w' = dirs w /\ requests w' = requests w.
Proof.
  intros Hon. unfold save_links. rewrite Hon. cbn [negb].
  fold (links_file self). unfold fopen.
  destruct (write_plan E (links_file self)) as [|e|j e|e] eqn:Hplan.
  - destruct (save_links_loop_spec (links_file self) links 0
                (set_files (<[links_file self := []]> (files w)) w))
      as (w2 & -> & Hd & Hr & Hl).
    rewrite Hplan. unfold fclose. rewrite Hplan.
    eexists. split; [reflexivity|]. cbn. by rewrite last_snoc.
  - eexists. split; [reflexivity|]. cbn. by rewrite last_snoc.
  - destruct (save_links_loop_spec (links_file self) links 0
                (set_files (<[links_file self := []]> (files w)) w))
      as (w2 & -> & Hd & Hr & Hl).
    rewrite Hplan. cbn [Nat.leb andb Nat.add links_write_fault links_saved_count].
    destruct (Nat.ltb_spec j (length links)) as [Hlt|Hge].
    + eexists. split; [unfold bind, logger, ret; by rewrite Nat.min_l by lia|].
      cbn. by rewrite last_snoc.
    + unfold fclose. rewrite Hplan.
      eexists. split; [unfold bind, logger, ret; by rewrite Nat.min_r by lia|].
      cbn. by rewrite last_snoc.
  - destruct (save_links_loop_spec (links_file self) links 0
                (set_files (<[links_file self := []]> (files w)) w))
      as (w2 & -> & Hd & Hr & Hl).
    rewrite Hplan. unfold fclose. rewrite Hplan.
    eexists. split; [reflexivity|]. cbn. by rewrite last_snoc.
Qed.

Lemma fetch_page_content_ok self w r :
  http_get E (root_request self) = Ok r ->
  ~ (400 <= status_code r < 600)%Z ->
  exists w', fetch_page_content E self w = (Ok (Some r), w') /\
             not_response (Some r) = false.
Proof.
  intros Hget Hs.
  unfold fetch_page_content, requests_get, bind, record_request, lift.
  fold (root_request self). rewrite Hget. cbn.
  rewrite (raise_for_status_pass (url self) r Hs).
  eexists. split; [reflexivity|].
  unfold response_ok. by rewrite (raise_for_status_pass [] r Hs).
Qed.

Lemma download_images_loop_total self base srcs :
  (forall src, src ∈ srcs -> exists full_url, urljoin E base src = Ok full_url) ->
  forall n w, exists n' w', download_images_loop E self base srcs n w = (Ok n', w').
Proof.
  induction srcs as [|src rest IH]; intros Hjoin n w; [by eexists _, _|].
  destruct (Hjoin src) as [full_url Hfull]; [left|].
  cbn [download_images_loop]. unfold bind at 1, lift at 1. rewrite Hfull.
  destruct (download_image E self src full_url n w) as [n1 w1].
  apply IH. intros s Hs. apply Hjoin. by right.
Qed.

Lemma documents_mode_total self soup base w :
  base_url E self = Ok base ->
  (extract_documents self = true ->
   forall href, href ∈ anchors soup -> exists full_url, urljoin E base href = Ok full_url) ->
  exists n w',
    documents_mode E self soup w =
      (Ok (mode_entry (extract_documents self) (u "Document Downloaded: ") n), w').
Proof.
  intros Hbase Hjoin. unfold documents_mode, mode_entry.
  destruct (extract_documents self) eqn:Hon; [|by exists 0%nat, w].
  destruct (download_documents_count E self soup base w Hon Hbase (Hjoin eq_refl))
    as (w' & Hrun & _).
  unfold bind. rewrite Hrun. by eexists _, _.
Qed.

Lemma images_mode_total self soup base w :
  base_url E self = Ok base ->
  (extract_images self = true ->
   forall src, src ∈ images soup -> exists full_url, urljoin E base src = Ok full_url) ->
  exists n w',
    images_mode E self soup w =
      (Ok (mode_entry (extract_images self) (u "Images Downloaded: ") n), w').
Proof.
  intros Hbase Hjoin. unfold images_mode, mode_entry.
  destruct (extract_images self) eqn:Hon; [|by exists 0%nat, w].
  unfold download_images. rewrite Hon. cbn [negb].
  unfold bind at 1 2, lift at 1. rewrite Hbase.
  unfold bind at 1.
  destruct (download_images_loop_total self base (images soup) (Hjoin eq_refl) 0%nat w)
    as (n & w1 & ->).
  unfold bind, logger, ret. by eexists _, _.
Qed.

Lemma text_mode_total self soup w :
  exists t w',
    text_mode E self soup w = (Ok (if extract_text self then [t] else []), w').
Proof.
  unfold text_mode, save_webpage_text.
  destruct (extract_text self); [|by exists None, w]. cbn [negb].
  unfold bind at 1, try_except.
  match goal with |- context [bind ?m ?k w] => destruct (bind m k w) as [[t|e] w1] end.
  - by eexists _, _.
  - unfold bind, logger, ret. by eexists _, _.
Qed.


End SaveLinks.


(** The same fault in a whole run: three links counted, the other modes
    follow. *)
Example flush_failure_summary :
  fst (scrape (Demo.env 200 Demo.page DemoPages.full_disk)
         (Demo.scraper true true true true) Demo.world) =
  Ok (Some [Some (u "Link Extracted: 3"); Some (u "Document Downloaded: 2");
            Some (u "Images Downloaded: 1"); Some (u "Text extracted.")]).
Proof. vm_compute. reflexivity. Qed.

(** When the second write raises, one link is counted. *)
Example second_write_fails_counts_one :
  fst (save_links (Demo.env 200 Demo.page DemoPages.second_write)
         (Demo.scraper true true true true)
         [u "https://example.com/a"; u "https://example.com/b"] Demo.world) = Ok 1%nat.
Proof. vm_compute. reflexivity. Qed.

(** When [open] raises, none is. *)
Example open_fails_counts_zero :
  fst (save_links (Demo.env 200 Demo.page (fun _ => OpenFails (OSError (u "Permission denied"))))
         (Demo.scraper true true true true)
         [u "https://example.com/a"; u "https://example.com/b"] Demo.world) = Ok 0%nat.
Proof. vm_compute. reflexivity. Qed.


(** ** More on [fetch_page_content] *)

Section FetchOutcome.

Context (E : Env).

(** The four ways [fetch_page_content] can go.  It makes one request, for
    the URL of the scraper with the browser's user agent and a timeout
    of 10 seconds, and touches nothing else but the log.  A response
    whose status is outside 400..599 is returned; a status inside, or a
    [RequestException], gives [None] and one error record; any other
    exception of [requests.get] is not caught. *)
Theorem fetch_page_content_outcome self w :
  let res := fetch_page_content E self w in
  requests (snd res) = requests w ++ [root_request self] /\
  dirs (snd res) = dirs w /\ files (snd res) = files w /\
  stdout (snd res) = stdout w /\
  match http_get E (root_request self) with
  | Ok r =>
      if bool_decide (400 <= status_code r < 600)%Z
      then fst res = Ok None /\
           exists msg, log (snd res) = log w ++ [(ERROR, u "Webpage fetch failed: " ++ msg)]
      else fst res = Ok (Some r) /\ log (snd res) = log w
  | Raise e =>
      if is_RequestException e
      then fst res = Ok None /\
           log (snd res) = log w ++ [(ERROR, u "Webpage fetch failed: " ++ exn_msg e)]
      else fst res = Raise e /\ log (snd res) = log w
  end.
Proof.
  unfold fetch_page_content, requests_get, bind, record_request, lift.
  fold (root_request self).
  destruct (http_get E (root_request self)) as [r|e]; cbn [fst snd].
  - case_bool_decide as Hs.
    + destruct (raise_for_status_error (url self) r Hs) as [msg ->].
      cbn. repeat split; try done. by exists msg.
    + rewrite (raise_for_status_pass (url self) r Hs). by cbn.
  - destruct e; by cbn.
Qed.

End FetchOutcome.

(** ** More on [save_links] *)

Section SaveLinksContent.

Context (E : Env).

Lemma set_files_same w : set_files (files w) w = w.
Proof. by destruct w. Qed.

Lemma save_links_loop_files path links :
  forall saved w old,
    files w !! path = Some old ->
    match write_plan E path with
    | WriteFails j _ => ~ (saved <= j < saved + length links)%nat
    | _ => True
    end ->
    save_links_loop E path links saved w =
      (((saved + length links)%nat, None),
       set_files (<[path := old ++ links_text links]> (files w)) w).
Proof.
  induction links as [|link rest IH]; intros saved w old Hold Hplan.
  - cbn [save_links_loop length links_text fmap list_fmap concat].
    rewrite Nat.add_0_r, app_nil_r, insert_id, set_files_same by done. done.
  - cbn [save_links_loop length]. unfold fwrite.
    assert (fwrite_ok :
      match write_plan E path with
      | WriteFails j e =>
          if (j =? saved)%nat then (Raise e, w)
          else (Ok tt, append_file path (link ++ [Re.newline]) w)
      | _ => (Ok tt, append_file path (link ++ [Re.newline]) w)
      end = (Ok tt, append_file path (link ++ [Re.newline]) w)).
    { destruct (write_plan E path) as [| |j e|]; try done.
      destruct (Nat.eqb_spec j saved) as [-> | Hne]; [|done].
      exfalso. apply Hplan. simpl. lia. }
    rewrite fwrite_ok.
    rewrite (IH (S saved) (append_file path (link ++ [Re.newline]) w)
               (old ++ link ++ [Re.newline])).
    + unfold append_file. rewrite Hold. cbn [default files set_files].
      rewrite insert_insert_eq. unfold links_text. cbn [fmap list_fmap concat].
      rewrite <- !app_assoc.
      replace (S saved + length rest)%nat with (saved + S (length rest))%nat by lia.
      reflexivity.
    + unfold append_file. cbn [files set_files]. by rewrite lookup_insert_eq, Hold.
    + destruct (write_plan E path) as [| |j e|]; try done.
      intros Hj. apply Hplan. simpl. lia.
Qed.

(** When no fault hits the writing, [save_links] returns the number of
    links, [links.txt] holds every link followed by a newline, in the
    order of the list, whatever the file held before, and one record
    says how many were saved. *)
Theorem save_links_writes_every_link self links w :
  extract_link self = true ->
  links_write_fault (write_plan E (links_file self)) (length links) = None ->
  exists w',
    save_links E self links w = (Ok (length links), w') /\
    files w' = <[links_file self := links_text links]> (files w) /\
    log w' = log w ++ [(INFO, u "Saved " ++ of_nat (length links) ++ u " links")] /\
    dirs w' = dirs w /\ requests w' = requests w /\ stdout w' = stdout w.
Proof.
  intros Hon Hfault. unfold save_links. rewrite Hon. cbn [negb].
  fold (links_file self). unfold fopen, fclose.
  assert (match write_plan E (links_file self) with
          | WriteFails j _ => ~ (0 <= j < 0 + length links)%nat
          | _ => True
          end) as Hplan.
  { destruct (write_plan E (links_file self)) as [| |j e|]; try done.
    simpl in Hfault. destruct (Nat.ltb_spec j (length links)); [done | lia]. }
  destruct (write_plan E (links_file self)) as [|e|j e|e] eqn:Hp; try discriminate.
  - rewrite (save_links_loop_files (links_file self) links 0 _ []);
      [|by cbn; rewrite lookup_insert_eq | by rewrite Hp].
    eexists. split; [reflexivity|]. cbn. by rewrite insert_insert_eq.
  - rewrite (save_links_loop_files (links_file self) links 0 _ []);
      [|by cbn; rewrite lookup_insert_eq | by rewrite Hp].
    eexists. split; [reflexivity|]. cbn. by rewrite insert_insert_eq.
Qed.

End SaveLinksContent.

Lemma save_links_writes_every_link_witness :
  let E := Demo.env 200 Demo.page Demo.no_fault in
  let self := Demo.scraper false true false false in
  exists w',
    save_links E self [u "https://example.com/a"; u "https://example.com/b"] Demo.world
    = (Ok 2%nat, w') /\
    files w' !! links_file self =
      Some (u "https://example.com/a" ++ [Re.newline] ++
            u "https://example.com/b" ++ [Re.newline]).
Proof.
  intros E self.
  destruct (save_links_writes_every_link E self
              [u "https://example.com/a"; u "https://example.com/b"] Demo.world)
    as (w' & Hrun & Hfiles & _).
  - reflexivity.
  - reflexivity.
  - exists w'. split; [exact Hrun|]. rewrite Hfiles, lookup_insert_eq. reflexivity.
Defined.

(** ** More on the text extraction *)

Section ExtractionOutcome.

Context (E : Env).

Lemma keeps_extract_text_from_document_at self filepath :
  keeps (eq (text_path_of (docs_dir self) filepath))
    (extract_text_from_document E self filepath).
Proof.
  unfold extract_text_from_document.
  destruct (extract_documents self); simpl; [|auto with py].
  apply keeps_try_except; [|auto with py].
  destruct (document_reader _ _ _) as [read|] eqn:Hread; [|auto with py].
  apply keeps_bind.
  - eapply keeps_weaken; [|by eapply keeps_document_reader]. by intros p [].
  - intros text. apply keeps_bind; [auto with py | intros cleaned_text].
    apply keeps_write_file.
Qed.


(** The readers only read. *)
Lemma read_file_missing path w :
  read_fault E path = None ->
  files w !! path = None ->
  read_file E path w = (Raise (OSError (no_such_file E path)), w).
Proof. unfold read_file. by intros -> ->. Qed.

Lemma read_file_present path w data :
  files w !! path = Some data -> read_file E path w = (Ok data, w).
Proof. unfold read_file. by intros ->. Qed.

(** The extensions of the formats the method opens with [open] itself,
    and of those a library is given the path of. *)
Lemma document_reader_opened file_ext filepath w :
  file_ext ∈ [u ".pdf"; u ".csv"; u ".txt"] ->
  read_fault E filepath = None ->
  files w !! filepath = None ->
  exists read,
    document_reader E file_ext filepath = Some read /\
    read w = (Raise (OSError (no_such_file E filepath)), w).
Proof.
  intros Hext Hfault Hmissing.
  repeat (apply elem_of_cons in Hext as [-> | Hext]); [..|by apply elem_of_nil in Hext];
    (eexists; split; [reflexivity|]);
    unfold extract_pdf_text, extract_csv_text, extract_plain_text, detect_encoding, bind;
    by rewrite (read_file_missing _ _ Hfault Hmissing).
Qed.

Lemma document_reader_docx file_ext filepath :
  file_ext ∈ [u ".docx"; u ".doc"] ->
  document_reader E file_ext filepath = Some (extract_docx_text E filepath).
Proof.
  intros Hext.
  repeat (apply elem_of_cons in Hext as [-> | Hext]); [..|by apply elem_of_nil in Hext];
    reflexivity.
Qed.

Lemma document_reader_excel file_ext filepath :
  file_ext ∈ [u ".xls"; u ".xlsx"] ->
  document_reader E file_ext filepath = Some (extract_excel_text E filepath).
Proof.
  intros Hext.
  repeat (apply elem_of_cons in Hext as [-> | Hext]); [..|by apply elem_of_nil in Hext];
    reflexivity.
Qed.

(** A document that is not on disk.  For the formats the method opens
    with [open] ([.pdf], [.csv], [.txt]) the error printed is that of
    [open]: no such file, with the [repr] of the path.  For the formats
    a library opens ([.docx] and [.doc], [.xls] and [.xlsx]) it is the
    error of the library.  Nothing else happens. *)
Theorem extract_text_from_missing_document self filepath w :
  extract_documents self = true ->
  files w !! filepath = None ->
  let file_ext := lower E (snd (PosixPath.splitext filepath)) in
  let report (msg : list N) :=
    (Ok tt, printed (u "Error extracting text from document " ++ filepath ++
                     u ": " ++ msg) w) in
  (file_ext ∈ [u ".pdf"; u ".csv"; u ".txt"] ->
   read_fault E filepath = None ->
   extract_text_from_document E self filepath w =
     report (u "[Errno 2] No such file or directory: " ++ repr E filepath)) /\
  (forall e,
      file_ext ∈ [u ".docx"; u ".doc"] ->
      docx_paragraphs E filepath None = Raise e ->
      extract_text_from_document E self filepath w = report (exn_msg e)) /\
  (forall e,
      file_ext ∈ [u ".xls"; u ".xlsx"] ->
      excel_rows E filepath None = Raise e ->
      extract_text_from_document E self filepath w = report (exn_msg e)).
Proof.
  intros Hon Hmissing file_ext report. subst report.
  unfold extract_text_from_document, try_except. rewrite Hon. cbn [negb].
  fold file_ext. split; [|split].
  - intros Hext Hfault.
    destruct (document_reader_opened _ filepath w Hext Hfault Hmissing)
      as (read & -> & Hread).
    unfold bind at 1. by rewrite Hread.
  - intros e Hext Hraise. rewrite (document_reader_docx _ filepath Hext).
    unfold extract_docx_text, bind, peek, lift. by rewrite Hmissing, Hraise.
  - intros e Hext Hraise. rewrite (document_reader_excel _ filepath Hext).
    unfold extract_excel_text, bind, peek, lift. by rewrite Hmissing, Hraise.
Qed.

Lemma foldl_pages (pages : list (option (list N))) (text : list N) :
  foldl (fun text page => text ++ default [] page) text pages =
  text ++ concat (default [] <$> pages).
Proof.
  revert text. induction pages as [|page pages IH]; intros text; simpl.
  - by rewrite app_nil_r.
  - by rewrite IH, <- app_assoc.
Qed.

(** A PDF on disk that PyPDF2 can read; its text is the texts of the
    pages one after the other, a page without text counting as empty.
    When the tokenizer returns and the write goes through, the text file
    beside the PDF gets the cleaned text and nothing else changes.  When
    the tokenizer raises (the text is too long for it), the error is
    printed and no file is written. *)
Theorem extract_text_from_pdf self filepath w data pages :
  extract_documents self = true ->
  lower E (snd (PosixPath.splitext filepath)) = u ".pdf" ->
  files w !! filepath = Some data ->
  pdf_pages E data = Ok pages ->
  (forall cleaned_text,
      clean_text E (concat (default [] <$> pages)) = Ok cleaned_text ->
      write_fails (write_plan E (text_path_of (docs_dir self) filepath)) = false ->
      extract_text_from_document E self filepath w =
        (Ok tt,
         set_files (<[text_path_of (docs_dir self) filepath := cleaned_text]> (files w)) w)) /\
  (forall e,
      clean_text E (concat (default [] <$> pages)) = Raise e ->
      extract_text_from_document E self filepath w =
        (Ok tt, printed (u "Error extracting text from document " ++ filepath ++
                         u ": " ++ exn_msg e) w)).
Proof.
  intros Hon Hext Hdata Hpages. unfold extract_text_from_document, try_except.
  rewrite Hon, Hext. cbn [negb].
  change (document_reader E (u ".pdf") filepath) with (Some (extract_pdf_text E filepath)).
  unfold extract_pdf_text. unfold bind, lift.
  rewrite (read_file_present _ _ _ Hdata), Hpages. unfold ret.
  fold (text_path_of (docs_dir self) filepath).
  rewrite foldl_pages. cbn [app]. split.
  - intros cleaned_text -> Hplan. by rewrite write_file_ok.
  - by intros e ->.
Qed.

End ExtractionOutcome.

Lemma extract_text_from_missing_document_witness :
  let E := Demo.env 200 Demo.page Demo.no_fault in
  let self := Demo.scraper false false true false in
  extract_text_from_document E self (u "/tmp/nowhere/report.PDF") Demo.world =
    (Ok tt,
     printed (u "Error extracting text from document /tmp/nowhere/report.PDF: " ++
              u "[Errno 2] No such file or directory: '/tmp/nowhere/report.PDF'")
       Demo.world).
Proof.
  intros E self.
  rewrite (proj1 (extract_text_from_missing_document E self (u "/tmp/nowhere/report.PDF")
                    Demo.world eq_refl eq_refl)).
  - reflexivity.
  - apply (bool_decide_unpack _). vm_compute. exact I.
  - reflexivity.
Defined.

(** The second text has eleven characters, more than the pipeline of
    [DemoPages.short_texts] takes. *)
Lemma extract_text_from_pdf_witness :
  let self := Demo.scraper false false true false in
  let w := set_files {[ u "/tmp/d/a.pdf" := u "<p>two   words</p>" ]} Demo.world in
  files (snd (extract_text_from_document (Demo.env 200 Demo.page Demo.no_fault) self
                (u "/tmp/d/a.pdf") w)) !!
    u "/tmp/examplecompage_20240309_140507/documents/a.txt" = Some (u "two words") /\
  files (snd (extract_text_from_document DemoPages.short_texts self
                (u "/tmp/d/a.pdf") w)) = files w.
Proof.
  intros self w. split.
  - rewrite (proj1 (extract_text_from_pdf (Demo.env 200 Demo.page Demo.no_fault) self
                      (u "/tmp/d/a.pdf") w (u "<p>two   words</p>")
                      [Some (u "<p>two   words</p>")]
                      eq_refl eq_refl eq_refl eq_refl)
               (u "two words") eq_refl eq_refl).
    reflexivity.
  - rewrite (proj2 (extract_text_from_pdf DemoPages.short_texts self
                      (u "/tmp/d/a.pdf") w (u "<p>two   words</p>")
                      [Some (u "<p>two   words</p>")]
                      eq_refl eq_refl eq_refl eq_refl)
               (ValueError (u "[E088] Text exceeds maximum")) eq_refl).
    reflexivity.
Defined.


(** ** More on one document *)

Section PathsMore.

Import PosixPath.

Lemma rfind_sep_relative d' b :
  sep ∉ b -> d' = [] \/ (exists d'', d' = d'' ++ [sep]) ->
  Z.to_nat (rfind sep (d' ++ b) + 1) = length d'.
Proof.
  intros Hb Hd. rewrite rfind_app, decide_False by done.
  destruct Hd as [-> | [d'' ->]]; [done|].
  rewrite rfind_app, decide_True by (by left). rewrite length_app. simpl.
  unfold rfind at 1. simpl. lia.
Qed.

Lemma basename_join d b : sep ∉ b -> basename (join d b) = b.
Proof.
  intros Hb. destruct (join_relative d b Hb) as (d' & -> & Hd').
  unfold basename. rewrite rfind_sep_relative by done. apply drop_app_length.
Qed.

Lemma splitext_concat p : fst (splitext p) ++ snd (splitext p) = p.
Proof.
  unfold splitext.
  destruct (rfind sep p <? rfind extsep p)%Z; [|apply app_nil_r].
  destruct (existsb _ _); [apply take_drop | apply app_nil_r].
Qed.

(** The text of a document named [x.txt] goes to [x.txt] itself. *)
Lemma text_path_of_txt d href :
  snd (splitext (basename href)) = u ".txt" ->
  text_path_of d (join d (basename href)) = join d (basename href).
Proof.
  intros Hext. unfold text_path_of.
  rewrite basename_join by apply basename_no_sep.
  by rewrite <- Hext, splitext_concat.
Qed.

End PathsMore.

Section DocumentOutcome.

Context (E : Env).

(** A document whose base name ends in [.txt], fetched and saved; the
    text file of a document [x.txt] is [x.txt] itself.  When the bytes
    decode under the encoding chardet detects and the tokenizer returns,
    the cleaned text is written over the bytes that were downloaded.
    When the decoding or the tokenizer raises, the error is printed and
    the bytes stay.  The document is counted in both cases. *)
Theorem txt_document_is_overwritten self href full_url n w r :
  extract_documents self = true ->
  http_get E (asset_request full_url) = Ok r ->
  write_fails (write_plan E (document_path self href)) = false ->
  snd (PosixPath.splitext (PosixPath.basename href)) = u ".txt" ->
  lower E (u ".txt") = u ".txt" ->
  let decoded :=
    decode E (default (u "utf-8") (chardet_encoding E (content r))) (content r) in
  (forall text cleaned_text,
      decoded = Ok text ->
      clean_text E text = Ok cleaned_text ->
      exists w',
        download_document E self href full_url n w = (S n, w') /\
        files w' = <[document_path self href := cleaned_text]> (files w) /\
        stdout w' = stdout w) /\
  (forall e,
      decoded = Raise e \/ (exists text, decoded = Ok text /\ clean_text E text = Raise e) ->
      exists w',
        download_document E self href full_url n w = (S n, w') /\
        files w' = <[document_path self href := content r]> (files w) /\
        stdout w' = stdout w ++ [u "Error extracting text from document " ++
                                 document_path self href ++ u ": " ++ exn_msg e]).
Proof.
  intros Hon Hget Hplan Hext Hlower decoded.
  destruct (download_document_saved E self href full_url n w r Hget Hplan)
    as (w2 & w3 & Hfiles & Hout & Hextract & Hrun).
  assert (files w2 !! document_path self href = Some (content r)) as Hdata
    by (by rewrite Hfiles, lookup_insert_eq).
  revert Hextract. unfold extract_text_from_document, try_except.
  rewrite Hon. cbn [negb]. unfold document_path at 1.
  rewrite splitext_join_basename, Hext, Hlower.
  change (document_reader E (u ".txt") ?p) with (Some (extract_plain_text E p)).
  unfold extract_plain_text, detect_encoding, bind, lift.
  rewrite (read_file_present _ _ _ _ Hdata). unfold ret.
  rewrite (read_file_present _ _ _ _ Hdata). fold decoded.
  fold (text_path_of (docs_dir self) (document_path self href)).
  unfold document_path at 1. rewrite text_path_of_txt by done.
  fold (document_path self href). intros Hextract. split.
  - intros text cleaned_text Hdecoded Hclean. exists w3. split; [done|].
    revert Hextract. rewrite Hdecoded, Hclean, write_file_ok by done.
    intros [= <-]. cbn [files set_files stdout]. by rewrite Hfiles, insert_insert_eq.
  - intros e Hraise. exists w3. split; [done|]. revert Hextract.
    destruct Hraise as [-> | (text & -> & ->)]; intros [= <-];
      cbn [files stdout print snd]; by rewrite Hfiles, Hout.
Qed.

(** A document that cannot be fetched, or whose file cannot be opened,
    is skipped: the counter stays, one warning is logged, no file
    changes.  When the file opens and the write raises, a file is left
    at the path of the document, and the document is not counted
    either. *)
Theorem failed_document_is_skipped self href full_url n w :
  (forall e,
      http_get E (asset_request full_url) = Raise e ->
      download_document E self href full_url n w =
        (n, {| dirs := dirs w; files := files w;
               requests := requests w ++ [asset_request full_url];
               log := log w ++ [(WARNING, u "Document download failed: " ++ exn_msg e)];
               stdout := stdout w |})) /\
  (forall r e,
      http_get E (asset_request full_url) = Ok r ->
      write_plan E (document_path self href) = OpenFails e ->
      download_document E self href full_url n w =
        (n, {| dirs := dirs w; files := files w;
               requests := requests w ++ [asset_request full_url];
               log := log w ++ [(WARNING, u "Document download failed: " ++ exn_msg e)];
               stdout := stdout w |})) /\
  (forall r e,
      http_get E (asset_request full_url) = Ok r ->
      write_plan E (document_path self href) = WriteFails 0 e ->
      exists w',
        download_document E self href full_url n w = (n, w') /\
        is_Some (files w' !! document_path self href) /\
        (forall p, p <> document_path self href -> files w' !! p = files w !! p) /\
        log w' = log w ++ [(WARNING, u "Document download failed: " ++ exn_msg e)]).
Proof.
  unfold download_document, requests_get, bind, record_request, lift.
  fold (asset_request full_url). fold (document_path self href).
  split; [|split].
  - intros e ->. reflexivity.
  - intros r e -> Hplan. unfold write_file, bind, fopen. by rewrite Hplan.
  - intros r e -> Hplan. unfold write_file, bind, fopen, fwrite. rewrite Hplan.
    eexists. split; [reflexivity|]. cbn. split; [by rewrite lookup_insert_eq|].
    split; [|done]. intros p Hp. by rewrite lookup_insert_ne.
Qed.

End DocumentOutcome.

(** The answer for [/notes.txt] is the page of the 404; its text has
    nine characters, more than the pipeline of [DemoPages.short_texts]
    takes. *)
Lemma txt_document_is_overwritten_witness :
  let self := Demo.scraper false false true false in
  (exists w',
      download_document (Demo.env 200 Demo.page Demo.no_fault) self (u "/notes.txt")
        (u "https://example.com/notes.txt") 0 Demo.world = (1%nat, w') /\
      files w' = {[ u "/tmp/examplecompage_20240309_140507/documents/notes.txt" :=
                    u "Not Found" ]}) /\
  (exists w',
      download_document DemoPages.short_texts self (u "/notes.txt")
        (u "https://example.com/notes.txt") 0 Demo.world = (1%nat, w') /\
      files w' = {[ u "/tmp/examplecompage_20240309_140507/documents/notes.txt" :=
                    u "<h1>Not Found</h1>" ]}).
Proof.
  intros self. split.
  - destruct (proj1 (txt_document_is_overwritten (Demo.env 200 Demo.page Demo.no_fault)
                       self (u "/notes.txt") (u "https://example.com/notes.txt") 0
                       Demo.world
                       {| status_code := 404; reason := u "Not Found";
                          content := u "<h1>Not Found</h1>";
                          text := u "<h1>Not Found</h1>" |}
                       eq_refl eq_refl eq_refl eq_refl eq_refl)
                (u "<h1>Not Found</h1>") (u "Not Found") eq_refl eq_refl)
      as (w' & Hrun & Hfiles & _).
    exists w'. split; [exact Hrun|]. rewrite Hfiles. reflexivity.
  - destruct (proj2 (txt_document_is_overwritten DemoPages.short_texts
                       self (u "/notes.txt") (u "https://example.com/notes.txt") 0
                       Demo.world
                       {| status_code := 404; reason := u "Not Found";
                          content := u "<h1>Not Found</h1>";
                          text := u "<h1>Not Found</h1>" |}
                       eq_refl eq_refl eq_refl eq_refl eq_refl)
                (ValueError (u "[E088] Text exceeds maximum"))
                (or_intror (ex_intro _ (u "<h1>Not Found</h1>") (conj eq_refl eq_refl))))
      as (w' & Hrun & Hfiles & _).
    exists w'. split; [exact Hrun|]. rewrite Hfiles. reflexivity.
Defined.

Lemma failed_document_is_skipped_witness :
  let E := Demo.env 200 Demo.page Demo.no_fault in
  let self := Demo.scraper false false true false in
  fst (download_document E self (u "/missing.pdf") (u "https://example.com/missing.pdf") 3
         Demo.world) = 3%nat /\
  files (snd (download_document E self (u "/missing.pdf")
                (u "https://example.com/missing.pdf") 3 Demo.world)) = ∅.
Proof.
  intros E self.
  rewrite (proj1 (failed_document_is_skipped E self (u "/missing.pdf")
                    (u "https://example.com/missing.pdf") 3 Demo.world)
             (RequestException (u "Read timed out.")) eq_refl).
  split; reflexivity.
Defined.

(** ** [download_images] *)

Section DownloadImages.

Context (E : Env).

Lemma download_image_count self src full_url n w :
  fst (download_image E self src full_url n w) =
  if fetch_or_save_fails E (image_path self src) full_url then n else S n.
Proof.
  unfold download_image, fetch_or_save_fails, requests_get, bind,
    record_request, lift, asset_request.
  destruct (http_get E _) as [r|e]; [|done].
  fold (image_path self src).
  destruct (write_fails _) eqn:Hplan.
  - edestruct write_file_fails as (e & w' & ->); done.
  - rewrite write_file_ok by done.
    by destruct (extract_text_from_image E self _ _) as [[[]|e] w3].
Qed.

Lemma download_image_world self src full_url n w :
  let w' := snd (download_image E self src full_url n w) in
  requests w' = requests w ++ [asset_request full_url] /\ dirs w' = dirs w.
Proof.
  unfold download_image, requests_get, bind, record_request, lift.
  fold (asset_request full_url). fold (image_path self src).
  destruct (http_get E _) as [r|e]; [|by simpl].
  match goal with |- context [write_file E ?p ?d ?w1] =>
    pose proof (keeps_write_file E p d w1) as (Hd & Hr & Hf);
    destruct (write_file E p d w1) as [[[]|e] w2] end; simpl in *.
  - pose proof (keeps_extract_text_from_image E self src w2) as (Hd' & Hr' & Hf').
    destruct (extract_text_from_image E self _ w2) as [[[]|e] w3]; simpl in *;
      split; congruence.
  - by split.
Qed.

Lemma download_images_loop_spec self base srcs :
  (forall src, src ∈ srcs -> exists full_url, urljoin E base src = Ok full_url) ->
  forall n w, exists w',
    download_images_loop E self base srcs n w =
      (Ok (n + length (List.filter (fun src => negb (image_fails E self base src)) srcs))%nat,
       w') /\
    requests w' = requests w ++ image_requests E base srcs /\
    dirs w' = dirs w.
Proof.
  induction srcs as [|src rest IH]; intros Hjoin n w.
  - exists w. simpl. by rewrite Nat.add_0_r, app_nil_r.
  - destruct (Hjoin src) as [full_url Hfull]; [left|].
    assert (forall s, s ∈ rest -> exists f, urljoin E base s = Ok f) as Hrest
      by (intros s Hs; apply Hjoin; by right).
    assert (image_requests E base (src :: rest) =
            asset_request full_url :: image_requests E base rest) as ->
      by (unfold image_requests; cbn [omap list_omap]; by rewrite Hfull).
    assert (image_fails E self base src =
            fetch_or_save_fails E (image_path self src) full_url) as Hfails
      by (unfold image_fails; by rewrite Hfull).
    cbn [download_images_loop List.filter]. unfold bind at 1, lift at 1.
    rewrite Hfull, Hfails.
    pose proof (download_image_count self src full_url n w) as Hn.
    pose proof (download_image_world self src full_url n w) as (Hr & Hd).
    destruct (download_image E self src full_url n w) as [n1 w1]. simpl in *.
    destruct (IH Hrest n1 w1) as (w' & -> & Hr' & Hd').
    exists w'. rewrite Hr', Hr, Hd', Hd, <- app_assoc. subst n1.
    destruct (fetch_or_save_fails E _ _); simpl; repeat split; f_equal; f_equal; lia.
Qed.

Lemma image_requests_length base srcs :
  (forall src, src ∈ srcs -> exists full_url, urljoin E base src = Ok full_url) ->
  length (image_requests E base srcs) = length srcs.
Proof.
  induction srcs as [|src rest IH]; intros Hjoin; [done|].
  destruct (Hjoin src) as [full_url Hfull]; [left|].
  unfold image_requests in *. cbn [omap list_omap]. rewrite Hfull. simpl.
  f_equal. apply IH. intros s Hs. apply Hjoin. by right.
Qed.

Lemma filter_negb_length {A} (f : A -> bool) (l : list A) :
  (length (List.filter (fun x => negb (f x)) l) + length (List.filter f l))%nat = length l.
Proof. induction l as [|x l IH]; simpl; [done|]. destruct (f x); simpl; lia. Qed.

(** When every source of the page resolves, [download_images] returns
    the number of images less those whose fetch or save fails; it makes
    one request for every image tag, in the order of the page, whatever
    the name of the source; it makes no directory. *)
Theorem download_images_count self soup base w :
  extract_images self = true ->
  base_url E self = Ok base ->
  (forall src, src ∈ images soup -> exists full_url, urljoin E base src = Ok full_url) ->
  exists w',
    download_images E self soup w =
      (Ok (length (images soup) -
           length (List.filter (image_fails E self base) (images soup)))%nat, w') /\
    requests w' = requests w ++ image_requests E base (images soup) /\
    length (image_requests E base (images soup)) = length (images soup) /\
    dirs w' = dirs w.
Proof.
  intros Hon Hbase Hjoin. unfold download_images. rewrite Hon. cbn [negb].
  unfold bind at 1, lift at 1. rewrite Hbase. unfold bind at 1.
  destruct (download_images_loop_spec self base (images soup) Hjoin 0%nat w)
    as (w1 & -> & Hr & Hd).
  pose proof (filter_negb_length (image_fails E self base) (images soup)) as Hlen.
  replace (length (images soup) -
           length (List.filter (image_fails E self base) (images soup)))%nat
    with (0 + length (List.filter (fun src => negb (image_fails E self base src))
                        (images soup)))%nat by lia.
  unfold bind, logger, ret. eexists. split; [reflexivity|]. cbn [requests dirs].
  split; [exact Hr|]. split; [|exact Hd].
  by apply image_requests_length.
Qed.

Lemma download_images_loop_raises self base srcs src e :
  src ∈ srcs -> urljoin E base src = Raise e ->
  forall n w, exists e' w', download_images_loop E self base srcs n w = (Raise e', w').
Proof.
  intros Hin Hraise. induction srcs as [|s rest IH]; [by apply elem_of_nil in Hin|].
  intros n w. cbn [download_images_loop]. unfold bind at 1, lift at 1.
  destruct (urljoin E base s) as [full_url|e0] eqn:Hs; [|by eexists _, _].
  assert (src ∈ rest) as Hrest.
  { apply elem_of_cons in Hin as [-> | Hin]; [congruence | done]. }
  destruct (download_image E self s full_url n w) as [n1 w1]. by apply IH.
Qed.

(** [download_images] resolves the source of every image outside the
    [try] block too: a source that [urljoin] refuses makes it raise. *)
Theorem download_images_raises_on_unresolved_src self soup base src e w :
  extract_images self = true ->
  base_url E self = Ok base ->
  src ∈ images soup ->
  urljoin E base src = Raise e ->
  exists e' w', download_images E self soup w = (Raise e', w').
Proof.
  intros Hon Hbase Hin Hraise. unfold download_images. rewrite Hon. cbn [negb].
  unfold bind at 1, lift at 1. rewrite Hbase. unfold bind at 1.
  destruct (download_images_loop_raises self base _ src e Hin Hraise 0%nat w)
    as (e' & w' & ->).
  by eexists _, _.
Qed.

End DownloadImages.

Lemma download_images_count_witness :
  let E := Demo.env 200 Demo.page Demo.no_fault in
  let soup := {| anchors := []; images := [u "/img/logo.png"; u "/img/missing.gif"];
                 get_text := Ok [] |} in
  exists w',
    download_images E (Demo.scraper false false false true) soup Demo.world = (Ok 1%nat, w') /\
    req_url <$> requests w' =
      [u "https://example.com/img/logo.png"; u "https://example.com/img/missing.gif"].
Proof.
  intros E soup.
  destruct (download_images_count E (Demo.scraper false false false true) soup
              (u "https://example.com") Demo.world) as (w' & Hrun & Hreq & _).
  - reflexivity.
  - reflexivity.
  - intros src Hin. apply list_elem_of_In in Hin. simpl in Hin.
    destruct Hin as [<- | [<- | []]]; eexists; reflexivity.
  - exists w'. split; [exact Hrun|]. rewrite Hreq. reflexivity.
Defined.

Lemma download_images_raises_on_unresolved_src_witness :
  let E := Demo.env 200 Demo.page Demo.no_fault in
  let soup := {| anchors := []; images := [u "/img/logo.png"; u "//["];
                 get_text := Ok [] |} in
  exists e' w',
    download_images E (Demo.scraper false false false true) soup Demo.world = (Raise e', w').
Proof.
  intros E soup.
  apply (download_images_raises_on_unresolved_src E (Demo.scraper false false false true)
           soup (u "https://example.com") (u "//[") (ValueError (u "Invalid IPv6 URL"))).
  - reflexivity.
  - reflexivity.
  - apply list_elem_of_In. simpl. auto.
  - reflexivity.
Defined.

(** ** More on the run *)

Section Run.

Context (E : Env).

(** When every reference of the page resolves, [download_documents]
    returns N - M, where N anchors pass the extension test and the fetch
    or the save fails for M of them; it has made one request for each of
    the N, made no directory, and its last record gives the count. *)
Theorem download_documents_returns_successes self soup base w :
  extract_documents self = true ->
  base_url E self = Ok base ->
  (forall href, href ∈ anchors soup -> exists full_url, urljoin E base href = Ok full_url) ->
  let N := candidates E (anchors soup) in
  let M := failures E self base (anchors soup) in
  exists w',
    download_documents E self soup w = (Ok (N - M)%nat, w') /\
    (M <= N)%nat /\
    requests w' = requests w ++ document_requests E base (anchors soup) /\
    dirs w' = dirs w /\
    last (log w') = Some (INFO, u "Downloaded " ++ of_nat (N - M) ++ u " documents").
Proof.
  intros Hon Hbase Hjoin N M. unfold download_documents. rewrite Hon. cbn [negb].
  unfold bind at 1, lift at 1. rewrite Hbase. unfold bind at 1.
  destruct (download_documents_loop_spec E self base (anchors soup) Hjoin 0%nat w)
    as (w1 & -> & Hr & Hd).
  destruct (candidates_failures E self base (anchors soup)) as [-> Hle].
  fold N M. unfold bind, logger, ret. eexists. split; [reflexivity|].
  cbn [requests dirs log]. repeat split; try done. by rewrite last_snoc.
Qed.

Lemma fetch_page_content_ok_world self w r :
  http_get E (root_request self) = Ok r ->
  ~ (400 <= status_code r < 600)%Z ->
  fetch_page_content E self w =
    (Ok (Some r),
     {| dirs := dirs w; files := files w;
        requests := requests w ++ [root_request self];
        log := log w; stdout := stdout w |}).
Proof.
  intros Hget Hs.
  unfold fetch_page_content, requests_get, bind, record_request, lift.
  fold (root_request self). rewrite Hget. cbn.
  by rewrite (raise_for_status_pass (url self) r Hs).
Qed.

Lemma links_mode_total self soup base w :
  base_url E self = Ok base ->
  (extract_link self = true ->
   forall href, href ∈ anchors soup -> exists full_url, urljoin E base href = Ok full_url) ->
  exists n w',
    links_mode E self soup w = (Ok (mode_entry (extract_link self) (u "Link Extracted: ") n), w').
Proof.
  intros Hbase Hjoin. unfold links_mode, mode_entry.
  destruct (extract_link self) eqn:Hon; [|by exists 0%nat, w].
  destruct (extract_links_spec E self soup base Hon Hbase (Hjoin eq_refl))
    as (links & Hlinks & _).
  unfold bind at 1, lift at 1. rewrite Hlinks. unfold bind at 1.
  destruct (save_links_spec E self links w Hon) as (w' & -> & _).
  by eexists _, _.
Qed.

(** A run whose page was fetched and whose references all resolve
    returns a summary: one entry for each enabled mode, in the order
    links, documents, images, text, and the last record says that the
    scraping completed. *)
Theorem scrape_summary_shape self w r base :
  let soup := html_parser E (text r) in
  http_get E (root_request self) = Ok r ->
  ~ (400 <= status_code r < 600)%Z ->
  base_url E self = Ok base ->
  (extract_link self || extract_documents self = true ->
   forall href, href ∈ anchors soup -> exists full_url, urljoin E base href = Ok full_url) ->
  (extract_images self = true ->
   forall src, src ∈ images soup -> exists full_url, urljoin E base src = Ok full_url) ->
  exists nl nd ni t w',
    scrape E self w =
      (Ok (Some (mode_entry (extract_link self) (u "Link Extracted: ") nl ++
                 mode_entry (extract_documents self) (u "Document Downloaded: ") nd ++
                 mode_entry (extract_images self) (u "Images Downloaded: ") ni ++
                 (if extract_text self then [t] else []))), w') /\
    length (mode_entry (extract_link self) (u "Link Extracted: ") nl ++
            mode_entry (extract_documents self) (u "Document Downloaded: ") nd ++
            mode_entry (extract_images self) (u "Images Downloaded: ") ni ++
            (if extract_text self then [t] else [])) = enabled_modes self /\
    last (log w') = Some (INFO, u "Scraping completed successfully").
Proof.
  intros soup Hget Hs Hbase Hanchors Himages.
  unfold scrape.
  unfold bind at 1, logger at 1. unfold bind at 1, logger at 1. unfold bind at 1.
  match goal with |- context [fetch_page_content E self ?w0] =>
    destruct (fetch_page_content_ok E self w0 r Hget Hs) as (w1 & -> & ->) end.
  change (default [] (text <$> Some r)) with (text r). fold soup.
  destruct (links_mode_total self soup base w1 Hbase) as (nl & w2 & Hlinks).
  { intros Hon. apply Hanchors. by rewrite Hon. }
  destruct (documents_mode_total E self soup base w2 Hbase) as (nd & w3 & Hdocs).
  { intros Hon. apply Hanchors. rewrite Hon. apply orb_true_r. }
  destruct (images_mode_total E self soup base w3 Hbase Himages) as (ni & w4 & Himgs).
  destruct (text_mode_total E self soup w4) as (t & w5 & Htext).
  unfold bind at 1. rewrite Hlinks.
  unfold bind at 1. rewrite Hdocs.
  unfold bind at 1. rewrite Himgs.
  unfold bind at 1. rewrite Htext.
  unfold bind, logger, ret.
  exists nl, nd, ni, t. eexists. split; [by rewrite <- !app_assoc|]. split.
  - unfold enabled_modes, mode_entry. rewrite !length_app.
    by destruct (extract_link self), (extract_documents self),
         (extract_images self), (extract_text self).
  - cbn [log]. by rewrite last_snoc.
Qed.

(** With no mode enabled, a run whose page was fetched makes that one
    request, returns the empty summary, and leaves the directories, the
    files and the standard output as they were. *)
Theorem scrape_without_modes self w r :
  extract_text self = false -> extract_link self = false ->
  extract_documents self = false -> extract_images self = false ->
  http_get E (root_request self) = Ok r ->
  ~ (400 <= status_code r < 600)%Z ->
  exists w',
    scrape E self w = (Ok (Some []), w') /\
    requests w' = requests w ++ [root_request self] /\
    dirs w' = dirs w /\ files w' = files w /\ stdout w' = stdout w.
Proof.
  intros Ht Hl Hd Hi Hget Hs. unfold scrape.
  unfold bind at 1, logger at 1. unfold bind at 1, logger at 1. unfold bind at 1.
  rewrite (fetch_page_content_ok_world self _ r Hget Hs).
  assert (not_response (Some r) = false) as ->.
  { unfold not_response, response_ok. by rewrite (raise_for_status_pass [] r Hs). }
  unfold links_mode, documents_mode, images_mode, text_mode.
  rewrite Ht, Hl, Hd, Hi. unfold bind, logger, ret.
  eexists. split; [reflexivity|]. by cbn.
Qed.

(** [save_webpage_text], Text mode on.  When the page gives its text,
    the tokenizer returns and the write goes through, the file
    [webpage_text.txt] of the workspace holds the tokens of the page
    text that are not white space, joined by single spaces, and the
    result is ["Text extracted."].  When the page text cannot be taken
    or the tokenizer raises (the text is too long for it), no file is
    touched.  In that case and when the write fails, the error is
    logged and the method returns nothing, which is the [None] entry of
    the summary. *)
Theorem save_webpage_text_outcome self soup w :
  extract_text self = true ->
  (forall text doc,
      get_text soup = Ok text -> nlp E text = Ok doc ->
      write_fails (write_plan E (webpage_text_file self)) = false ->
      save_webpage_text E self soup w =
        (Ok (Some (u "Text extracted.")),
         {| dirs := dirs w;
            files := <[webpage_text_file self :=
                         PyStr.join (u " ") (token_texts doc)]> (files w);
            requests := requests w;
            log := log w ++ [(INFO, u "Webpage text extracted successfully")];
            stdout := stdout w |})) /\
  (forall e,
      get_text soup = Raise e \/
      (exists text, get_text soup = Ok text /\ nlp E text = Raise e) ->
      let w' := {| dirs := dirs w; files := files w; requests := requests w;
                   log := log w ++ [(ERROR, u "Text extraction failed: " ++ exn_msg e)];
                   stdout := stdout w |} in
      save_webpage_text E self soup w = (Ok None, w') /\
      text_mode E self soup w = (Ok [None], w')) /\
  (forall text doc,
      get_text soup = Ok text -> nlp E text = Ok doc ->
      write_fails (write_plan E (webpage_text_file self)) = true ->
      exists e w',
        save_webpage_text E self soup w = (Ok None, w') /\
        log w' = log w ++ [(ERROR, u "Text extraction failed: " ++ exn_msg e)] /\
        text_mode E self soup w = (Ok [None], w')).
Proof.
  intros Hon. unfold text_mode, save_webpage_text. rewrite Hon. cbn [negb].
  fold (webpage_text_file self). unfold try_except. split; [|split].
  - intros text doc Htext Hdoc Hplan. unfold bind at 1, lift at 1. rewrite Htext.
    unfold bind at 1, lift at 1. rewrite Hdoc.
    unfold bind at 1. by rewrite write_file_ok.
  - intros e Hraise. unfold bind, lift.
    destruct Hraise as [-> | (text & -> & ->)]; done.
  - intros text doc Htext Hdoc Hplan. unfold bind, lift. rewrite Htext, Hdoc.
    unfold write_file, bind, fopen, fwrite, fclose.
    destruct (write_plan E (webpage_text_file self)) as [|e0|[|j] e0|e0];
      try discriminate; exists e0; eexists; (split; [reflexivity|]); by cbn.
Qed.

End Run.

Lemma download_documents_returns_successes_witness :
  let E := Demo.env 200 Demo.page Demo.no_fault in
  let soup := {| anchors := [u "/a.pdf"; u "/missing.docx"; u "x.html"; u "b.csv"];
                 images := []; get_text := Ok [] |} in
  exists w', download_documents E (Demo.scraper false false true false) soup Demo.world
             = (Ok 2%nat, w').
Proof.
  intros E soup.
  destruct (download_documents_returns_successes E (Demo.scraper false false true false)
              soup (u "https://example.com") Demo.world) as (w' & Hrun & _).
  - reflexivity.
  - reflexivity.
  - intros href Hin. apply list_elem_of_In in Hin. simpl in Hin.
    destruct Hin as [<- | [<- | [<- | [<- | []]]]]; eexists; reflexivity.
  - exists w'. exact Hrun.
Defined.

Lemma scrape_summary_shape_witness :
  let E := Demo.env 200 Demo.page Demo.no_fault in
  exists nl nd ni t w',
    scrape E (Demo.scraper true false true false) Demo.world =
      (Ok (Some (mode_entry false (u "Link Extracted: ") nl ++
                 mode_entry true (u "Document Downloaded: ") nd ++
                 mode_entry false (u "Images Downloaded: ") ni ++ [t])), w').
Proof.
  intros E.
  destruct (scrape_summary_shape E (Demo.scraper true false true false) Demo.world
              {| status_code := 200; reason := u "";
                 content := u "<html>"; text := u "<html>" |} (u "https://example.com"))
    as (nl & nd & ni & t & w' & Hrun & _).
  - reflexivity.
  - simpl. lia.
  - reflexivity.
  - intros _ href Hin. apply list_elem_of_In in Hin. simpl in Hin.
    destruct Hin as [<- | [<- | [<- | []]]]; eexists; reflexivity.
  - intros Hoff. discriminate Hoff.
  - exists nl, nd, ni, t, w'. exact Hrun.
Defined.

Lemma scrape_without_modes_witness :
  exists w',
    scrape (Demo.env 200 Demo.page Demo.no_fault) (Demo.scraper false false false false)
      Demo.world = (Ok (Some []), w') /\
    files w' = ∅.
Proof.
  destruct (scrape_without_modes (Demo.env 200 Demo.page Demo.no_fault)
              (Demo.scraper false false false false) Demo.world
              {| status_code := 200; reason := u "";
                 content := u "<html>"; text := u "<html>" |})
    as (w' & Hrun & _ & _ & Hfiles & _).
  - reflexivity.
  - reflexivity.
  - reflexivity.
  - reflexivity.
  - reflexivity.
  - simpl. lia.
  - exists w'. split; [exact Hrun | exact Hfiles].
Defined.

(** The text of the page has thirteen characters, more than the
    pipeline of [DemoPages.short_texts] takes. *)
Lemma save_webpage_text_outcome_witness :
  let self := Demo.scraper true false false false in
  (fst (save_webpage_text (Demo.env 200 Demo.page Demo.no_fault) self Demo.page Demo.world) =
     Ok (Some (u "Text extracted.")) /\
   files (snd (save_webpage_text (Demo.env 200 Demo.page Demo.no_fault) self Demo.page
                 Demo.world)) =
     {[ u "/tmp/examplecompage_20240309_140507/webpage_text.txt" := u "Hello world" ]}) /\
  (fst (save_webpage_text DemoPages.short_texts self Demo.page Demo.world) = Ok None /\
   files (snd (save_webpage_text DemoPages.short_texts self Demo.page Demo.world)) = ∅).
Proof.
  intros self. split.
  - rewrite (proj1 (save_webpage_text_outcome (Demo.env 200 Demo.page Demo.no_fault) self
                      Demo.page Demo.world eq_refl)
               (u "Hello   world") (Demo.tokenize (u "Hello   world"))
               eq_refl eq_refl eq_refl).
    split; reflexivity.
  - destruct (proj1 (proj2 (save_webpage_text_outcome DemoPages.short_texts self
                              Demo.page Demo.world eq_refl))
                (ValueError (u "[E088] Text exceeds maximum"))
                (or_intror (ex_intro _ (u "Hello   world") (conj eq_refl eq_refl))))
      as [-> _].
    split; reflexivity.
Defined.

(** ** More on the tag-stripping pass *)

Section TagStripping.

Import Re.

Context (E : Env).

Lemma sub_tags_from_sublist in_tag s : sub_tags_from in_tag s `sublist_of` s.
Proof.
  revert in_tag. induction s as [|c s IH]; intros in_tag; [done|].
  cbn [sub_tags_from]. destruct in_tag; [by apply sublist_cons|].
  destruct ((c =? lt_sign) && closes s); [by apply sublist_cons | by apply sublist_skip].
Qed.

Lemma sub_tags_before pre rest :
  lt_sign ∉ pre -> sub_tags (pre ++ rest) = pre ++ sub_tags rest.
Proof.
  unfold sub_tags. induction pre as [|c pre IH]; intros Hpre; [done|].
  apply not_elem_of_cons in Hpre as [Hc Hpre]. simpl.
  destruct (N.eqb_spec c lt_sign); [congruence|]. simpl. by rewrite IH.
Qed.

Lemma closes_body body post :
  newline ∉ body -> closes (body ++ gt_sign :: post) = true.
Proof.
  induction body as [|c body IH]; intros Hbody; [done|].
  apply not_elem_of_cons in Hbody as [Hc Hbody]. simpl.
  destruct (c =? gt_sign); [done|].
  destruct (N.eqb_spec c newline); [congruence | by apply IH].
Qed.

Lemma sub_tags_inside body post :
  gt_sign ∉ body ->
  sub_tags_from true (body ++ gt_sign :: post) = sub_tags_from false post.
Proof.
  induction body as [|c body IH]; intros Hbody; [done|].
  apply not_elem_of_cons in Hbody as [Hc Hbody]. simpl.
  destruct (N.eqb_spec c gt_sign); [congruence|]. simpl. by apply IH.
Qed.

(** What the pass [re.sub(r'<.*?>', '', text)] of [clean_text] does.
    It only deletes characters; no tag is left after it, so a second
    pass changes nothing; a text without a tag is left as it is; and a
    tag, a [<] followed on the same line by a [>], goes away with
    everything between the two, so that [clean_text] does not see it. *)
Theorem sub_tags_removes_tags (s pre body post : list N) :
  sub_tags s `sublist_of` s /\
  has_tag (sub_tags s) = false /\
  sub_tags (sub_tags s) = sub_tags s /\
  (has_tag s = false -> sub_tags s = s) /\
  (lt_sign ∉ pre -> gt_sign ∉ body -> newline ∉ body ->
   sub_tags (pre ++ lt_sign :: body ++ gt_sign :: post) = pre ++ sub_tags post /\
   clean_text E (pre ++ lt_sign :: body ++ gt_sign :: post) = clean_text E (pre ++ post)).
Proof.
  split; [apply sub_tags_from_sublist|].
  split; [apply has_tag_sub_tags|].
  split; [apply sub_tags_id, has_tag_sub_tags|].
  split; [apply sub_tags_id|].
  intros Hpre Hgt Hnl.
  assert (sub_tags (pre ++ lt_sign :: body ++ gt_sign :: post) = pre ++ sub_tags post) as Htag.
  { rewrite sub_tags_before by done. f_equal. unfold sub_tags.
    cbn [sub_tags_from]. rewrite N.eqb_refl, closes_body by done.
    by apply sub_tags_inside. }
  split; [done|]. unfold clean_text. by rewrite Htag, sub_tags_before.
Qed.

End TagStripping.

Lemma sub_tags_removes_tags_witness :
  Re.sub_tags (u "a " ++ Re.lt_sign :: u "b class=x" ++ Re.gt_sign :: u "c") = u "a c".
Proof.
  rewrite (proj1 (proj2 (proj2 (proj2 (proj2
             (sub_tags_removes_tags (Demo.env 200 Demo.page Demo.no_fault)
                [] (u "a ") (u "b class=x") (u "c")))))
             ltac:(apply (bool_decide_unpack _); vm_compute; exact I)
             ltac:(apply (bool_decide_unpack _); vm_compute; exact I)
             ltac:(apply (bool_decide_unpack _); vm_compute; exact I))).
  reflexivity.
Defined.

(** ** The time stamp of the folder name *)

Section TimeStamp.

Context (E : Env).

Lemma strftime_length now : valid_datetime now -> length (strftime now) = 15%nat.
Proof.
  intros (Hy & Hm & Hd & HH & HM & HS). unfold strftime.
  rewrite !length_app, zfill4_length, !zfill2_length by lia. reflexivity.
Qed.

(** The time stamp tells the second it was made in. *)
Lemma strftime_inj now1 now2 :
  valid_datetime now1 -> valid_datetime now2 ->
  strftime now1 = strftime now2 -> now1 = now2.
Proof.
  intros (Hy1 & Hm1 & Hd1 & HH1 & HM1 & HS1) (Hy2 & Hm2 & Hd2 & HH2 & HM2 & HS2).
  unfold strftime. intros H.
  apply app_inj_1 in H as [Hy H]; [|by rewrite !zfill4_length by lia].
  apply app_inj_1 in H as [Hm H]; [|by rewrite !zfill2_length by lia].
  apply app_inj_1 in H as [Hd H]; [|by rewrite !zfill2_length by lia].
  apply app_inj_1 in H as [_ H]; [|done].
  apply app_inj_1 in H as [HH H]; [|by rewrite !zfill2_length by lia].
  apply app_inj_1 in H as [HM HS]; [|by rewrite !zfill2_length by lia].
  apply (f_equal digits_to_nat) in Hy, Hm, Hd, HH, HM, HS.
  rewrite !zfill4_read in Hy by lia. rewrite !zfill2_read in Hm, Hd, HH, HM, HS by lia.
  destruct now1, now2. simpl in *. congruence.
Qed.

(** Two folder names made in different seconds differ, whatever the
    URLs: a folder name ends with its time stamp of fifteen characters.
    A folder name has at most 36 characters and no path separator. *)
Theorem folder_names_differ_across_seconds url1 url2 now1 now2 :
  valid_datetime now1 -> valid_datetime now2 ->
  (now1 <> now2 ->
   _create_safe_folder_name E url1 now1 <> _create_safe_folder_name E url2 now2) /\
  drop (length (_create_safe_folder_name E url1 now1) - 15)
       (_create_safe_folder_name E url1 now1) = strftime now1 /\
  (16 <= length (_create_safe_folder_name E url1 now1) <= 36)%nat /\
  PosixPath.sep ∉ _create_safe_folder_name E url1 now1.
Proof.
  intros Hv1 Hv2.
  assert (forall url now, valid_datetime now ->
            drop (length (_create_safe_folder_name E url now) - 15)
                 (_create_safe_folder_name E url now) = strftime now) as Hdrop.
  { intros url now Hv. unfold _create_safe_folder_name.
    rewrite !app_assoc. rewrite length_app, strftime_length by done.
    rewrite Nat.add_sub. apply drop_app_length. }
  split; [|split; [by apply Hdrop|split]].
  - intros Hne Heq. apply Hne, strftime_inj; [done..|].
    by rewrite <- (Hdrop url1 now1 Hv1), <- (Hdrop url2 now2 Hv2), Heq.
  - unfold _create_safe_folder_name.
    rewrite !length_app, strftime_length, length_take by done.
    change (length (u "_")) with 1%nat. lia.
  - pose proof (create_safe_folder_name_chars E url1 now1) as Hchars.
    rewrite Forall_forall in Hchars. intros Hin.
    destruct (Hchars _ Hin) as [H | [H | H]]; [|done..].
    vm_compute in H. discriminate.
Qed.

End TimeStamp.

Lemma folder_names_differ_across_seconds_witness :
  let E := Demo.env 200 Demo.page Demo.no_fault in
  let later := {| year := 2024; month := 3; day := 9; hour := 14; minute := 5; second := 8 |} in
  _create_safe_folder_name E Demo.root Demo.now <> _create_safe_folder_name E Demo.root later.
Proof.
  intros E later.
  apply (proj1 (folder_names_differ_across_seconds E Demo.root Demo.root Demo.now later
                  ltac:(unfold valid_datetime; simpl; lia)
                  ltac:(unfold valid_datetime; simpl; lia))).
  discriminate.
Defined.

(** ** What a run can touch *)

Section Workspace.

Context (E : Env).

Lemma touches_of_keeps {A} P (m : M A) : keeps P m -> touches P m.
Proof. intros Hm w. destruct (Hm w) as (Hd & _ & Hf). by split. Qed.

Lemma touches_bind {A B} P (m : M A) (k : A -> M B) :
  touches P m -> (forall a, touches P (k a)) -> touches P (bind m k).
Proof.
  intros Hm Hk w. unfold bind.
  specialize (Hm w). destruct (m w) as [[a|e] w1]; simpl in *; [|done].
  destruct (Hk a w1) as (Hd & Hf). destruct Hm as (Hd' & Hf').
  split; [congruence|]. intros p Hp. by rewrite Hf, Hf'.
Qed.

Lemma touches_weaken {A} (P Q : list N -> Prop) (m : M A) :
  (forall p, P p -> Q p) -> touches P m -> touches Q m.
Proof.
  intros HPQ Hm w. destruct (Hm w) as (Hd & Hf).
  split; [done|]. intros p Hp. apply Hf. auto.
Qed.

Lemma touches_step {A} P (f : World -> A * World) (k : A -> M nat) :
  (forall w, dirs (snd (f w)) = dirs w /\
             forall p, ~ P p -> files (snd (f w)) !! p = files w !! p) ->
  (forall a, touches P (k a)) ->
  touches P (fun w => let '(a, w') := f w in k a w').
Proof.
  intros Hf Hk w. destruct (Hf w) as (Hd & Hfiles).
  destruct (f w) as [a w1]. simpl in *.
  destruct (Hk a w1) as (Hd' & Hf'). split; [congruence|].
  intros p Hp. by rewrite Hf', Hfiles.
Qed.

Lemma touches_requests_get P r : touches P (requests_get E r).
Proof. intros w. unfold requests_get, bind, record_request, lift. by simpl. Qed.

Lemma touches_fetch_page_content P self : touches P (fetch_page_content E self).
Proof.
  intros w. unfold fetch_page_content, requests_get, bind, record_request, lift.
  destruct (http_get E _) as [r|e]; cbn.
  - by destruct (raise_for_status (url self) r) as [[]|[]].
  - by destruct e.
Qed.

Lemma save_links_loop_touches path links :
  forall saved w,
    dirs (snd (save_links_loop E path links saved w)) = dirs w /\
    forall p, p <> path ->
              files (snd (save_links_loop E path links saved w)) !! p = files w !! p.
Proof.
  induction links as [|link rest IH]; intros saved w; [done|].
  cbn [save_links_loop].
  pose proof (keeps_fwrite E path saved (link ++ [Re.newline]) w) as (Hd & _ & Hf).
  destruct (fwrite E path saved (link ++ [Re.newline]) w) as [[[]|e] w1]; simpl in *.
  - destruct (IH (S saved) w1) as (Hd' & Hf'). split; [congruence|].
    intros p Hp. rewrite Hf' by done. apply Hf. congruence.
  - split; [done|]. intros p Hp. apply Hf. congruence.
Qed.

Lemma touches_save_links self links :
  touches (eq (links_file self)) (save_links E self links).
Proof.
  intros w. unfold save_links. destruct (extract_link self); [|done]. cbn [negb].
  fold (links_file self).
  pose proof (keeps_fopen E (links_file self) w) as (Hd1 & _ & Hf1).
  destruct (fopen E (links_file self) w) as [[[]|e] w1]; simpl in *.
  - pose proof (save_links_loop_touches (links_file self) links 0 w1) as (Hd2 & Hf2).
    destruct (save_links_loop E (links_file self) links 0 w1) as [[n [e|]] w2];
      simpl in *.
    + split; [congruence|]. intros p Hp. rewrite Hf2 by congruence. by apply Hf1.
    + pose proof (keeps_fclose E (eq (links_file self)) (links_file self) w2)
        as (Hd3 & _ & Hf3).
      destruct (fclose E (links_file self) w2) as [[[]|e] w3]; simpl in *;
        (split; [congruence|]); intros p Hp;
        rewrite Hf3, Hf2 by congruence; by apply Hf1.
  - split; [done|]. intros p Hp. by apply Hf1.
Qed.

Lemma download_document_touches self href full_url n w :
  dirs (snd (download_document E self href full_url n w)) = dirs w /\
  forall p, ~ written self p ->
            files (snd (download_document E self href full_url n w)) !! p = files w !! p.
Proof.
  pose proof (download_document_world E self href full_url n w) as (_ & Hd & Hf).
  split; [done|]. intros p Hp. apply Hf; intros ->; apply Hp; right; right; exists href; auto.
Qed.

Lemma download_image_touches self src full_url n w :
  dirs (snd (download_image E self src full_url n w)) = dirs w /\
  forall p, ~ written self p ->
            files (snd (download_image E self src full_url n w)) !! p = files w !! p.
Proof.
  assert (forall p, ~ written self p -> p <> image_path self src /\ p <> image_text_path self src)
    as Hne.
  { intros p Hp. split; intros ->; apply Hp; right; right; exists src; auto. }
  unfold download_image, requests_get, bind, record_request, lift.
  fold (image_path self src).
  destruct (http_get E _) as [r|e]; [|by simpl].
  match goal with |- context [write_file E ?p ?d ?w1] =>
    pose proof (keeps_write_file E p d w1) as (Hd & Hr & Hf);
    destruct (write_file E p d w1) as [[[]|e] w2] end; simpl in *.
  - pose proof (keeps_extract_text_from_image E self src w2) as (Hd' & Hr' & Hf').
    destruct (extract_text_from_image E self _ w2) as [[[]|e] w3]; simpl in *;
      (split; [congruence|]); intros p Hp; destruct (Hne p Hp);
      rewrite Hf', Hf by congruence; done.
  - split; [done|]. intros p Hp. destruct (Hne p Hp). by rewrite Hf by congruence.
Qed.

Lemma touches_download_documents_loop self base hrefs n :
  touches (written self) (download_documents_loop E self base hrefs n).
Proof.
  revert n. induction hrefs as [|href rest IH]; intros n; [by intros w|].
  cbn [download_documents_loop]. apply touches_bind; [by intros w|]. intros full_url.
  destruct (is_document_href E href); [|apply IH].
  apply (touches_step (written self) (download_document E self href full_url n)).
  - intros w. apply download_document_touches.
  - apply IH.
Qed.

Lemma touches_download_images_loop self base srcs n :
  touches (written self) (download_images_loop E self base srcs n).
Proof.
  revert n. induction srcs as [|src rest IH]; intros n; [by intros w|].
  cbn [download_images_loop]. apply touches_bind; [by intros w|]. intros full_url.
  apply (touches_step (written self) (download_image E self src full_url n)).
  - intros w. apply download_image_touches.
  - apply IH.
Qed.

Lemma touches_pure {A} P (m : M A) : (forall w, snd (m w) = w) -> touches P m.
Proof. intros Hm w. by rewrite Hm. Qed.

Lemma touches_logger P l msg : touches P (logger l msg).
Proof. by intros w. Qed.

Lemma touches_links_mode self soup : touches (written self) (links_mode E self soup).
Proof.
  unfold links_mode. destruct (extract_link self); [|by intros w].
  apply touches_bind; [by intros w|]. intros links.
  apply touches_bind; [|by intros n w].
  eapply touches_weaken; [|apply touches_save_links]. intros p <-. by left.
Qed.

Lemma touches_documents_mode self soup : touches (written self) (documents_mode E self soup).
Proof.
  unfold documents_mode, download_documents.
  destruct (extract_documents self); [|by intros w]. cbn [negb].
  apply touches_bind; [|by intros n w].
  apply touches_bind; [by intros w|]. intros base.
  apply touches_bind; [apply touches_download_documents_loop|]. intros n.
  apply touches_bind; [apply touches_logger | by intros ? w].
Qed.

Lemma touches_images_mode self soup : touches (written self) (images_mode E self soup).
Proof.
  unfold images_mode, download_images.
  destruct (extract_images self); [|by intros w]. cbn [negb].
  apply touches_bind; [|by intros n w].
  apply touches_bind; [by intros w|]. intros base.
  apply touches_bind; [apply touches_download_images_loop|]. intros n.
  apply touches_bind; [apply touches_logger | by intros ? w].
Qed.

Lemma touches_text_mode self soup : touches (written self) (text_mode E self soup).
Proof.
  unfold text_mode, save_webpage_text.
  destruct (extract_text self); [|by intros w]. cbn [negb].
  apply touches_bind; [|by intros n w].
  fold (webpage_text_file self).
  eapply touches_weaken; [|apply touches_of_keeps].
  - intros p Hp. right. left. symmetry. exact Hp.
  - apply keeps_try_except.
    + apply keeps_bind; [auto with py | intros text].
      apply keeps_bind; [auto with py | intros doc].
      apply keeps_bind; [apply keeps_write_file | intros _].
      apply keeps_bind; auto with py.
    + intros e. apply keeps_bind; auto with py.
Qed.

Lemma text_name_no_sep (b : list N) :
  PosixPath.sep ∉ b -> PosixPath.sep ∉ fst (PosixPath.splitext b) ++ u ".txt".
Proof.
  intros Hb Hin. apply elem_of_app in Hin as [Hin | Hin].
  - apply Hb. unfold PosixPath.splitext in Hin.
    destruct (_ <? _)%Z; [|done]. destruct (existsb _ _); [|done].
    simpl in Hin. by apply elem_of_take in Hin as (i & Hin & _);
      apply list_elem_of_lookup_2 in Hin.
  - vm_compute in Hin. repeat (apply elem_of_cons in Hin as [Hin | Hin]; [discriminate|]).
    by apply elem_of_nil in Hin.
Qed.

(** The shapes of the paths [scrape] can write to. *)
Lemma written_cases self p :
  written self p ->
  p = PosixPath.join (links_dir self) (u "links.txt") \/
  p = PosixPath.join (output_dir self) (u "webpage_text.txt") \/
  exists name, (PosixPath.sep ∉ name) /\
               (p = PosixPath.join (docs_dir self) name \/
                p = PosixPath.join (images_dir self) name).
Proof.
  intros [-> | [-> | (name & [-> | [-> | [-> | ->]]])]]; [by left | by right; left | ..];
    right; right.
  - exists (PosixPath.basename name). split; [apply basename_no_sep | by left].
  - eexists. split; [apply text_name_no_sep, basename_no_sep | by left].
  - exists (PosixPath.basename name). split; [apply basename_no_sep | by right].
  - eexists. split; [apply text_name_no_sep, basename_no_sep | by right].
Qed.

(** A path [scrape] can write to lies directly in one of the four
    directories of the scraper: its last component has no separator. *)
Lemma written_in_workspace self p :
  written self p ->
  exists dir name,
    dir ∈ [links_dir self; docs_dir self; images_dir self; output_dir self] /\
    (PosixPath.sep ∉ name) /\ p = PosixPath.join dir name.
Proof.
  pose proof text_name_no_sep as Htxt.
  intros [-> | [-> | (name & [-> | [-> | [-> | ->]]])]].
  - exists (links_dir self), (u "links.txt"). split; [set_solver|]. split; [|done].
    apply (bool_decide_unpack _). vm_compute. exact I.
  - exists (output_dir self), (u "webpage_text.txt"). split; [set_solver|]. split; [|done].
    apply (bool_decide_unpack _). vm_compute. exact I.
  - exists (docs_dir self), (PosixPath.basename name). split; [set_solver|].
    split; [apply basename_no_sep | done].
  - eexists (docs_dir self), _. split; [set_solver|].
    split; [apply Htxt, basename_no_sep | done].
  - exists (images_dir self), (PosixPath.basename name). split; [set_solver|].
    split; [apply basename_no_sep | done].
  - eexists (images_dir self), _. split; [set_solver|].
    split; [apply Htxt, basename_no_sep | done].
Qed.

Lemma touches_scrape self : touches (written self) (scrape E self).
Proof.
  unfold scrape.
  apply touches_bind; [apply touches_logger | intros _].
  apply touches_bind; [apply touches_logger | intros _].
  apply touches_bind; [apply touches_fetch_page_content | intros response].
  destruct (not_response response).
  - apply touches_bind; [apply touches_logger | by intros ? w0].
  - apply touches_bind; [apply touches_links_mode | intros s1].
    apply touches_bind; [apply touches_documents_mode | intros s2].
    apply touches_bind; [apply touches_images_mode | intros s3].
    apply touches_bind; [apply touches_text_mode | intros s4].
    apply touches_bind; [apply touches_logger | by intros ? w0].
Qed.

(** Whatever the page holds and however the run ends, [scrape] makes
    and removes no directory, and the only files it can change lie
    directly in the links, documents or images directory or in the
    workspace root of the scraper: the name under which an asset is
    saved never has a path separator. *)
Theorem scrape_stays_in_workspace self w :
  dirs (snd (scrape E self w)) = dirs w /\
  forall p,
    (forall dir name,
        dir ∈ [links_dir self; docs_dir self; images_dir self; output_dir self] ->
        PosixPath.sep ∉ name -> p <> PosixPath.join dir name) ->
    files (snd (scrape E self w)) !! p = files w !! p.
Proof.
  pose proof (touches_scrape self) as Htouches.
  destruct (Htouches w) as (Hd & Hf). split; [done|].
  intros p Hp. apply Hf. intros Hwritten.
  destruct (written_in_workspace self p Hwritten) as (dir & name & Hdir & Hname & ->).
  by apply (Hp dir name).
Qed.

End Workspace.

(** A reference that climbs out of the documents directory is saved
    under its last component: [/etc/passwd.txt] is not touched. *)
Lemma scrape_stays_in_workspace_witness :
  let E := Demo.env 200 DemoPages.climbing Demo.no_fault in
  let w := set_files {[ u "/etc/passwd.txt" := u "root" ]} Demo.world in
  files (snd (scrape E (Demo.scraper true true true true) w)) !! u "/etc/passwd.txt"
  = Some (u "root").
Proof.
  intros E w.
  rewrite (proj2 (scrape_stays_in_workspace E (Demo.scraper true true true true) w)).
  - reflexivity.
  - intros dir name Hdir Hname Heq.
    assert (exists c, last dir = Some c /\ c <> PosixPath.sep /\
                      forall rest, take 2 (dir ++ rest) = u "/t") as (c & Hlast & Hc & Htake).
    { repeat (apply elem_of_cons in Hdir as [-> | Hdir]);
        [eexists; split; [vm_compute; reflexivity | split; [discriminate | reflexivity]]..|].
      by apply elem_of_nil in Hdir. }
    destruct (parents_join dir name c Hlast Hc Hname) as [Hjoin _].
    rewrite Hjoin in Heq. apply (f_equal (take 2)) in Heq.
    rewrite Htake in Heq. vm_compute in Heq. discriminate.
Defined.

(** ** [app.py] *)

Section AppFacts.

Context (E : Env).
Variable tempdir : list N.
Variable zip_bytes : gmap (list N) (list N) -> list N -> list N.
Variable archive_fault : list N -> option exn.

Lemma drop_last_suffix (s t : list N) : drop_last (length t) (s ++ t) = s.
Proof. unfold drop_last. rewrite length_app, Nat.add_sub. apply take_app_length. Qed.

(** The path [create_zip_file] returns is the file [make_archive]
    writes: cutting [.zip] off the path and letting [make_archive] add
    it gives the path back.  The archive is named after the last
    component of the directory, in the temporary directory; for the
    workspace of a scraper that component is its folder name. *)
Theorem create_zip_file_returns_the_archive directory w url base now :
  let zip_filepath :=
    PosixPath.join tempdir (PosixPath.basename directory ++ u "_scraped_data.zip") in
  create_zip_file tempdir zip_bytes archive_fault directory w =
    match archive_fault zip_filepath with
    | Some e => (Raise e, w)
    | None => (Ok zip_filepath,
               set_files (<[zip_filepath := zip_bytes (files w) directory]> (files w)) w)
    end /\
  PosixPath.basename (PosixPath.join base (_create_safe_folder_name E url now)) =
    _create_safe_folder_name E url now.
Proof.
  intros zip_filepath. split.
  - assert (drop_last 4 zip_filepath ++ u ".zip" = zip_filepath) as Hround.
    { unfold zip_filepath.
      assert (PosixPath.sep ∉ PosixPath.basename directory ++ u "_scraped_data.zip") as Hname.
      { intros Hin. apply elem_of_app in Hin as [Hin | Hin];
          [by apply (basename_no_sep directory)|].
        vm_compute in Hin.
        repeat (apply elem_of_cons in Hin as [Hin | Hin]; [discriminate|]).
        by apply elem_of_nil in Hin. }
      destruct (join_relative tempdir _ Hname) as (d' & -> & _).
      change (u "_scraped_data.zip") with (u "_scraped_data" ++ u ".zip").
      rewrite !app_assoc. change 4%nat with (length (u ".zip")).
      by rewrite drop_last_suffix. }
    unfold create_zip_file, make_archive, bind. fold zip_filepath. rewrite Hround.
    by destruct (archive_fault zip_filepath).
  - apply basename_join.
    pose proof (create_safe_folder_name_chars E url now) as Hchars.
    rewrite Forall_forall in Hchars. intros Hin.
    destruct (Hchars _ Hin) as [H | [H | H]]; [|done..].
    vm_compute in H. discriminate.
Qed.

(** The preview of [main] reads [text.txt] in the workspace root, and
    [scrape] writes the page text to [webpage_text.txt]: for a scraper
    made by the constructor, no run changes [text.txt]. *)
Theorem preview_file_is_never_written url base t l d i now w0 self w1 w :
  __init__ E url base t l d i now w0 = (Ok self, w1) ->
  files (snd (scrape E self w)) !! preview_file self = files w !! preview_file self.
Proof.
  intros Hinit.
  assert (self = {| url := url; extract_text := t; extract_link := l;
                    extract_documents := d; extract_images := i;
                    safe_folder_name := _create_safe_folder_name E url now;
                    output_dir := PosixPath.join base (_create_safe_folder_name E url now);
                    links_dir := PosixPath.join
                                   (PosixPath.join base (_create_safe_folder_name E url now))
                                   (u "links");
                    docs_dir := PosixPath.join
                                  (PosixPath.join base (_create_safe_folder_name E url now))
                                  (u "documents");
                    images_dir := PosixPath.join
                                    (PosixPath.join base (_create_safe_folder_name E url now))
                                    (u "images") |}) as ->.
  { unfold __init__ in Hinit.
    apply bind_ok in Hinit as ([] & w2 & _ & Hinit).
    apply bind_ok in Hinit as ([] & w3 & _ & Hinit).
    apply bind_ok in Hinit as ([] & w4 & _ & Hinit).
    apply bind_ok in Hinit as ([] & w5 & _ & Hinit).
    by injection Hinit as <- _. }
  apply (touches_scrape E). unfold preview_file. cbn [output_dir].
  destruct (output_dir_last E base url now) as (c & Hlast & Hc).
  set (o := PosixPath.join base (_create_safe_folder_name E url now)) in *.
  assert (forall name, PosixPath.sep ∉ name -> PosixPath.join o name = o ++ PosixPath.sep :: name)
    as Hjoin by (intros name Hname; by apply (parents_join o name c)).
  assert (forall sub name,
            PosixPath.sep ∉ sub -> sub <> [] -> last sub <> Some PosixPath.sep ->
            PosixPath.sep ∉ name ->
            PosixPath.join (PosixPath.join o sub) name =
            o ++ PosixPath.sep :: sub ++ PosixPath.sep :: name) as Hjoin2.
  { intros sub name Hsub Hne Hsublast Hname. rewrite (Hjoin sub Hsub).
    destruct (last sub) as [c'|] eqn:Hl; [|by apply last_None in Hl].
    destruct (parents_join (o ++ PosixPath.sep :: sub) name c') as [-> _]; try done.
    - change (o ++ PosixPath.sep :: sub) with (o ++ [PosixPath.sep] ++ sub).
      by rewrite !last_app, Hl.
    - congruence.
    - by rewrite <- app_assoc. }
  assert (forall name : list N, PosixPath.sep ∉ u "text.txt") as Htext
    by (intros _; apply (bool_decide_unpack _); vm_compute; exact I).
  rewrite (Hjoin (u "text.txt")) by (by apply Htext).
  intros Hwritten. apply written_cases in Hwritten. cbn [links_dir docs_dir images_dir output_dir] in Hwritten.
  destruct Hwritten as [H | [H | (name & Hname & [H | H])]].
  - rewrite (Hjoin2 (u "links") (u "links.txt")) in H;
      try (apply (bool_decide_unpack _); vm_compute; exact I).
    apply app_inv_head in H. vm_compute in H. discriminate.
  - rewrite (Hjoin (u "webpage_text.txt")) in H
      by (apply (bool_decide_unpack _); vm_compute; exact I).
    apply app_inv_head in H. vm_compute in H. discriminate.
  - rewrite (Hjoin2 (u "documents") name) in H;
      try done; try (apply (bool_decide_unpack _); vm_compute; exact I).
    apply app_inv_head in H. apply (f_equal (take 2)) in H. vm_compute in H. discriminate.
  - rewrite (Hjoin2 (u "images") name) in H;
      try done; try (apply (bool_decide_unpack _); vm_compute; exact I).
    apply app_inv_head in H. apply (f_equal (take 2)) in H. vm_compute in H. discriminate.
Qed.

End AppFacts.

Lemma preview_file_is_never_written_witness :
  let E := Demo.env 200 Demo.page Demo.no_fault in
  let self := Demo.scraper true true true true in
  files (snd (scrape E self Demo.world)) !! preview_file self = None.
Proof.
  intros E self.
  rewrite (preview_file_is_never_written E Demo.root (u "/tmp") true true true true
             Demo.now Demo.world self
             (snd (__init__ E Demo.root (u "/tmp") true true true true Demo.now Demo.world))
             Demo.world).
  - reflexivity.
  - vm_compute. reflexivity.
Defined.

(** ** A reference that cannot be resolved, in a whole run *)

Section RunRaises.

Context (E : Env).

Lemma extract_links_loop_raises base hrefs href e :
  href ∈ hrefs -> urljoin E base href = Raise e ->
  forall acc, exists e', extract_links_loop E base hrefs acc = Raise e'.
Proof.
  intros Hin Hraise. induction hrefs as [|h rest IH]; [by apply elem_of_nil in Hin|].
  intros acc. cbn [extract_links_loop].
  destruct (urljoin E base h) as [full_url|e0] eqn:Hh; [|by eexists].
  apply IH. apply elem_of_cons in Hin as [-> | Hin]; [congruence | done].
Qed.

(** One anchor whose reference [urljoin] refuses ends the whole run: with
    Links or Documents mode on, [scrape] raises after the page was
    fetched and returns no summary, not even for the modes that had
    nothing to do with the anchor. *)
Theorem scrape_raises_on_unresolved_href self w r base href e :
  http_get E (root_request self) = Ok r ->
  ~ (400 <= status_code r < 600)%Z ->
  base_url E self = Ok base ->
  extract_link self || extract_documents self = true ->
  href ∈ anchors (html_parser E (text r)) ->
  urljoin E base href = Raise e ->
  exists e' w', scrape E self w = (Raise e', w').
Proof.
  intros Hget Hs Hbase Hmode Hin Hraise. unfold scrape.
  unfold bind at 1, logger at 1. unfold bind at 1, logger at 1. unfold bind at 1.
  rewrite (fetch_page_content_ok_world E self _ r Hget Hs).
  assert (not_response (Some r) = false) as ->.
  { unfold not_response, response_ok. by rewrite (raise_for_status_pass [] r Hs). }
  change (default [] (text <$> Some r)) with (text r).
  set (soup := html_parser E (text r)) in *.
  unfold bind at 1. unfold links_mode at 1.
  destruct (extract_link self) eqn:Hlinks.
  - unfold bind at 1, lift at 1. unfold extract_links. rewrite Hlinks, Hbase. cbn [negb].
    destruct (extract_links_loop_raises base (anchors soup) href e Hin Hraise ∅) as [e' ->].
    by eexists _, _.
  - simpl in Hmode. unfold ret at 1. unfold bind at 1.
    unfold documents_mode at 1. rewrite Hmode.
    unfold bind at 1. unfold download_documents. rewrite Hmode. cbn [negb].
    unfold bind at 1 2, lift at 1. rewrite Hbase. unfold bind at 1.
    match goal with |- context [download_documents_loop E self base (anchors soup) ?n ?w0] =>
      destruct (download_documents_loop_raises E self base _ href e Hin Hraise n w0)
        as (e' & w' & ->) end.
    by eexists _, _.
Qed.

End RunRaises.

Lemma scrape_raises_on_unresolved_href_witness :
  exists e' w',
    scrape (Demo.env 200 DemoPages.bracket Demo.no_fault)
      (Demo.scraper true true false true) Demo.world = (Raise e', w').
Proof.
  apply (scrape_raises_on_unresolved_href (Demo.env 200 DemoPages.bracket Demo.no_fault)
           (Demo.scraper true true false true) Demo.world
           {| status_code := 200; reason := u "";
              content := u "<html>"; text := u "<html>" |}
           (u "https://example.com") (u "//[") (ValueError (u "Invalid IPv6 URL"))).
  - reflexivity.
  - simpl. lia.
  - reflexivity.
  - reflexivity.
  - apply list_elem_of_In. simpl. auto.
  - reflexivity.
Defined.

(** ** More on the constructor *)

Section InitMore.

Context (E : Env).

Lemma ensure_dirs_present ds w :
  Forall (fun d => d ∈ dirs w) ds -> ensure_dirs E ds w = (Ok tt, w).
Proof.
  induction ds as [|d ds IH]; intros Hds; [done|].
  apply Forall_cons in Hds as [Hd Hds].
  cbn [ensure_dirs]. unfold bind, ensure_dir.
  rewrite bool_decide_eq_true_2 by done. by apply IH.
Qed.

Lemma when_makedirs_present b name w :
  (b = true -> Forall (fun d => d ∈ dirs w) (PosixPath.parents name ++ [name])) ->
  when b (makedirs E name) w = (Ok tt, w).
Proof.
  destruct b; [|done]. intros H. by apply ensure_dirs_present, H.
Qed.

(** The constructor makes, for a run, every directory the run writes to:
    after it the subdirectory of every enabled mode exists, and the
    workspace root if Text mode is on; no directory that existed is
    gone.  Run again with the same arguments at the same time, it
    finds the directories, changes nothing and returns the same
    scraper: an existing directory is no error. *)
Theorem init_makes_the_directories_of_the_run url base t l d i now w self w' :
  __init__ E url base t l d i now w = (Ok self, w') ->
  (l = true -> links_dir self ∈ dirs w') /\
  (d = true -> docs_dir self ∈ dirs w') /\
  (i = true -> images_dir self ∈ dirs w') /\
  (t = true -> output_dir self ∈ dirs w') /\
  dirs w ⊆ dirs w' /\
  __init__ E url base t l d i now w' = (Ok self, w').
Proof.
  intros Hinit. pose proof Hinit as Hrun. unfold __init__ in Hinit.
  apply bind_ok in Hinit as ([] & w1 & H1 & Hinit).
  apply bind_ok in Hinit as ([] & w2 & H2 & Hinit).
  apply bind_ok in Hinit as ([] & w3 & H3 & Hinit).
  apply bind_ok in Hinit as ([] & w4 & H4 & Hinit).
  injection Hinit as <- <-.
  apply when_makedirs_ok in H1 as ->. apply when_makedirs_ok in H2 as ->.
  apply when_makedirs_ok in H3 as ->. apply when_makedirs_ok in H4 as ->.
  cbn [output_dir links_dir docs_dir images_dir].
  set (o := PosixPath.join base (_create_safe_folder_name E url now)) in *.
  rewrite !set_dirs_twice. cbn [dirs set_dirs].
  set (D := (if t then list_to_set (PosixPath.parents o ++ [o]) else ∅)
            ∪ ((if i then list_to_set (PosixPath.parents (PosixPath.join o (u "images")) ++
                                       [PosixPath.join o (u "images")]) else ∅)
            ∪ ((if d then list_to_set (PosixPath.parents (PosixPath.join o (u "documents")) ++
                                       [PosixPath.join o (u "documents")]) else ∅)
            ∪ ((if l then list_to_set (PosixPath.parents (PosixPath.join o (u "links")) ++
                                       [PosixPath.join o (u "links")]) else ∅)
            ∪ dirs w)))) in *.
  assert (forall (b : bool) name,
            b = true -> list_to_set (PosixPath.parents name ++ [name]) ⊆ D ->
            Forall (fun p => p ∈ dirs (set_dirs D w)) (PosixPath.parents name ++ [name]))
    as Hpresent.
  { intros b name _ Hsub. apply Forall_forall. intros p Hp. apply Hsub.
    by apply elem_of_list_to_set. }
  split; [intros ->; unfold D; rewrite list_to_set_app_L; set_solver|].
  split; [intros ->; unfold D; rewrite !list_to_set_app_L; set_solver|].
  split; [intros ->; unfold D; rewrite !list_to_set_app_L; set_solver|].
  split; [intros ->; unfold D; rewrite !list_to_set_app_L; set_solver|].
  split; [unfold D; set_solver|].
  unfold __init__. fold o. unfold bind.
  rewrite (when_makedirs_present l) by (intros ->; apply (Hpresent true); [done | unfold D; set_solver]).
  rewrite (when_makedirs_present d) by (intros ->; apply (Hpresent true); [done | unfold D; set_solver]).
  rewrite (when_makedirs_present i) by (intros ->; apply (Hpresent true); [done | unfold D; set_solver]).
  rewrite (when_makedirs_present t) by (intros ->; apply (Hpresent true); [done | unfold D; set_solver]).
  reflexivity.
Qed.

End InitMore.

(** ** More on the text of an image *)

Section ImageText.

Context (E : Env).


End ImageText.

Lemma init_makes_the_directories_of_the_run_witness :
  let E := Demo.env 200 Demo.page Demo.no_fault in
  let w' := snd (__init__ E Demo.root (u "/tmp") true false true false Demo.now Demo.world) in
  u "/tmp/examplecompage_20240309_140507/documents" ∈ dirs w' /\
  __init__ E Demo.root (u "/tmp") true false true false Demo.now w' =
    (Ok (Demo.scraper true false true false), w').
Proof.
  intros E w'.
  destruct (init_makes_the_directories_of_the_run E Demo.root (u "/tmp")
              true false true false Demo.now Demo.world
              (Demo.scraper true false true false) w')
    as (_ & Hdocs & _ & _ & _ & Hagain).
  - vm_compute. reflexivity.
  - split; [exact (Hdocs eq_refl) | exact Hagain].
Defined.
